(** * eslint-rules-zayat: detectors, classifiers and fix synthesis

    A shallow embedding of the rule bodies [no-empty-catch],
    [no-response-data-return], [one-component-per-file] and of the helpers
    of [utils/ast-helpers.ts] they rely on (the tree walker, the node
    classifiers, the strategy selector and the fix synthesizers).

    Syntax-tree nodes are untyped JavaScript objects at run time, and the
    helpers inspect them reflectively ([for (const key in node)],
    ['type' in value], optional children).  They are therefore modelled as
    JSON-like values; reading a property of [undefined] or [null] raises a
    [TypeError], which is [None] in the option monad, and the
    [try { ... } catch { ... }] of each function is written out wherever
    its [catch] can be reached. *)

From Stdlib Require Import ZArith Ascii String DecimalString.
From stdpp Require Import base option list strings gmap.

Local Open Scope Z_scope.
Set Warnings "-register-all,-clear-no-such-hyp".
Set Default Proof Using "Type".

(** ** Strings

    Strings are sequences of 8-bit code units (Latin-1). *)
Module Str.

(** [s.replace(/\\/g, "/")] *)
Fixpoint replaceBackslashes (s : string) : string :=
  match s with
  | EmptyString => EmptyString
  | String c tl =>
      String (if Ascii.eqb c "\"%char then "/"%char else c)
             (replaceBackslashes tl)
  end.

(** [s.includes(needle)] *)
Fixpoint includes (needle s : string) : bool :=
  String.prefix needle s ||
  match s with
  | EmptyString => false
  | String _ tl => includes needle tl
  end.

(** Lower-casing of one code unit: [A-Z] and the upper-case letters of
    the Latin-1 supplement move up by 32. *)
Definition lowerChar (c : ascii) : ascii :=
  let n := nat_of_ascii c in
  if ((65 <=? n)%nat && (n <=? 90)%nat)
     || ((192 <=? n)%nat && (n <=? 222)%nat && negb (n =? 215)%nat)
  then ascii_of_nat (n + 32) else c.

(** [s.toLowerCase()] *)
Fixpoint toLowerCase (s : string) : string :=
  match s with
  | EmptyString => EmptyString
  | String c tl => String (lowerChar c) (toLowerCase tl)
  end.

(** [text.slice(0, n)] and [text.slice(n)] for an offset [n]. *)
Fixpoint take (n : nat) (s : string) : string :=
  match n, s with
  | S n', String c tl => String c (take n' tl)
  | _, _ => EmptyString
  end.

Fixpoint drop (n : nat) (s : string) : string :=
  match n, s with
  | S n', String _ tl => drop n' tl
  | _, _ => s
  end.

(** The rest of the line: the text up to the next line terminator.  A
    [//] comment extends that far. *)
Fixpoint lineRest (s : string) : string :=
  match s with
  | EmptyString => EmptyString
  | String c tl =>
      if Ascii.eqb c "010"%char || Ascii.eqb c "013"%char then EmptyString
      else String c (lineRest tl)
  end.

End Str.

(** ** Regular expressions

    The ignore-intent patterns are regular expressions used through
    [pattern.test(text)] with the [i] flag, without anchors: the test
    succeeds when some substring of the text matches.  Matching is by
    derivatives. *)
Module Regex.

Inductive regex : Type :=
  | Fail                       (* matches nothing *)
  | Eps                        (* the empty string *)
  | Chr (c : ascii)            (* a literal character, compared ignoring case *)
  | Space                      (* \s *)
  | Seq (r1 r2 : regex)
  | Alt (r1 r2 : regex)
  | Star (r : regex).

(** [r+] and [r?] *)
Definition Plus (r : regex) : regex := Seq r (Star r).
Definition Opt (r : regex) : regex := Alt r Eps.

(** A literal word. *)
Fixpoint Lit (s : string) : regex :=
  match s with
  | EmptyString => Eps
  | String c tl => Seq (Chr c) (Lit tl)
  end.

(** Case folding of the [i] flag; the patterns only contain ASCII
    characters, which only ASCII characters fold to. *)
Definition foldCase (c : ascii) : ascii :=
  let n := nat_of_ascii c in
  if (97 <=? n)%nat && (n <=? 122)%nat then ascii_of_nat (n - 32) else c.

(** The white-space class [\s] on 8-bit code units: TAB, LF, VT, FF, CR,
    SPACE and NBSP. *)
Definition isSpace (c : ascii) : bool :=
  let n := nat_of_ascii c in
  ((9 <=? n)%nat && (n <=? 13)%nat) || (n =? 32)%nat || (n =? 160)%nat.

Fixpoint nullable (r : regex) : bool :=
  match r with
  | Fail => false
  | Eps => true
  | Chr _ => false
  | Space => false
  | Seq r1 r2 => nullable r1 && nullable r2
  | Alt r1 r2 => nullable r1 || nullable r2
  | Star _ => true
  end.

Fixpoint deriv (c : ascii) (r : regex) : regex :=
  match r with
  | Fail => Fail
  | Eps => Fail
  | Chr c' => if Ascii.eqb (foldCase c) (foldCase c') then Eps else Fail
  | Space => if isSpace c then Eps else Fail
  | Seq r1 r2 =>
      if nullable r1
      then Alt (Seq (deriv c r1) r2) (deriv c r2)
      else Seq (deriv c r1) r2
  | Alt r1 r2 => Alt (deriv c r1) (deriv c r2)
  | Star r1 => Seq (deriv c r1) (Star r1)
  end.

(** Does some prefix of [s] match [r]? *)
Fixpoint matchPrefix (r : regex) (s : string) : bool :=
  nullable r ||
  match s with
  | EmptyString => false
  | String c tl => matchPrefix (deriv c r) tl
  end.

(** [pattern.test(s)]: does some substring of [s] match? *)
Fixpoint test (r : regex) (s : string) : bool :=
  matchPrefix r s ||
  match s with
  | EmptyString => false
  | String _ tl => test r tl
  end.

End Regex.

(** ** JavaScript values

    A node of the syntax tree is an object: a list of properties in
    enumeration order.  Its [range] property, when present, is a pair of
    source offsets and is kept apart from the other properties, so that
    offsets stay integers.  The back-reference [parent] makes the real
    tree cyclic; here a property called [parent] may hold any value, and
    what matters is that the code never follows it.  Two objects at
    different positions of a value are different objects. *)
Module JS.

Inductive value : Type :=
  | VUndef
  | VNull
  | VBool (b : bool)
  | VNum (n : Z)
  | VStr (s : string)
  | VArr (items : list value)
  | VObj (range : option (Z * Z)) (fields : list (string * value)).

(** Own property [k] of an object, [undefined] when absent. *)
Fixpoint lookup (k : string) (fs : list (string * value)) : value :=
  match fs with
  | [] => VUndef
  | (k', v) :: tl => if String.eqb k k' then v else lookup k tl
  end.

(** ['k' in obj] *)
Definition hasKey (k : string) (fs : list (string * value)) : bool :=
  existsb (fun kv => String.eqb k kv.1) fs.

(** [v.k] for the property names the code reads ([type], [name],
    [body], [length], ...), none of which is a method of arrays or
    strings.  Reading from [undefined] or [null] throws. *)
Definition get (v : value) (k : string) : option value :=
  match v with
  | VUndef | VNull => None
  | VObj _ fs => Some (lookup k fs)
  | VArr items =>
      Some (if String.eqb k "length" then VNum (Z.of_nat (length items))
            else VUndef)
  | VStr s =>
      Some (if String.eqb k "length" then VNum (Z.of_nat (String.length s))
            else VUndef)
  | VBool _ | VNum _ => Some VUndef
  end.

(** [v.range] *)
Definition rangeOf (v : value) : option (option (Z * Z)) :=
  match v with
  | VUndef | VNull => None
  | VObj r _ => Some r
  | _ => Some None
  end.

(** [v[0]] *)
Definition first (v : value) : option value :=
  match v with
  | VUndef | VNull => None
  | VArr items => Some (nth 0 items VUndef)
  | VStr (String c _) => Some (VStr (String c EmptyString))
  | VObj _ fs => Some (lookup "0" fs)
  | _ => Some VUndef
  end.

(** Truthiness, [!!v]. *)
Definition truthy (v : value) : bool :=
  match v with
  | VUndef | VNull => false
  | VBool b => b
  | VNum n => negb (n =? 0)
  | VStr s => negb (String.eqb s "")
  | VArr _ | VObj _ _ => true
  end.

(** [v === 'literal'] *)
Definition isStr (v : value) (s : string) : bool :=
  match v with
  | VStr s' => String.eqb s' s
  | _ => false
  end.

(** [v === 0] *)
Definition isZero (v : value) : bool :=
  match v with
  | VNum n => n =? 0
  | _ => false
  end.

(** [a === b], which is also the equality of [Set.prototype.has]:
    primitives by value, objects by identity. *)
Definition strictEq (a b : value) : bool :=
  match a, b with
  | VUndef, VUndef => true
  | VNull, VNull => true
  | VBool x, VBool y => Bool.eqb x y
  | VNum x, VNum y => x =? y
  | VStr x, VStr y => String.eqb x y
  | _, _ => false
  end.

Definition is_Some_b {A} (o : option A) : bool :=
  match o with Some _ => true | None => false end.

(** [v && typeof v === 'object' && 'type' in v]: the test by which the
    traversals recognise a child node. *)
Definition isNodeLike (v : value) : bool :=
  match v with
  | VObj _ fs => hasKey "type" fs
  | _ => false
  end.

(** The elements [for (const x of v)] iterates over; values that are
    not iterable throw. *)
Definition iterate (v : value) : option (list value) :=
  match v with
  | VArr items => Some items
  | VStr s =>
      Some (map (fun c => VStr (String c EmptyString)) (list_ascii_of_string s))
  | _ => None
  end.

(** [v.toLowerCase()]: only strings have the method. *)
Definition toLowerCase (v : value) : option string :=
  match v with
  | VStr s => Some (Str.toLowerCase s)
  | _ => None
  end.

(** [String(v)] as [Array.prototype.join] applies it to an element;
    integers print in decimal, objects through the default [toString]. *)
Fixpoint toString (v : value) : string :=
  match v with
  | VUndef => "undefined"
  | VNull => "null"
  | VBool true => "true"
  | VBool false => "false"
  | VNum n => NilZero.string_of_int (Z.to_int n)
  | VStr s => s
  | VArr items =>
      String.concat ","
        (map (fun x => match x with
                       | VUndef | VNull => EmptyString
                       | _ => toString x
                       end) items)
  | VObj _ _ => "[object Object]"
  end.

(** [items.join(sep)] *)
Definition join (sep : string) (items : list value) : string :=
  String.concat sep
    (map (fun x => match x with
                   | VUndef | VNull => EmptyString
                   | _ => toString x
                   end) items).

(** *** Comparison with zero

    [v > 0] converts [v] to a number.  A string is trimmed and read as
    a numeric literal: empty text is 0, a text that is no literal is
    NaN, and NaN compares false. *)
Definition isDigitOf (base : Z) (c : ascii) : bool :=
  let n := Z.of_nat (nat_of_ascii c) in
  if base =? 16 then
    ((48 <=? n) && (n <=? 57)) || ((65 <=? n) && (n <=? 70))
    || ((97 <=? n) && (n <=? 102))
  else (48 <=? n) && (n <? 48 + base).

Definition isZeroDigit (c : ascii) : bool := Ascii.eqb c "0".

Fixpoint trimStart (s : list ascii) : list ascii :=
  match s with
  | c :: tl => if Regex.isSpace c then trimStart tl else s
  | [] => []
  end.

Definition trim (s : list ascii) : list ascii :=
  rev (trimStart (rev (trimStart s))).

(** The leading decimal digits of a text, and the rest. *)
Fixpoint spanDigits (s : list ascii) : list ascii * list ascii :=
  match s with
  | c :: tl =>
      if isDigitOf 10 c
      then let '(ds, rest) := spanDigits tl in (c :: ds, rest)
      else ([], s)
  | [] => ([], [])
  end.

Definition decimalValue (ds : list ascii) : Z :=
  fold_left (fun acc c => acc * 10 + (Z.of_nat (nat_of_ascii c) - 48)) ds 0.

(** [ExponentPart], optional: the exponent, or [None] when the text is
    no exponent part. *)
Definition exponentPart (s : list ascii) : option Z :=
  match s with
  | [] => Some 0
  | c :: tl =>
      if Ascii.eqb c "e" || Ascii.eqb c "E" then
        let '(negative, digits) :=
          match tl with
          | "-"%char :: ds => (true, ds)
          | "+"%char :: ds => (false, ds)
          | _ => (false, tl)
          end in
        match digits with
        | [] => None
        | _ => if forallb (isDigitOf 10) digits
               then Some (if negative : bool then - decimalValue digits
                          else decimalValue digits)
               else None
        end
      else None
  end.

(** Is the value of an unsigned decimal literal above zero once it is
    rounded to a double?  The smallest double above zero is [2^-1074],
    and a value of at most [2^-1075] rounds to zero. *)
Definition decimalGtZero (s : list ascii) : bool :=
  if String.eqb (string_of_list_ascii s) "Infinity" then true
  else
    let '(int, afterInt) := spanDigits s in
    let '(frac, afterFrac) :=
      match afterInt with
      | "."%char :: tl => spanDigits tl
      | _ => ([], afterInt)
      end in
    match int ++ frac with
    | [] => false
    | digits =>
        match exponentPart afterFrac with
        | None => false
        | Some e =>
            let m := decimalValue digits in
            let k := e - Z.of_nat (length frac) in
            if 0 <=? k then 0 <? m else 10 ^ (- k) <? m * 2 ^ 1075
        end
    end.

(** [0x], [0o] and [0b] literals, which take no sign. *)
Definition nonDecimalGtZero (s : list ascii) : bool :=
  match s with
  | "0"%char :: p :: d :: ds =>
      let base :=
        if Ascii.eqb p "x" || Ascii.eqb p "X" then 16
        else if Ascii.eqb p "o" || Ascii.eqb p "O" then 8
        else if Ascii.eqb p "b" || Ascii.eqb p "B" then 2
        else 0 in
      forallb (isDigitOf base) (d :: ds)
      && negb (forallb isZeroDigit (d :: ds))
  | _ => false
  end.

(** [Number(s) > 0] *)
Definition stringGtZero (s : string) : bool :=
  match trim (list_ascii_of_string s) with
  | [] => false
  | "-"%char :: _ => false
  | "+"%char :: rest => decimalGtZero rest
  | text => nonDecimalGtZero text || decimalGtZero text
  end.

(** [v > 0]: numbers compare by value, [true] counts as 1, [null] as 0
    and [undefined] as NaN; a string is read as a number, an array
    through its text, and a plain object is NaN. *)
Definition gtZero (v : value) : bool :=
  match v with
  | VNum n => 0 <? n
  | VBool b => b
  | VStr s => stringGtZero s
  | VArr _ => stringGtZero (toString v)
  | VUndef | VNull | VObj _ _ => false
  end.

(** *** Statements

    A block of statements either throws, completes normally or returns
    a value. *)
Inductive stmt (R : Type) : Type :=
  | Throw
  | Normal
  | Return (r : R).
Arguments Throw {R}.
Arguments Normal {R}.
Arguments Return {R} r.

Definition ret {R} (r : R) : stmt R := Return r.
Definition skip {R} : stmt R := Normal.

(** [s1; s2] *)
Definition seq {R} (s1 s2 : stmt R) : stmt R :=
  match s1 with
  | Normal => s2
  | _ => s1
  end.

(** Evaluation of an expression, which may throw, inside a block. *)
Definition eval {A R} (e : option A) (k : A → stmt R) : stmt R :=
  match e with
  | None => Throw
  | Some a => k a
  end.

(** [if (c) s] *)
Definition when {R} (c : bool) (s : stmt R) : stmt R :=
  if c then s else skip.

(** [a && b] and [a || b] on conditions whose evaluation may throw. *)
Definition and_ (a b : option bool) : option bool :=
  match a with
  | Some true => b
  | Some false => Some false
  | None => None
  end.

Definition or_ (a b : option bool) : option bool :=
  match a with
  | Some true => Some true
  | Some false => b
  | None => None
  end.

(** [for (const x of items) body(x)] *)
Fixpoint forOf {A R} (items : list A) (body : A → stmt R) : stmt R :=
  match items with
  | [] => skip
  | x :: tl => seq (body x) (forOf tl body)
  end.

(** [try { body } catch { return fallback }] as a function body;
    [fallthrough] is the result when the block ends without [return]. *)
Definition tryCatch {R} (body : stmt R) (fallthrough fallback : R) : R :=
  match body with
  | Throw => fallback
  | Normal => fallthrough
  | Return r => r
  end.

End JS.

Notation "s1 ;;; s2" := (JS.seq s1 s2)
  (at level 100, s2 at level 200, right associativity).
Infix "&&&" := JS.and_ (at level 40, left associativity).
Infix "|||" := JS.or_ (at level 50, left associativity).
Notation "x ⇐ e ; k" := (JS.eval e (λ x, k))
  (at level 20, e at level 100, k at level 200, only parsing).

(** ** Host interface

    What the linter hands to a rule ([SourceCode]) and what a rule hands
    back (report descriptors).  A fix is the edit the [fix(fixer)] callback
    of the descriptor returns, [None] when the descriptor has no callback
    or the callback returns [null]. *)
Module Host.
Import JS.

Record Comment := { comment_range : Z * Z; comment_value : string }.

Record Token := { token_range : Z * Z; token_value : string }.

(** [getAllComments] is [None] when the host object has no such
    method. *)
Record SourceCode := {
  text : string;
  getAllComments : option (list Comment);
  tokens : list Token
}.

(** [{ range, text }] *)
Record Edit := { edit_range : Z * Z; edit_text : string }.

Record Diagnostic := {
  node : value;
  messageId : string;
  data : list (string * value);
  fix_ : option Edit
}.

(** [sourceCode.getFirstToken(node)]: the first token that starts inside
    the node's range, [Some None] ([null]) when there is none.  The
    method reads [node.range[0]]: on a node without a range it throws. *)
Definition getFirstToken (sc : SourceCode) (n : value) : option (option Token) :=
  match rangeOf n with
  | Some (Some (s, e)) =>
      Some (List.find (fun t => (s <=? (token_range t).1) && ((token_range t).1 <? e))
                      (tokens sc))
  | _ => None
  end.

(** [fixer.insertTextAfter(token, text)] *)
Definition insertTextAfter (t : Token) (txt : string) : Edit :=
  {| edit_range := ((token_range t).2, (token_range t).2); edit_text := txt |}.

(** The type tag by which the host selects the listeners of a node. *)
Definition nodeType (n : value) : string :=
  match n with
  | VObj _ fs => match lookup "type" fs with VStr s => s | _ => EmptyString end
  | _ => EmptyString
  end.

(** The host applies an edit by splicing the replacement into the
    source text. *)
Definition applyEdit (src : string) (e : Edit) : string :=
  Str.take (Z.to_nat (edit_range e).1) src
  +:+ edit_text e
  +:+ Str.drop (Z.to_nat (edit_range e).2) src.

End Host.

(** ** utils/ast-helpers.ts *)
Module AstHelpers.
Import JS Host.

(** *** isEffectivelyEmpty *)
Definition isEffectivelyEmpty_try (catchClause : value) : stmt bool :=
  (c ⇐ (body ← get catchClause "body"; Some (negb (truthy body)))
       ||| (body ← get catchClause "body";
            ty ← get body "type";
            Some (negb (isStr ty "BlockStatement")));
   when c (ret true)) ;;;
  (body ⇐ get catchClause "body";
   stmts ⇐ get body "body";
   len ⇐ get stmts "length";
   ret (isZero len)).

Definition isEffectivelyEmpty (catchClause : value) : bool :=
  tryCatch (isEffectivelyEmpty_try catchClause) false true.

(** *** hasIntentionalIgnoreComment *)
Definition ignorePatterns : list Regex.regex :=
  [ Regex.Seq (Regex.Lit "intentionally")
      (Regex.Seq (Regex.Plus Regex.Space)
         (Regex.Seq (Regex.Lit "ignore") (Regex.Opt (Regex.Chr "d"))));
    Regex.Seq (Regex.Lit "deliberately")
      (Regex.Seq (Regex.Plus Regex.Space)
         (Regex.Seq (Regex.Lit "ignore") (Regex.Opt (Regex.Chr "d"))));
    Regex.Seq (Regex.Lit "ignore")
      (Regex.Seq (Regex.Plus Regex.Space) (Regex.Lit "error"));
    Regex.Lit "no-op";
    Regex.Lit "noop" ].

(** [ignorePatterns.some((pattern) => pattern.test(comment.value))] *)
Definition matchesIgnorePattern (c : Comment) : bool :=
  existsb (fun pattern => Regex.test pattern (comment_value c)) ignorePatterns.

(** The callback of [allComments.filter]. *)
Definition inCatchRange (catchClause : value) (c : Comment) : option bool :=
  r ← rangeOf catchClause;
  match r with
  | None => Some false
  | Some (start, end_) =>
      Some (((comment_range c).1 >=? start) && ((comment_range c).2 <=? end_))
  end.

(** [items.filter(p)] for a callback that may throw. *)
Fixpoint filterM {A} (p : A → option bool) (items : list A) : option (list A) :=
  match items with
  | [] => Some []
  | x :: tl =>
      b ← p x;
      rest ← filterM p tl;
      Some (if b : bool then x :: rest else rest)
  end.

Definition hasIntentionalIgnoreComment_try
    (catchClause : value) (sourceCode : SourceCode) : stmt bool :=
  (c ⇐ (body ← get catchClause "body"; Some (negb (truthy body)))
       ||| (body ← get catchClause "body";
            ty ← get body "type";
            Some (negb (isStr ty "BlockStatement")));
   when c (ret false)) ;;;
  (let allComments := default [] (getAllComments sourceCode) in
   catchBlockComments ⇐ filterM (inCatchRange catchClause) allComments;
   ret (existsb matchesIgnorePattern catchBlockComments)).

Definition hasIntentionalIgnoreComment
    (catchClause : value) (sourceCode : SourceCode) : bool :=
  tryCatch (hasIntentionalIgnoreComment_try catchClause sourceCode) false false.

(** *** returnsJSX *)
Definition isJSXNode (n : value) : option bool :=
  ty ← get n "type";
  Some (isStr ty "JSXElement" || isStr ty "JSXFragment").

Definition returnsJSX_try (node : value) : stmt bool :=
  (c ⇐ (ty ← get node "type"; Some (isStr ty "ArrowFunctionExpression"))
       &&& (e ← get node "expression"; Some (truthy e))
       &&& (body ← get node "body";
            bty ← get body "type";
            Some (negb (isStr bty "BlockStatement")));
   when c (body ⇐ get node "body"; b ⇐ isJSXNode body; ret b)) ;;;
  (c ⇐ (body ← get node "body"; Some (truthy body))
       &&& (body ← get node "body";
            bty ← get body "type";
            Some (isStr bty "BlockStatement"));
   when c
     (body ⇐ get node "body";
      stmts ⇐ get body "body";
      items ⇐ iterate stmts;
      forOf items (fun statement =>
        c ⇐ (ty ← get statement "type"; Some (isStr ty "ReturnStatement"))
            &&& (arg ← get statement "argument"; Some (truthy arg));
        when c
          (arg ⇐ get statement "argument";
           j ⇐ isJSXNode arg;
           when j (ret true))))) ;;;
  ret false.

Definition returnsJSX (node : value) : bool :=
  tryCatch (returnsJSX_try node) false false.

(** *** isReactComponent *)
Definition isReactComponent_try (node : value) : stmt bool :=
  (ty ⇐ get node "type";
   when (isStr ty "FunctionDeclaration") (ret (returnsJSX node))) ;;;
  (c ⇐ (ty ← get node "type"; Some (isStr ty "VariableDeclarator"))
       &&& (init ← get node "init"; Some (truthy init));
   when c
     (init ⇐ get node "init";
      ity ⇐ get init "type";
      when (isStr ity "ArrowFunctionExpression" || isStr ity "FunctionExpression")
        (ret (returnsJSX init)))) ;;;
  (ty ⇐ get node "type";
   when (isStr ty "ClassDeclaration")
     (superClass ⇐ get node "superClass";
      when (truthy superClass)
        ((sty ⇐ get superClass "type";
          when (isStr sty "MemberExpression")
            (obj ⇐ get superClass "object";
             prop ⇐ get superClass "property";
             c ⇐ (oty ← get obj "type"; Some (isStr oty "Identifier"))
                 &&& (on ← get obj "name"; Some (isStr on "React"))
                 &&& (pty ← get prop "type"; Some (isStr pty "Identifier"))
                 &&& (pn ← get prop "name";
                      Some (isStr pn "Component" || isStr pn "PureComponent"));
             when c (ret true))) ;;;
         (sty ⇐ get superClass "type";
          when (isStr sty "Identifier")
            (name ⇐ get superClass "name";
             when (isStr name "Component" || isStr name "PureComponent")
               (ret true)))))) ;;;
  ret false.

Definition isReactComponent (node : value) : bool :=
  tryCatch (isReactComponent_try node) false false.

(** *** matchesServicePath

    [filename] is a string, on which neither [replace] nor [includes]
    throws; the [catch] of the source is unreachable. *)
Definition matchesServicePath (filename : string) : bool :=
  let normalizedPath := Str.replaceBackslashes filename in
  Str.includes "src/services/" normalizedPath.

End AstHelpers.

(** ** Import analysis, strategy selection and fix synthesis
    (utils/ast-helpers.ts, continued) *)
Module Imports.
Import JS Host.

Inductive ReactImportStyle : Type :=
  | NAMESPACE | DEFAULT_ONLY | NAMED_ONLY | MIXED | NONE.

Record ReactImportAnalysis := {
  style : ReactImportStyle;
  hasDefaultImport : bool;
  hasNamedImports : bool;
  hasMemoImport : bool;
  importNode : value            (* an ImportDeclaration, or [null] *)
}.

Definition noReactImport : ReactImportAnalysis :=
  {| style := NONE; hasDefaultImport := false; hasNamedImports := false;
     hasMemoImport := false; importNode := VNull |}.

(** The first statement of [statements] that is an import of module
    [source]: the [for ... break] loop shared by [analyzeReactImport]
    and [addTypeAnnotation]. *)
Fixpoint findImport (source : string) (statements : list value) : option value :=
  match statements with
  | [] => Some VNull
  | statement :: tl =>
      c ← (ty ← get statement "type"; Some (isStr ty "ImportDeclaration"))
          &&& (src ← get statement "source";
               v ← get src "value";
               Some (isStr v source));
      if c : bool then Some statement else findImport source tl
  end.

(** The flags set by the loop over [reactImport.specifiers]:
    default, named, namespace, memo. *)
Fixpoint scanSpecifiers (specifiers : list value)
    (acc : bool * bool * bool * bool) : option (bool * bool * bool * bool) :=
  match specifiers with
  | [] => Some acc
  | specifier :: tl =>
      let '(d, n, ns, m) := acc in
      ty ← get specifier "type";
      if isStr ty "ImportDefaultSpecifier" then scanSpecifiers tl (true, n, ns, m)
      else if isStr ty "ImportNamespaceSpecifier" then scanSpecifiers tl (d, n, true, m)
      else if isStr ty "ImportSpecifier" then
        isMemo ← (imported ← get specifier "imported";
                  (ity ← get imported "type"; Some (isStr ity "Identifier"))
                  &&& (nm ← get imported "name"; Some (isStr nm "memo")));
        scanSpecifiers tl (d, true, ns, if isMemo : bool then true else m)
      else scanSpecifiers tl acc
  end.

Definition analyzeReactImport_try (programNode : value)
    : stmt ReactImportAnalysis :=
  body ⇐ get programNode "body";
  statements ⇐ iterate body;
  reactImport ⇐ findImport "react" statements;
  when (negb (truthy reactImport)) (ret noReactImport) ;;;
  (specifiers ⇐ get reactImport "specifiers";
   items ⇐ iterate specifiers;
   flags ⇐ scanSpecifiers items (false, false, false, false);
   let '(hasDefault, hasNamed, hasNamespace, hasMemo) := flags in
   let style :=
     if hasNamespace : bool then NAMESPACE
     else if hasDefault && hasNamed then MIXED
     else if hasDefault : bool then DEFAULT_ONLY
     else if hasNamed : bool then NAMED_ONLY
     else NONE in
   ret {| style := style; hasDefaultImport := hasDefault;
          hasNamedImports := hasNamed; hasMemoImport := hasMemo;
          importNode := reactImport |}).

Definition analyzeReactImport (programNode : value) : ReactImportAnalysis :=
  tryCatch (analyzeReactImport_try programNode) noReactImport noReactImport.

Inductive ImportUpdateStrategy : Type :=
  | NO_UPDATE | ADD_TO_NAMED | ADD_NAMED_TO_DEFAULT | CREATE_NEW_IMPORT.

Record MemoStrategy := {
  memoReference : string;
  needsMemoImport : bool;
  importUpdateStrategy : ImportUpdateStrategy
}.

(** *** selectMemoStrategy

    The analysis is a record, whose fields can be read without failure,
    so the [catch] of the source is unreachable. *)
Definition selectMemoStrategy (analysis : ReactImportAnalysis) : MemoStrategy :=
  if hasMemoImport analysis then
    {| memoReference := "memo"; needsMemoImport := false;
       importUpdateStrategy := NO_UPDATE |}
  else match style analysis with
  | NAMESPACE =>
    {| memoReference := "React.memo"; needsMemoImport := false;
       importUpdateStrategy := NO_UPDATE |}
  | DEFAULT_ONLY =>
    {| memoReference := "React.memo"; needsMemoImport := false;
       importUpdateStrategy := NO_UPDATE |}
  | NAMED_ONLY =>
    {| memoReference := "memo"; needsMemoImport := true;
       importUpdateStrategy := ADD_TO_NAMED |}
  | MIXED =>
    {| memoReference := "memo"; needsMemoImport := true;
       importUpdateStrategy := ADD_TO_NAMED |}
  | NONE =>
    {| memoReference := "memo"; needsMemoImport := true;
       importUpdateStrategy := CREATE_NEW_IMPORT |}
  end.

Record ImportUpdateResult := {
  fixes : list Edit;
  updatedImports : list string
}.

Definition noUpdate : ImportUpdateResult :=
  {| fixes := []; updatedImports := [] |}.

(** [arr.filter(p)]: only arrays have the method. *)
Definition arrayFilter (arr : value) (p : value → option bool)
    : option (list value) :=
  match arr with
  | VArr items => AstHelpers.filterM p items
  | _ => None
  end.

Definition isImportSpecifier (spec : value) : option bool :=
  ty ← get spec "type"; Some (isStr ty "ImportSpecifier").

Definition isImportDefaultSpecifier (spec : value) : option bool :=
  ty ← get spec "type"; Some (isStr ty "ImportDefaultSpecifier").

(** [arr.find(p)] on the elements of an array. *)
Fixpoint findM (p : value → option bool) (items : list value) : option value :=
  match items with
  | [] => Some VUndef
  | x :: tl => b ← p x; if b : bool then Some x else findM p tl
  end.

Definition insertAt (pos : Z) (txt : string) : Edit :=
  {| edit_range := (pos, pos); edit_text := txt |}.

(** *** updateImports

    The four [if] blocks test the same strategy value against four
    different constants, so exactly one of them runs. *)
Definition updateImports_try (strategy : MemoStrategy)
    (importNode programNode : value) : stmt ImportUpdateResult :=
  match importUpdateStrategy strategy with
  | NO_UPDATE => ret noUpdate
  | ADD_TO_NAMED =>
      c ⇐ Some (negb (truthy importNode))
          ||| (r ← rangeOf importNode; Some (negb (is_Some_b r)));
      when c (ret noUpdate) ;;;
      (specifiers ⇐ get importNode "specifiers";
       namedSpecifiers ⇐ arrayFilter specifiers isImportSpecifier;
       when (length namedSpecifiers =? 0)%nat (ret noUpdate) ;;;
       (let lastNamedSpecifier := List.last namedSpecifiers VUndef in
        r ⇐ rangeOf lastNamedSpecifier;
        match r with
        | None => ret noUpdate
        | Some (_, insertPosition) =>
            ret {| fixes := [insertAt insertPosition ", memo"];
                   updatedImports := ["memo"] |}
        end))
  | ADD_NAMED_TO_DEFAULT =>
      c ⇐ Some (negb (truthy importNode))
          ||| (r ← rangeOf importNode; Some (negb (is_Some_b r)));
      when c (ret noUpdate) ;;;
      (specifiers ⇐ get importNode "specifiers";
       items ⇐ match specifiers with VArr items => Some items | _ => None end;
       defaultSpecifier ⇐ findM isImportDefaultSpecifier items;
       c ⇐ Some (negb (truthy defaultSpecifier))
           ||| (r ← rangeOf defaultSpecifier; Some (negb (is_Some_b r)));
       when c (ret noUpdate) ;;;
       (r ⇐ rangeOf defaultSpecifier;
        match r with
        | None => ret noUpdate
        | Some (_, insertPosition) =>
            ret {| fixes := [insertAt insertPosition ", { memo }"];
                   updatedImports := ["memo"] |}
        end))
  | CREATE_NEW_IMPORT =>
      r ⇐ rangeOf programNode;
      let insertPosition := match r with Some (start, _) => start | None => 0 end in
      ret {| fixes := [insertAt insertPosition
                         ("import { memo } from 'react';" +:+ String "010" "")];
             updatedImports := ["memo"] |}
  end.

Definition updateImports (strategy : MemoStrategy)
    (importNode programNode : value) : ImportUpdateResult :=
  tryCatch (updateImports_try strategy importNode programNode) noUpdate noUpdate.

End Imports.

(** ** addTypeAnnotation (utils/ast-helpers.ts, continued) *)
Module TypeAnnotation.
Import JS Host.

Record TypeAnnotationStrategy := {
  propsType : string;
  needsTypeImport : bool;
  typeImportSource : option string;
  needsComponentImport : bool
}.

Inductive IconEnvironment : Type := REACT_WEB | REACT_NATIVE.

(** *** getTypeAnnotationStrategy

    Both branches for the web environment return the same record. *)
Definition getTypeAnnotationStrategy (environment : IconEnvironment)
    (importStyle : Imports.ReactImportStyle) : TypeAnnotationStrategy :=
  match environment with
  | REACT_NATIVE =>
      {| propsType := "SvgProps"; needsTypeImport := true;
         typeImportSource := Some "react-native-svg";
         needsComponentImport := true |}
  | REACT_WEB =>
      {| propsType := "React.SVGProps<SVGSVGElement>"; needsTypeImport := false;
         typeImportSource := None; needsComponentImport := false |}
  end.

Record AddTypeAnnotationResult := {
  fixes : list Edit;
  success : bool
}.

Definition noFix : AddTypeAnnotationResult :=
  {| fixes := []; success := false |}.

(** The blocks of [addTypeAnnotation] share the local array [fixes]:
    a block throws, returns from the function, or hands the array on. *)
Inductive step : Type :=
  | Threw
  | Returned (r : AddTypeAnnotationResult)
  | Continue (fixes : list Edit).

Definition evalS {A} (e : option A) (k : A → step) : step :=
  match e with
  | None => Threw
  | Some a => k a
  end.

Definition andThen (s : step) (k : list Edit → step) : step :=
  match s with
  | Continue fixes => k fixes
  | _ => s
  end.

(** The body of [if (fn.params.length > 0)], the same for a function
    declaration and for an arrow function. *)
Definition annotateFirstParam (fn : value) (strategy : TypeAnnotationStrategy)
    (fixes : list Edit) : step :=
  evalS (get fn "params") (fun params =>
  evalS (first params) (fun firstParam =>
  evalS ((ty ← get firstParam "type"; Some (isStr ty "Identifier"))
         &&& (ta ← get firstParam "typeAnnotation"; Some (truthy ta)))
    (fun annotated =>
  if annotated : bool then Returned noFix
  else
    evalS (ty ← get firstParam "type";
           r ← rangeOf firstParam;
           Some (if isStr ty "Identifier" then r else None))
      (fun r =>
    match r with
    | Some (_, insertPosition) =>
        Continue (fixes ++ [Imports.insertAt insertPosition
                              (": " +:+ propsType strategy)])
    | None => Continue fixes
    end)))).

(** [if (componentNode.type === FunctionDeclaration) { ... }] *)
Definition annotateFunctionDeclaration (componentNode : value)
    (strategy : TypeAnnotationStrategy) (fixes : list Edit) : step :=
  evalS (get componentNode "type") (fun ty =>
  if isStr ty "FunctionDeclaration" then
    let func := componentNode in
    evalS (params ← get func "params"; get params "length") (fun len =>
    if gtZero len then annotateFirstParam func strategy fixes
    else
      evalS ((id ← get func "id"; Some (truthy id))
             &&& (id ← get func "id"; r ← rangeOf id; Some (is_Some_b r))
             &&& (body ← get func "body"; r ← rangeOf body; Some (is_Some_b r)))
        (fun c =>
      if c : bool then
        evalS (id ← get func "id"; rangeOf id) (fun r =>
        match r with
        | Some (_, openParenPosition) =>
            Continue (fixes ++ [Imports.insertAt (openParenPosition + 1)
                                  ("props: " +:+ propsType strategy)])
        | None => Continue fixes
        end)
      else Continue fixes))
  else Continue fixes).

(** [if (componentNode.type === VariableDeclarator) { ... }] *)
Definition annotateVariableDeclarator (componentNode : value)
    (strategy : TypeAnnotationStrategy) (fixes : list Edit) : step :=
  evalS (get componentNode "type") (fun ty =>
  if isStr ty "VariableDeclarator" then
    evalS (get componentNode "init") (fun init =>
    evalS (Some (truthy init)
           &&& (ity ← get init "type"; Some (isStr ity "ArrowFunctionExpression")))
      (fun c =>
    if c : bool then
      let arrowFunc := init in
      evalS (params ← get arrowFunc "params"; get params "length") (fun len =>
      if gtZero len then annotateFirstParam arrowFunc strategy fixes
      else Continue fixes)
    else Continue fixes))
  else Continue fixes).

(** The imported names of an import declaration:
    [specifiers.filter(...).map(...).filter((name) => name !== null)]. *)
Definition importedName (spec : value) : option value :=
  imported ← get spec "imported";
  ity ← get imported "type";
  if isStr ity "Identifier" then get imported "name" else Some VNull.

Definition isNotNull (v : value) : bool :=
  match v with
  | VNull => false
  | _ => true
  end.

(** [names.includes(s)] *)
Definition includesName (names : list value) (s : string) : bool :=
  existsb (fun n => isStr n s) names.

(** [if (strategy.needsTypeImport && strategy.typeImportSource) { ... }] *)
Definition importPropsType (strategy : TypeAnnotationStrategy)
    (programNode : value) (fixes : list Edit) : step :=
  match typeImportSource strategy with
  | Some source =>
    if needsTypeImport strategy && negb (String.eqb source "") then
      evalS (body ← get programNode "body";
             statements ← iterate body;
             Imports.findImport source statements) (fun reactNativeSvgImport =>
      if truthy reactNativeSvgImport then
        evalS (specifiers ← get reactNativeSvgImport "specifiers";
               named ← Imports.arrayFilter specifiers Imports.isImportSpecifier;
               names ← mapM importedName named;
               Some (named, List.filter isNotNull names))
          (fun '(namedSpecifiers, importedNames) =>
        let needsSvgProps := negb (includesName importedNames "SvgProps") in
        let needsSvg :=
          needsComponentImport strategy && negb (includesName importedNames "Svg") in
        if needsSvgProps || needsSvg then
          if (0 <? length namedSpecifiers)%nat then
            let lastSpecifier := List.last namedSpecifiers VUndef in
            evalS (rangeOf lastSpecifier) (fun r =>
            match r with
            | Some (_, e) =>
                let toAdd :=
                  (if needsSvgProps then ["SvgProps"] else [])
                  ++ (if needsSvg then ["Svg"] else []) in
                Continue (fixes ++ [Imports.insertAt e
                                      (", " +:+ String.concat ", " toAdd)])
            | None => Continue fixes
            end)
          else Continue fixes
        else Continue fixes)
      else
        let toImport :=
          "SvgProps" :: (if needsComponentImport strategy then ["Svg"] else []) in
        evalS (rangeOf programNode) (fun r =>
        let insertPosition := match r with Some (start, _) => start | None => 0 end in
        Continue (fixes ++ [Imports.insertAt insertPosition
                              ("import { " +:+ String.concat ", " toImport
                               +:+ " } from '" +:+ source +:+ "';"
                               +:+ String "010" "")])))
    else Continue fixes
  | None => Continue fixes
  end.

Definition addTypeAnnotation_try (componentNode : value)
    (strategy : TypeAnnotationStrategy) (programNode : value) : step :=
  andThen (annotateFunctionDeclaration componentNode strategy []) (fun fixes =>
  andThen (annotateVariableDeclarator componentNode strategy fixes) (fun fixes =>
  andThen (importPropsType strategy programNode fixes) (fun fixes =>
  Returned {| fixes := fixes; success := (0 <? length fixes)%nat |}))).

Definition addTypeAnnotation (componentNode : value)
    (strategy : TypeAnnotationStrategy) (programNode : value)
    : AddTypeAnnotationResult :=
  match addTypeAnnotation_try componentNode strategy programNode with
  | Returned r => r
  | Threw | Continue _ => noFix
  end.

End TypeAnnotation.

(** ** Type guards and validators (utils/ast-helpers.ts, continued)

    These functions have no [try]: the result is [None] when the
    function throws. *)
Module AstGuards.
Import JS.

(** [a?.k] *)
Definition optGet (v : value) (k : string) : option value :=
  match v with
  | VUndef | VNull => Some VUndef
  | _ => get v k
  end.

Definition isJSXElement (node : value) : option bool :=
  ty ← get node "type"; Some (isStr ty "JSXElement").

Definition isValidJSXAttribute (node : value) : option bool :=
  (ty ← get node "type"; Some (isStr ty "JSXAttribute"))
  &&& (name ← get node "name";
       nty ← get name "type";
       Some (isStr nty "JSXIdentifier"))
  &&& (v ← get node "value"; Some (TypeAnnotation.isNotNull v)).

Definition validateJSXElement (node : value) : option bool :=
  b ← isJSXElement node;
  if negb b then Some false
  else
    openingElement ← get node "openingElement";
    name ← optGet openingElement "name";
    if negb (truthy name) then Some false else Some true.

Definition validateJSXAttribute (node : value) : option bool :=
  ty ← get node "type";
  if negb (isStr ty "JSXAttribute") then Some false
  else
    name ← get node "name";
    nty ← optGet name "type";
    if negb (isStr nty "JSXIdentifier") then Some false else Some true.

Definition getJSXElementName (node : value) : option value :=
  openingElement ← get node "openingElement";
  name ← get openingElement "name";
  nty ← get name "type";
  if isStr nty "JSXIdentifier" then get name "name" else Some VNull.

(** *** isFormHook *)
Definition isFormHook_try (node : value) : stmt bool :=
  callee ⇐ get node "callee";
  (cty ⇐ get callee "type";
   when (isStr cty "Identifier")
     (nm ⇐ get callee "name";
      ret (isStr nm "useForm" || isStr nm "useFormik"))) ;;;
  (cty ⇐ get callee "type";
   when (isStr cty "MemberExpression")
     (prop ⇐ get callee "property";
      pty ⇐ get prop "type";
      when (isStr pty "Identifier")
        (pn ⇐ get prop "name";
         ret (isStr pn "useForm" || isStr pn "useFormik")))) ;;;
  ret false.

Definition isFormHook (node : value) : bool :=
  tryCatch (isFormHook_try node) false false.

End AstGuards.

(** ** rules/error-handling/no-empty-catch.ts *)
Module NoEmptyCatch.
Import JS Host AstHelpers.

(** [key === 'parent' || key === 'range' || key === 'loc'] *)
Definition skippedKey (key : string) : bool :=
  String.eqb key "parent" || String.eqb key "range" || String.eqb key "loc".

(** The inner function [traverse] of [checkIfParamUsed].  The flag
    [isUsed] is the result: once it is set every later call returns at
    once, which is the short-circuit of [||] and [existsb].  The
    properties of an array are its elements. *)
Fixpoint traverse (paramName : value) (node : value) : bool :=
  let visit (value : value) : bool :=
    match value with
    | VArr items =>
        existsb (fun item => isNodeLike item && traverse paramName item) items
    | VObj _ _ => isNodeLike value && traverse paramName value
    | _ => false
    end in
  match node with
  | VObj _ fs =>
      (isStr (lookup "type" fs) "Identifier"
       && strictEq (lookup "name" fs) paramName)
      || existsb (fun kv => negb (skippedKey kv.1) && visit kv.2) fs
  | VArr items => existsb visit items
  | _ => false
  end.

Definition checkIfParamUsed (block : value) (paramName : value) : bool :=
  traverse paramName block.

Definition emptyCatchFixText : string := " // intentionally ignored".

(** The [fix(fixer)] callback of the [emptyCatch] report: an edit, or
    [null] when there is no token; [None] when [getFirstToken]
    throws. *)
Definition emptyCatchFix (sourceCode : SourceCode) (node : value)
    : option (option Edit) :=
  catchKeyword ← getFirstToken sourceCode node;
  Some match catchKeyword with
       | Some catchKeyword => Some (insertTextAfter catchKeyword emptyCatchFixText)
       | None => None
       end.

(** [if (isEmpty) { if (!isIntentionallyIgnored) context.report(...) }].
    [context.report] calls the [fix] callback before it records the
    report: when the callback throws, so does the block, and nothing is
    reported. *)
Definition reportEmptyCatch (sourceCode : SourceCode) (node : value)
    (isEmpty isIntentionallyIgnored : bool) : option (list Diagnostic) :=
  if isEmpty then
    if negb isIntentionallyIgnored then
      edit ← emptyCatchFix sourceCode node;
      Some [ {| node := node; messageId := "emptyCatch"; data := [];
                fix_ := edit |} ]
    else Some []
  else Some [].

(** [if (!isEmpty && !isIntentionallyIgnored && node.param) { ... }];
    [None] when the block throws. *)
Definition reportUnusedParam_try (node : value)
    (isEmpty isIntentionallyIgnored : bool) : option (list Diagnostic) :=
  c ← Some (negb isEmpty) &&& Some (negb isIntentionallyIgnored)
      &&& (p ← get node "param"; Some (truthy p));
  if c : bool then
    param ← get node "param";
    pty ← get param "type";
    if isStr pty "Identifier" then
      paramName ← get param "name";
      body ← get node "body";
      let isParamUsed := checkIfParamUsed body paramName in
      if negb isParamUsed then
        Some [ {| node := param; messageId := "unusedParam";
                  data := [("paramName", paramName)]; fix_ := None |} ]
      else Some []
    else Some []
  else Some [].

(** The [CatchClause] listener.  When the first block throws, the
    second is not reached; reports made before an exception stay; the
    [catch] block only logs. *)
Definition CatchClause (sourceCode : SourceCode) (node : value) : list Diagnostic :=
  let isEmpty := isEffectivelyEmpty node in
  let isIntentionallyIgnored := hasIntentionalIgnoreComment node sourceCode in
  match reportEmptyCatch sourceCode node isEmpty isIntentionallyIgnored with
  | Some reported =>
      reported
      ++ default [] (reportUnusedParam_try node isEmpty isIntentionallyIgnored)
  | None => []
  end.

End NoEmptyCatch.

(** ** rules/services/no-response-data-return.ts *)
Module NoResponseDataReturn.
Import JS Host AstHelpers.

(** [while (current.type === MemberExpression) current = current.object;]
    The inner loop [next] reads [current.object]; when the property is
    absent, [current] becomes [undefined] and the next test of the loop
    throws. *)
Fixpoint unwind (current : value) : option value :=
  match current with
  | VUndef | VNull => None
  | VObj _ fs =>
      if isStr (lookup "type" fs) "MemberExpression" then
        (fix next (l : list (string * value)) : option value :=
           match l with
           | [] => None
           | (k, v) :: tl => if String.eqb "object" k then unwind v else next tl
           end) fs
      else Some current
  | _ => Some current
  end.

Definition isResponseName (name : string) : bool :=
  Str.includes "response" name
  || Str.includes "res" name
  || String.eqb name "r"
  || Str.includes "result" name.

Definition isResponseDataAccess_try (node : value) : stmt bool :=
  (c ⇐ (prop ← get node "property";
        pty ← get prop "type";
        Some (negb (isStr pty "Identifier")))
       ||| (prop ← get node "property";
            pn ← get prop "name";
            Some (negb (isStr pn "data")));
   when c (ret false)) ;;;
  (obj ⇐ get node "object";
   current ⇐ unwind obj;
   cty ⇐ get current "type";
   when (isStr cty "Identifier")
     (nm ⇐ get current "name";
      name ⇐ toLowerCase nm;
      ret (isResponseName name))) ;;;
  ret false.

Definition isResponseDataAccess (node : value) : bool :=
  tryCatch (isResponseDataAccess_try node) false false.

Definition isDirectResponseDataReturn_try (returnNode : value) : stmt bool :=
  (arg ⇐ get returnNode "argument";
   when (negb (truthy arg)) (ret false)) ;;;
  (arg ⇐ get returnNode "argument";
   aty ⇐ get arg "type";
   when (isStr aty "MemberExpression") (ret (isResponseDataAccess arg))) ;;;
  (arg ⇐ get returnNode "argument";
   aty ⇐ get arg "type";
   when (isStr aty "ChainExpression")
     (expr ⇐ get arg "expression";
      ety ⇐ get expr "type";
      when (isStr ety "MemberExpression") (ret (isResponseDataAccess expr)))) ;;;
  ret false.

Definition isDirectResponseDataReturn (returnNode : value) : bool :=
  tryCatch (isDirectResponseDataReturn_try returnNode) false false.

(** The [ReturnStatement] listener. *)
Definition ReturnStatement (node : value) : list Diagnostic :=
  if isDirectResponseDataReturn node then
    [ {| node := node; messageId := "directResponseDataReturn";
         data := []; fix_ := None |} ]
  else [].

(** [create(context)]: the listeners of the rule by node type; none
    outside the service layer. *)
Definition create (filename : string) : list (string * (value → list Diagnostic)) :=
  let isServiceFile := matchesServicePath filename in
  if negb isServiceFile then []
  else [("ReturnStatement", ReturnStatement)].

(** The host calls, for every node of the file in traversal order, the
    listeners registered for the node's type. *)
Definition dispatch (listeners : list (string * (value → list Diagnostic)))
    (n : value) : list Diagnostic :=
  flat_map (fun l => if String.eqb l.1 (nodeType n) then l.2 n else []) listeners.

Definition lint (filename : string) (nodes : list value) : list Diagnostic :=
  flat_map (dispatch (create filename)) nodes.

End NoResponseDataReturn.

(** ** rules/component/one-component-per-file.ts *)
Module OneComponentPerFile.
Import JS Host AstHelpers.

Record ComponentInfo := {
  name : value;
  cnode : value;
  isCompoundChild : bool
}.

(** The two locals of [create]: the array [components] and the set
    [compoundChildren]. *)
Record State := {
  components : list ComponentInfo;
  compoundChildren : list value
}.

Definition initial : State := {| components := []; compoundChildren := [] |}.

(** [compoundChildren.has(x)] *)
Definition has (s : list value) (x : value) : bool :=
  existsb (strictEq x) s.

(** [compoundChildren.add(x)] *)
Definition add (s : list value) (x : value) : list value :=
  if has s x then s else s ++ [x].

Definition push (st : State) (nm n : value) : State :=
  {| components := components st
                   ++ [{| name := nm; cnode := n; isCompoundChild := false |}];
     compoundChildren := compoundChildren st |}.

Definition AssignmentExpression_try (n : value) (st : State) : option State :=
  c ← (left ← get n "left"; lty ← get left "type";
       Some (isStr lty "MemberExpression"))
      &&& (left ← get n "left"; obj ← get left "object"; oty ← get obj "type";
           Some (isStr oty "Identifier"))
      &&& (left ← get n "left"; prop ← get left "property"; pty ← get prop "type";
           Some (isStr pty "Identifier"));
  if c : bool then
    right ← get n "right";
    rty ← get right "type";
    if isStr rty "Identifier" then
      rname ← get right "name";
      Some {| components := components st;
              compoundChildren := add (compoundChildren st) rname |}
    else Some st
  else Some st.

Definition AssignmentExpression (n : value) (st : State) : State :=
  default st (AssignmentExpression_try n st).

(** [node.id?.name || 'anonymous'] *)
Definition idNameOrAnonymous (n : value) : option value :=
  id ← get n "id";
  nm ← match id with
       | VUndef | VNull => Some VUndef
       | _ => get id "name"
       end;
  Some (if truthy nm then nm else VStr "anonymous").

Definition FunctionDeclaration_try (n : value) (st : State) : option State :=
  if isReactComponent n then
    nm ← idNameOrAnonymous n;
    Some (push st nm n)
  else Some st.

Definition FunctionDeclaration (n : value) (st : State) : State :=
  default st (FunctionDeclaration_try n st).

Definition VariableDeclarator_try (n : value) (st : State) : option State :=
  if isReactComponent n then
    id ← get n "id";
    ity ← get id "type";
    nm ← (if isStr ity "Identifier" then get id "name" else Some (VStr "anonymous"));
    Some (push st nm n)
  else Some st.

Definition VariableDeclarator (n : value) (st : State) : State :=
  default st (VariableDeclarator_try n st).

Definition ClassDeclaration_try (n : value) (st : State) : option State :=
  if isReactComponent n then
    nm ← idNameOrAnonymous n;
    Some (push st nm n)
  else Some st.

Definition ClassDeclaration (n : value) (st : State) : State :=
  default st (ClassDeclaration_try n st).

(** [components.forEach(...)]: mark the compound children. *)
Definition mark (children : list value) (c : ComponentInfo) : ComponentInfo :=
  if has children (name c)
  then {| name := name c; cnode := cnode c; isCompoundChild := true |}
  else c.

(** ['Program:exit'].  Nothing in the block throws: the element
    [nonCompoundComponents[1]] is read only when the length exceeds 1. *)
Definition ProgramExit (st : State) : list Diagnostic :=
  let marked := map (mark (compoundChildren st)) (components st) in
  let nonCompoundComponents :=
    List.filter (fun c => negb (isCompoundChild c)) marked in
  if (1 <? length nonCompoundComponents)%nat then
    let componentNames := join ", " (map name nonCompoundComponents) in
    match nth_error nonCompoundComponents 1 with
    | Some second =>
        [ {| node := cnode second; messageId := "multipleComponents";
             data := [("count", VNum (Z.of_nat (length nonCompoundComponents)));
                      ("componentNames", VStr componentNames)];
             fix_ := None |} ]
    | None => []
    end
  else [].

(** The host calls the listener registered for the type of each node of
    the file, in traversal order, and ['Program:exit'] last. *)
Definition visit (st : State) (n : value) : State :=
  let ty := nodeType n in
  if String.eqb ty "AssignmentExpression" then AssignmentExpression n st
  else if String.eqb ty "FunctionDeclaration" then FunctionDeclaration n st
  else if String.eqb ty "VariableDeclarator" then VariableDeclarator n st
  else if String.eqb ty "ClassDeclaration" then ClassDeclaration n st
  else st.

Definition lint (nodes : list value) : list Diagnostic :=
  ProgramExit (fold_left visit nodes initial).

End OneComponentPerFile.

(** ** traverseNode (utils/ast-helpers.ts)

    The walker depends on the identity of nodes: a node may be shared or
    lie on a cycle.  Objects therefore live in a heap and refer to each
    other by address.  Arrays are not nodes (they have no [type]), so they
    are kept inline.  The visitor is a function on the caller's state
    that returns or throws; it does not change the graph.  The recursion
    of the source ends because the graph is finite; the model counts it
    down with [fuel], and the fuel of [traverseNode] is shown to
    suffice. *)
Module Walker.
Local Open Scope nat_scope.

Abbreviation addr := nat.

Inductive hvalue : Type :=
  | HPrim                          (* a primitive, [null] or [undefined] *)
  | HRef (a : addr)                (* an object that is not an array *)
  | HArr (items : list hvalue).    (* an array *)

(** The properties of an object, in the order of [Object.keys]. *)
Abbreviation object := (list (string * hvalue)).

Abbreviation heap := (gmap addr object).

Definition fieldsOf (h : heap) (a : addr) : object := default [] (h !! a).

(** ['type' in obj] *)
Definition hasType (h : heap) (a : addr) : bool :=
  existsb (fun kv => String.eqb kv.1 "type") (fieldsOf h a).

(** The nodes the loop body calls [traverse] on for one array item. *)
Definition itemTargets (h : heap) (item : hvalue) : list addr :=
  match item with
  | HRef b => if hasType h b then [b] else []
  | _ => []
  end.

(** The nodes the loop body calls [traverse] on for one property
    value. *)
Definition childTargets (h : heap) (child : hvalue) : list addr :=
  match child with
  | HPrim => []
  | HArr items => flat_map (itemTargets h) items
  | HRef b => if hasType h b then [b] else []
  end.

(** The calls of [traverse] made by the loop over the keys of a node,
    in order. *)
Definition children (h : heap) (currentNode : addr) : list addr :=
  flat_map (fun kv => if String.eqb kv.1 "parent" then []
                      else childTargets h kv.2)
           (fieldsOf h currentNode).

(** A call of the visitor returns or throws; either way it leaves the
    caller's state changed. *)
Inductive outcome (St : Type) : Type :=
  | Returns (s : St)
  | Throws (s : St).
Arguments Returns {St} s.
Arguments Throws {St} s.

(** A run of [traverse] finishes with the set [visited] it has built,
    is aborted by an exception of the visitor, which [traverse] does not
    catch, or runs out of fuel. *)
Inductive run (St : Type) : Type :=
  | Finished (visited : gset addr) (s : St)
  | Aborted (s : St)
  | Exhausted.
Arguments Finished {St} visited s.
Arguments Aborted {St} s.
Arguments Exhausted {St}.

Section Traverse.
Context {St : Type}.
Variable visitor : addr → St → outcome St.
Variable h : heap.

(** The calls of [traverse] on the children, one after the other. *)
Fixpoint forEach (f : addr → gset addr → St → run St)
    (l : list addr) (visited : gset addr) (s : St) : run St :=
  match l with
  | [] => Finished visited s
  | x :: tl =>
      match f x visited s with
      | Finished visited' s' => forEach f tl visited' s'
      | r => r
      end
  end.

(** The inner function [traverse]: the node is added to [visited], then
    the visitor is called, then the children are traversed. *)
Fixpoint traverse (fuel : nat) (currentNode : addr)
    (visited : gset addr) (s : St) : run St :=
  match fuel with
  | O => Exhausted
  | S fuel' =>
      if decide (currentNode ∈ visited) then Finished visited s
      else
        match visitor currentNode s with
        | Throws s' => Aborted s'
        | Returns s' =>
            forEach (traverse fuel') (children h currentNode)
                    ({[currentNode]} ∪ visited) s'
        end
  end.

(** [traverseNode(node, visitor)]: a fresh [visited] set per call. *)
Definition traverseNode (node : addr) (s : St) : option (outcome St) :=
  match traverse (S (S (size h))) node ∅ s with
  | Finished _ s' => Some (Returns s')
  | Aborted s' => Some (Throws s')
  | Exhausted => None
  end.

End Traverse.

(** A graph with sharing and a cycle.  Node 0 holds node 1 twice (as
    [left] and inside [items]) and node 2; node 1 points back to node 0
    through [back] and through [parent]; node 2 has a [loc] object
    without [type] (object 3); node 4 is only the [parent] of node 0. *)
Definition sharedGraph : heap :=
  list_to_map
    [ (0, [("type", HPrim); ("parent", HRef 4); ("left", HRef 1);
           ("items", HArr [HRef 2; HPrim; HRef 1; HArr [HRef 4]])]);
      (1, [("type", HPrim); ("parent", HRef 0); ("back", HRef 0)]);
      (2, [("type", HPrim); ("parent", HRef 0); ("loc", HRef 3)]);
      (3, [("start", HPrim); ("inner", HRef 4)]);
      (4, [("type", HPrim); ("body", HArr [HRef 0])]) ].

End Walker.

(** ** Syntax trees of the examples *)
Module Ast.
Import JS Host.

Definition Node (ty : string) (range : option (Z * Z))
    (fs : list (string * value)) : value :=
  VObj range (("type", VStr ty) :: fs).

Definition Identifier (name : string) : value :=
  Node "Identifier" None [("name", VStr name)].

Definition Literal (v : value) (raw : string) : value :=
  Node "Literal" None [("value", v); ("raw", VStr raw)].

Definition MemberExpression (object property : value) : value :=
  Node "MemberExpression" None
    [("object", object); ("property", property);
     ("computed", VBool false); ("optional", VBool false)].

Definition CallExpression (callee : value) (arguments : list value) : value :=
  Node "CallExpression" None
    [("callee", callee); ("arguments", VArr arguments); ("optional", VBool false)].

Definition ExpressionStatement (expression : value) : value :=
  Node "ExpressionStatement" None [("expression", expression)].

Definition BlockStatement (range : option (Z * Z)) (body : list value) : value :=
  Node "BlockStatement" range [("body", VArr body)].

Definition CatchClause (range : option (Z * Z)) (param body : value) : value :=
  Node "CatchClause" range [("param", param); ("body", body)].

Definition ReturnStatement (argument : value) : value :=
  Node "ReturnStatement" None [("argument", argument)].

Definition ChainExpression (expression : value) : value :=
  Node "ChainExpression" None [("expression", expression)].

Definition JSXElement : value :=
  Node "JSXElement" None
    [("openingElement",
      Node "JSXOpeningElement" None
        [("name", Node "JSXIdentifier" None [("name", VStr "div")]);
         ("attributes", VArr []); ("selfClosing", VBool true)]);
     ("closingElement", VNull); ("children", VArr [])].

(** [function name() { return <div />; }] *)
Definition FunctionDeclaration (name : string) (params : list value)
    (body : list value) : value :=
  Node "FunctionDeclaration" None
    [("id", Identifier name); ("params", VArr params);
     ("body", BlockStatement None body)].

Definition Component (name : string) : value :=
  FunctionDeclaration name [] [ReturnStatement JSXElement].

Definition AssignmentExpression (left right : value) : value :=
  Node "AssignmentExpression" None
    [("operator", VStr "="); ("left", left); ("right", right)].

Definition Program (range : option (Z * Z)) (body : list value) : value :=
  Node "Program" range [("body", VArr body); ("sourceType", VStr "module")].

Definition ImportDeclaration (range : option (Z * Z)) (source : string)
    (specifiers : list value) : value :=
  Node "ImportDeclaration" range
    [("specifiers", VArr specifiers);
     ("source", Node "Literal" None [("value", VStr source)])].

Definition ImportDefaultSpecifier (range : option (Z * Z)) (local : string) : value :=
  Node "ImportDefaultSpecifier" range [("local", Identifier local)].

Definition ImportSpecifier (range : option (Z * Z)) (imported : string) : value :=
  Node "ImportSpecifier" range
    [("imported", Identifier imported); ("local", Identifier imported)].

(** [import React from 'react';] *)
Definition defaultImportProgram : value :=
  Program (Some (0, 26))
    [ImportDeclaration (Some (0, 26)) "react"
       [ImportDefaultSpecifier (Some (7, 12)) "React"]].

(** [import { useState } from 'react';] *)
Definition namedImportProgram : value :=
  Program (Some (0, 33))
    [ImportDeclaration (Some (0, 33)) "react"
       [ImportSpecifier (Some (9, 17)) "useState"]].

(** A parameter [name], or [name: T] when [annotated]. *)
Definition Param (range : option (Z * Z)) (name : string) (annotated : bool) : value :=
  Node "Identifier" range
    (("name", VStr name)
     :: if annotated
        then [("typeAnnotation", Node "TSTypeAnnotation" None [])]
        else []).

(** A destructured parameter [{ size }: T]. *)
Definition ObjectPatternParam (range : option (Z * Z)) : value :=
  Node "ObjectPattern" range
    [("properties", VArr []);
     ("typeAnnotation", Node "TSTypeAnnotation" None [])].

Definition ArrowFunctionExpression (params : list value) (body : value) : value :=
  Node "ArrowFunctionExpression" None
    [("params", VArr params); ("body", body); ("expression", VBool true)].

Definition VariableDeclarator (name : string) (init : value) : value :=
  Node "VariableDeclarator" None [("id", Identifier name); ("init", init)].

(** [catch (e) {}]: the clause spans the whole text. *)
Definition emptyCatchText : string := "catch (e) {}".

Definition emptyCatchClause : value :=
  CatchClause (Some (0, 12))
    (Node "Identifier" (Some (7, 8)) [("name", VStr "e")])
    (BlockStatement (Some (10, 12)) []).

Definition emptyCatchSource : SourceCode :=
  {| text := emptyCatchText;
     getAllComments := Some [];
     tokens := [ {| token_range := (0, 5); token_value := "catch" |};
                 {| token_range := (6, 7); token_value := "(" |};
                 {| token_range := (7, 8); token_value := "e" |};
                 {| token_range := (8, 9); token_value := ")" |};
                 {| token_range := (10, 11); token_value := "{" |};
                 {| token_range := (11, 12); token_value := "}" |} ] |}.

(** [catch (error) { console.log('x'); }] *)
Definition logCatchClause : value :=
  CatchClause (Some (0, 37))
    (Identifier "error")
    (BlockStatement (Some (14, 37))
       [ExpressionStatement
          (CallExpression
             (MemberExpression (Identifier "console") (Identifier "log"))
             [Literal (VStr "x") "'x'"])]).






(** [catch (e) {}] whose block lost its statement list. *)
Definition malformedClause : value :=
  Node "CatchClause" (Some (0, 12))
    [("param", Node "Identifier" (Some (7, 8)) [("name", VStr "e")]);
     ("body", Node "BlockStatement" (Some (10, 12)) [])].

(** The cases of the rule's test file.  [catch (error) { console.error(error); }] *)
Definition handledClause : value :=
  CatchClause (Some (0, 41))
    (Identifier "error")
    (BlockStatement (Some (14, 41))
       [ExpressionStatement
          (CallExpression
             (MemberExpression (Identifier "console") (Identifier "error"))
             [Identifier "error"])]).

(** [catch { // <comment> }] and [catch (e) { // <comment> }] *)
Definition commentedClause (param : value) : value :=
  CatchClause (Some (0, 40)) param (BlockStatement (Some (6, 40)) []).

Definition withComment (comment : string) : SourceCode :=
  {| text := EmptyString;
     getAllComments := Some [ {| comment_range := (8, 38); comment_value := comment |} ];
     tokens := [] |}.

(** [catch (error) { console.log('Error occurred'); }] *)
Definition errorOccurredClause : value :=
  CatchClause (Some (0, 48))
    (Identifier "error")
    (BlockStatement (Some (14, 48))
       [ExpressionStatement
          (CallExpression
             (MemberExpression (Identifier "console") (Identifier "log"))
             [Literal (VStr "Error occurred") "'Error occurred'"])]).

Definition noComments : SourceCode :=
  {| text := EmptyString; getAllComments := Some []; tokens := [] |}.

End Ast.

(** * Properties *)

#[global] Arguments String.eqb !_ !_.

(** ** Strings *)
Module StrFacts.
Import Str.

Lemma prefix_spec needle s :
  String.prefix needle s = true ↔ ∃ post, s = needle +:+ post.
Proof.
  revert s. induction needle as [|c needle IH]; intros s; simpl.
  - split; [intros _; by exists s | by destruct s].
  - destruct s as [|c' s]; simpl.
    + split; [done | by intros [post ?]].
    + destruct (Ascii.ascii_dec c c') as [->|Hne].
      * rewrite IH. split; intros [post Hpost]; exists post.
        -- by rewrite Hpost.
        -- by injection Hpost.
      * split; [done | intros [post Hpost]]. by injection Hpost.
Qed.

(** [includes] decides the substring relation. *)
Lemma includes_spec needle s :
  includes needle s = true ↔ ∃ pre post, s = pre +:+ needle +:+ post.
Proof.
  induction s as [|c s IH]; cbn [includes].
  - rewrite orb_false_r, prefix_spec. split.
    + intros [post ->]. by exists EmptyString, post.
    + intros [pre [post Heq]]. destruct pre; simpl in Heq; [by exists post | done].
  - rewrite orb_true_iff, prefix_spec, IH. split.
    + intros [[post ->] | [pre [post ->]]].
      * by exists EmptyString, post.
      * by exists (String c pre), post.
    + intros [pre [post Heq]]. destruct pre as [|c' pre]; simpl in Heq.
      * left. by exists post.
      * right. exists pre, post. by injection Heq.
Qed.

Lemma append_assoc (a b c : string) : (a +:+ b) +:+ c = a +:+ b +:+ c.
Proof.
  induction a as [|x a IH]; [done|].
  change (String x ((a +:+ b) +:+ c) = String x (a +:+ b +:+ c)).
  by rewrite IH.
Qed.

(** A string that contains [big] contains every substring of [big]. *)
Lemma includes_trans small big s :
  includes small big = true → includes big s = true → includes small s = true.
Proof.
  rewrite !includes_spec. intros [p1 [q1 ->]] [p2 [q2 ->]].
  exists (p2 +:+ p1), (q1 +:+ q2). by rewrite !append_assoc.
Qed.

End StrFacts.

(** ** Regular expressions *)
Module RegexFacts.
Import Regex.

(** The strings a regular expression matches, with the case folding of
    the [i] flag. *)
Inductive Matches : regex → string → Prop :=
  | MEps : Matches Eps EmptyString
  | MChr c c' :
      foldCase c = foldCase c' → Matches (Chr c') (String c EmptyString)
  | MSpace c : isSpace c = true → Matches Space (String c EmptyString)
  | MSeq r1 r2 s1 s2 :
      Matches r1 s1 → Matches r2 s2 → Matches (Seq r1 r2) (s1 +:+ s2)
  | MAltL r1 r2 s : Matches r1 s → Matches (Alt r1 r2) s
  | MAltR r1 r2 s : Matches r2 s → Matches (Alt r1 r2) s
  | MStar0 r : Matches (Star r) EmptyString
  | MStarS r s1 s2 :
      Matches r s1 → Matches (Star r) s2 → Matches (Star r) (s1 +:+ s2).

Lemma append_cons c (a b : string) : String c a +:+ b = String c (a +:+ b).
Proof. reflexivity. Qed.

Lemma append_nil_l (a : string) : EmptyString +:+ a = a.
Proof. reflexivity. Qed.

Lemma append_eq_nil (a b : string) :
  a +:+ b = EmptyString → a = EmptyString ∧ b = EmptyString.
Proof. destruct a; [by rewrite append_nil_l | done]. Qed.

Lemma nullable_spec r : nullable r = true ↔ Matches r EmptyString.
Proof.
  split.
  - induction r as [| | | |r1 IH1 r2 IH2|r1 IH1 r2 IH2|r IH]; cbn; try done.
    + intros _. constructor.
    + intros [H1 H2]%andb_true_iff.
      rewrite <- (append_nil_l EmptyString). constructor; auto.
    + intros [H|H]%orb_true_iff; [apply MAltL | apply MAltR]; auto.
    + intros _. constructor.
  - intros H. remember EmptyString as w eqn:Hw.
    induction H as [|c c' Hc|c Hc|r1 r2 s1 s2 _ IH1 _ IH2|r1 r2 s _ IH|r1 r2 s _ IH
                   |r|r s1 s2 _ _ _ _]; cbn; try done.
    + apply append_eq_nil in Hw as [-> ->]. by rewrite IH1, IH2.
    + by rewrite IH.
    + rewrite IH by done. apply orb_true_r.
Qed.

Lemma deriv_sound c r s : Matches (deriv c r) s → Matches r (String c s).
Proof.
  revert s. induction r as [| |c'| |r1 IH1 r2 IH2|r1 IH1 r2 IH2|r IH];
    intros s H; cbn in H.
  - inversion H.
  - inversion H.
  - destruct (Ascii.eqb_spec (foldCase c) (foldCase c')) as [Heq|_]; inversion H.
    by constructor.
  - destruct (isSpace c) eqn:Hsp; inversion H. by constructor.
  - assert (Hseq : ∀ s, Matches (Seq (deriv c r1) r2) s →
                        Matches (Seq r1 r2) (String c s)).
    { intros s' H'. inversion H' as [| | |? ? s1 s2 H1 H2| | | |]; subst.
      rewrite <- append_cons. constructor; auto. }
    destruct (nullable r1) eqn:Hnull; [|by apply Hseq].
    inversion H as [| | | |? ? ? H'|? ? ? H'| |]; subst; [by apply Hseq|].
    rewrite <- (append_nil_l (String c s)). constructor; [|by apply IH2].
    by apply nullable_spec.
  - inversion H as [| | | |? ? ? H'|? ? ? H'| |]; subst;
      [apply MAltL | apply MAltR]; auto.
  - inversion H as [| | |? ? s1 s2 H1 H2| | | |]; subst.
    rewrite <- append_cons. constructor; auto.
Qed.

Lemma deriv_complete c r s : Matches r (String c s) → Matches (deriv c r) s.
Proof.
  intros H. remember (String c s) as w eqn:Hw. revert c s Hw.
  induction H as [|c0 c' Hc|c0 Hc|r1 r2 s1 s2 H1 IH1 H2 IH2|r1 r2 w H IH|r1 r2 w H IH
                 |r|r s1 s2 H1 IH1 H2 IH2]; intros c s Hw; cbn.
  - done.
  - injection Hw as <- <-. rewrite Hc, Ascii.eqb_refl. constructor.
  - injection Hw as <- <-. rewrite Hc. constructor.
  - destruct s1 as [|c1 s1].
    + rewrite append_nil_l in Hw. apply nullable_spec in H1. rewrite H1.
      apply MAltR. by apply IH2.
    + rewrite append_cons in Hw. injection Hw as -> <-.
      assert (Matches (Seq (deriv c r1) r2) (s1 +:+ s2)).
      { constructor; [by apply IH1 | done]. }
      destruct (nullable r1); [by apply MAltL | done].
  - apply MAltL. by apply IH.
  - apply MAltR. by apply IH.
  - done.
  - destruct s1 as [|c1 s1].
    + rewrite append_nil_l in Hw. by apply IH2.
    + rewrite append_cons in Hw. injection Hw as -> <-.
      constructor; [by apply IH1 | done].
Qed.

(** [matchPrefix] decides whether a prefix matches. *)
Lemma matchPrefix_spec r s :
  matchPrefix r s = true ↔ ∃ w post, s = w +:+ post ∧ Matches r w.
Proof.
  revert r. induction s as [|c s IH]; intros r; cbn [matchPrefix].
  - rewrite orb_false_r, nullable_spec. split.
    + intros H. by exists EmptyString, EmptyString.
    + intros (w & post & Heq & H). symmetry in Heq.
      by apply append_eq_nil in Heq as [-> _].
  - rewrite orb_true_iff, nullable_spec, IH. split.
    + intros [H | (w & post & -> & H)].
      * by exists EmptyString, (String c s).
      * exists (String c w), post. split; [done | by apply deriv_sound].
    + intros (w & post & Heq & H). destruct w as [|c' w].
      * by left.
      * right. rewrite append_cons in Heq. injection Heq as <- ->.
        exists w, post. split; [done | by apply deriv_complete].
Qed.

(** [test] decides whether some substring matches, as [RegExp.test]
    does for a pattern without anchors. *)
Lemma test_spec r s :
  test r s = true ↔ ∃ pre w post, s = pre +:+ w +:+ post ∧ Matches r w.
Proof.
  induction s as [|c s IH]; cbn [test].
  - rewrite orb_false_r, matchPrefix_spec. split.
    + intros (w & post & Heq & H). by exists EmptyString, w, post.
    + intros (pre & w & post & Heq & H). exists w, post. split; [|done].
      destruct pre; [done | discriminate Heq].
  - rewrite orb_true_iff, matchPrefix_spec, IH. split.
    + intros [(w & post & Heq & H) | (pre & w & post & -> & H)].
      * by exists EmptyString, w, post.
      * by exists (String c pre), w, post.
    + intros (pre & w & post & Heq & H). destruct pre as [|c' pre].
      * left. by exists w, post.
      * right. rewrite append_cons in Heq. injection Heq as <- ->.
        by exists pre, w, post.
Qed.

End RegexFacts.

(** ** JavaScript values *)
Module JSFacts.
Import JS.

(** Structural induction through the arrays and objects of a value. *)
Lemma value_ind' (P : value → Prop) :
  P VUndef → P VNull → (∀ b, P (VBool b)) → (∀ n, P (VNum n)) →
  (∀ s, P (VStr s)) →
  (∀ items, Forall P items → P (VArr items)) →
  (∀ r fs, Forall (fun kv => P kv.2) fs → P (VObj r fs)) →
  ∀ v, P v.
Proof.
  intros Hu Hn Hb Hz Hs Ha Ho.
  fix IH 1. intros [| |b|n|s|items|r fs];
    [exact Hu | exact Hn | apply Hb | apply Hz | apply Hs | apply Ha | apply Ho].
  - induction items as [|x items IHitems]; constructor; [apply IH | exact IHitems].
  - induction fs as [|[k x] fs IHfs]; constructor; [apply IH | exact IHfs].
Qed.

Lemma isStr_true v s : isStr v s = true ↔ v = VStr s.
Proof.
  destruct v; simpl; try (split; [done | congruence]).
  rewrite String.eqb_eq. split; congruence.
Qed.

Lemma lookup_In k fs v : lookup k fs = v → v ≠ VUndef → In (k, v) fs.
Proof.
  induction fs as [|[k' x] fs IH]; simpl; [congruence|].
  destruct (String.eqb_spec k k') as [->|Hne]; intros; [left; congruence | right; auto].
Qed.

(** A value has type tag [ty]. *)
Definition typeIs (v : value) (ty : string) : Prop :=
  get v "type" = Some (VStr ty).

Lemma typeIs_truthy v ty : typeIs v ty → truthy v = true.
Proof.
  unfold typeIs. destruct v; try done; simpl;
    by destruct (String.eqb "type" "length").
Qed.

End JSFacts.

(** ** The layer-boundary passthrough detector *)
Module ResponseDataFacts.
Import JS Host AstHelpers NoResponseDataReturn JSFacts.

Definition diagnosticAt (n : value) : Diagnostic :=
  {| node := n; messageId := "directResponseDataReturn"; data := []; fix_ := None |}.

(** The loop of [isResponseDataAccess] written as one recursive
    equation. *)
Lemma unwind_obj r fs :
  unwind (VObj r fs) =
  if isStr (lookup "type" fs) "MemberExpression"
  then unwind (lookup "object" fs)
  else Some (VObj r fs).
Proof.
  simpl. destruct (isStr (lookup "type" fs) "MemberExpression"); [|done].
  induction fs as [|[k x] fs IH]; [reflexivity|].
  cbn [lookup]. by destruct (String.eqb "object" k).
Qed.

(** [root] is what remains of [v] after unwinding its nested member
    accesses. *)
Inductive rootOf : value → value → Prop :=
  | rootOf_here v ty :
      get v "type" = Some ty → isStr ty "MemberExpression" = false →
      rootOf v v
  | rootOf_object v obj root :
      typeIs v "MemberExpression" → get v "object" = Some obj →
      rootOf obj root → rootOf v root.

Lemma unwind_spec v root : unwind v = Some root ↔ rootOf v root.
Proof.
  split.
  - revert root. induction v as [| |b|n|s|items _|r fs IH] using value_ind';
      intros root H; try discriminate;
      try (injection H as <-; by eapply rootOf_here).
    rewrite unwind_obj in H.
    destruct (isStr (lookup "type" fs) "MemberExpression") eqn:Hty.
    + apply isStr_true in Hty.
      eapply rootOf_object; [by unfold typeIs; simpl; rewrite Hty | done |].
      destruct (lookup "object" fs) eqn:Hobj; try discriminate;
        try (injection H as <-; by eapply rootOf_here).
      rewrite Forall_forall in IH.
      apply (IH ("object", VObj range fields)); [|done].
      apply list_elem_of_In. by apply lookup_In.
    + injection H as <-. by eapply rootOf_here.
  - induction 1 as [v ty Hget Hty | v obj root Hty Hobj _ IH].
    + destruct v; try discriminate; try done.
      rewrite unwind_obj. simpl in Hget. injection Hget as ->. by rewrite Hty.
    + destruct v; try discriminate.
      rewrite unwind_obj. unfold typeIs in Hty. simpl in Hty, Hobj.
      injection Hty as ->. injection Hobj as ->. done.
Qed.

(** The names the detector takes for a response: the lower-cased name
    contains [res], or is [r]. *)
Definition responseLike (name : string) : Prop :=
  (∃ pre post, name = pre +:+ "res" +:+ post) ∨ name = "r".

Lemma isResponseName_spec name : isResponseName name = true ↔ responseLike name.
Proof.
  unfold isResponseName, responseLike.
  rewrite !orb_true_iff, String.eqb_eq, <- (StrFacts.includes_spec "res").
  split.
  - intros [[[H|H]|H]|H]; auto; left;
      eapply StrFacts.includes_trans; try exact H; reflexivity.
  - intros [H|H]; auto.
Qed.

(** A member access whose property is the identifier [data] and whose
    root object is an identifier with a lower-cased name in [names]. *)
Definition dataAccessOn (names : string → Prop) (m : value) : Prop :=
  ∃ prop obj root nm,
    get m "property" = Some prop ∧ typeIs prop "Identifier" ∧
    get prop "name" = Some (VStr "data") ∧
    get m "object" = Some obj ∧ rootOf obj root ∧
    typeIs root "Identifier" ∧ get root "name" = Some (VStr nm) ∧
    names (Str.toLowerCase nm).

Lemma isResponseDataAccess_spec m :
  isResponseDataAccess m = true ↔ dataAccessOn responseLike m.
Proof.
  unfold isResponseDataAccess, isResponseDataAccess_try, dataAccessOn. split.
  - intros H.
    destruct (get m "property") as [prop|] eqn:Hprop; [|done]. cbn in H.
    destruct (get prop "type") as [pty|] eqn:Hpty; [|done]. cbn in H.
    destruct (isStr pty "Identifier") eqn:HptyI; [|done]. cbn in H.
    destruct (get prop "name") as [pn|] eqn:Hpn; [|done]. cbn in H.
    destruct (isStr pn "data") eqn:Hdata; [|done]. cbn in H.
    destruct (get m "object") as [obj|] eqn:Hobj; [|done]. cbn in H.
    destruct (unwind obj) as [root|] eqn:Hroot; [|done]. cbn in H.
    destruct (get root "type") as [rty|] eqn:Hrty; [|done]. cbn in H.
    destruct (isStr rty "Identifier") eqn:HrtyI; [|done]. cbn in H.
    destruct (get root "name") as [nm|] eqn:Hnm; [|done]. cbn in H.
    destruct nm as [| | | |nm| |]; try done. cbn in H.
    apply isStr_true in HptyI, Hdata, HrtyI. subst.
    exists prop, obj, root, nm. repeat split; try done.
    + by apply unwind_spec.
    + by apply isResponseName_spec.
  - intros (prop & obj & root & nm & Hprop & Hpty & Hpn & Hobj & Hroot & Hrty & Hnm & Hlike).
    unfold typeIs in *. apply unwind_spec in Hroot. apply isResponseName_spec in Hlike.
    rewrite Hprop. cbn. rewrite Hpty. cbn. rewrite Hpn. cbn.
    rewrite Hobj. cbn. rewrite Hroot. cbn. rewrite Hrty. cbn. rewrite Hnm. cbn.
    done.
Qed.

(** A [return] whose argument is such a member access, directly or
    inside an optional chain. *)
Definition returnsDataOf (names : string → Prop) (returnNode : value) : Prop :=
  ∃ arg, get returnNode "argument" = Some arg ∧
    ((typeIs arg "MemberExpression" ∧ dataAccessOn names arg) ∨
     (typeIs arg "ChainExpression" ∧
      ∃ expr, get arg "expression" = Some expr ∧
              typeIs expr "MemberExpression" ∧ dataAccessOn names expr)).

Lemma isDirectResponseDataReturn_spec n :
  isDirectResponseDataReturn n = true ↔ returnsDataOf responseLike n.
Proof.
  unfold isDirectResponseDataReturn, isDirectResponseDataReturn_try, returnsDataOf.
  split.
  - intros H.
    destruct (get n "argument") as [arg|] eqn:Harg; [|done]. cbn in H.
    destruct (truthy arg) eqn:Htr; [|done]. cbn in H.
    destruct (get arg "type") as [aty|] eqn:Haty; [|done]. cbn in H.
    exists arg. split; [done|].
    destruct (isStr aty "MemberExpression") eqn:HME; cbn in H.
    + left. apply isStr_true in HME. subst.
      split; [done | by apply isResponseDataAccess_spec].
    + destruct (isStr aty "ChainExpression") eqn:HCE; [|done]. cbn in H.
      destruct (get arg "expression") as [expr|] eqn:Hexpr; [|done]. cbn in H.
      destruct (get expr "type") as [ety|] eqn:Hety; [|done]. cbn in H.
      destruct (isStr ety "MemberExpression") eqn:HME'; [|done]. cbn in H.
      apply isStr_true in HCE, HME'. subst. right. split; [done|].
      exists expr. repeat split; try done. by apply isResponseDataAccess_spec.
  - intros (arg & Harg & Hcase). rewrite Harg. cbn.
    destruct Hcase as [[Hty Hacc] | [Hty (expr & Hexpr & Hety & Hacc)]];
      rewrite (typeIs_truthy _ _ Hty); unfold typeIs in *;
      apply isResponseDataAccess_spec in Hacc; cbn; rewrite Hty; cbn.
    + done.
    + rewrite Hexpr. cbn. rewrite Hety. cbn. done.
Qed.

Lemma lint_single filename n :
  matchesServicePath filename = true → nodeType n = "ReturnStatement" →
  lint filename [n] = ReturnStatement n.
Proof.
  intros Hsvc Hty. unfold lint, create, dispatch. rewrite Hsvc. cbn.
  rewrite Hty. cbn. by rewrite !app_nil_r.
Qed.

(** C6.  A file whose normalised path does not contain the marker
    [src/services/] gets no diagnostic from the passthrough detector,
    whatever nodes it contains. *)
Theorem no_reports_outside_service_layer filename nodes :
  (¬ ∃ pre post,
       Str.replaceBackslashes filename = pre +:+ "src/services/" +:+ post) →
  lint filename nodes = [].
Proof.
  intros Hno. unfold lint, create, matchesServicePath.
  destruct (Str.includes "src/services/" (Str.replaceBackslashes filename)) eqn:Hinc.
  - exfalso. apply Hno. by apply StrFacts.includes_spec.
  - cbn. induction nodes as [|n nodes IH]; [done|]. by cbn.
Qed.

Lemma no_reports_outside_service_layer_witness :
  let nodes :=
    [Ast.ReturnStatement
       (Ast.MemberExpression (Ast.Identifier "response") (Ast.Identifier "data"))] in
  lint "C:\app\src\servicing\user.ts" nodes = [].
Proof.
  apply (no_reports_outside_service_layer "C:\app\src\servicing\user.ts").
  intros H. apply StrFacts.includes_spec in H. vm_compute in H. discriminate H.
Defined.

(** C7, as amended.  In a service-layer file the detector flags a
    [return] statement exactly when its argument, directly or inside an
    optional chain, is a member access whose property is the identifier
    [data] and whose root identifier has a lower-cased name that
    contains [res] or is [r]. *)
Theorem passthrough_flagged_iff filename n :
  matchesServicePath filename = true → nodeType n = "ReturnStatement" →
  (returnsDataOf responseLike n ∧ lint filename [n] = [diagnosticAt n])
  ∨ (¬ returnsDataOf responseLike n ∧ lint filename [n] = []).
Proof.
  intros Hsvc Hty. rewrite (lint_single _ _ Hsvc Hty). unfold ReturnStatement.
  destruct (isDirectResponseDataReturn n) eqn:H.
  - left. split; [by apply isDirectResponseDataReturn_spec | done].
  - right. split; [|done]. intros Hp.
    apply isDirectResponseDataReturn_spec in Hp. congruence.
Qed.

Lemma passthrough_flagged_iff_witness :
  let n := Ast.ReturnStatement
             (Ast.ChainExpression
                (Ast.MemberExpression
                   (Ast.MemberExpression (Ast.Identifier "apiResult")
                                         (Ast.Identifier "body"))
                   (Ast.Identifier "data"))) in
  (returnsDataOf responseLike n
   ∧ lint "src/services/user.ts" [n] = [diagnosticAt n])
  ∨ (¬ returnsDataOf responseLike n ∧ lint "src/services/user.ts" [n] = []).
Proof.
  apply (passthrough_flagged_iff "src/services/user.ts"); reflexivity.
Defined.

(** The names of the claim: [response], [res], [r], or a name that
    contains [result]. *)
Definition claimedNames (name : string) : Prop :=
  name = "response" ∨ name = "res" ∨ name = "r"
  ∨ ∃ pre post, name = pre +:+ "result" +:+ post.

(** [return address.data] is flagged in a service file, although
    [address] is none of the claimed names. *)
Lemma passthrough_claim_counterexample :
  let n := Ast.ReturnStatement
             (Ast.MemberExpression (Ast.Identifier "address")
                                   (Ast.Identifier "data")) in
  ¬ (lint "src/services/user.ts" [n] ≠ [] ↔ returnsDataOf claimedNames n).
Proof.
  intros n [Hflag _].
  destruct Hflag as (arg & Harg & Hcase); [by vm_compute|].
  injection Harg as <-.
  assert (Hno : ¬ dataAccessOn claimedNames
                    (Ast.MemberExpression (Ast.Identifier "address")
                                          (Ast.Identifier "data"))).
  { intros (prop & obj & root & nm & _ & _ & _ & Hobj & Hroot & _ & Hnm & Hnames).
    injection Hobj as <-.
    inversion Hroot as [v ty _ _ Heq | v obj' root' Hty _ _ Heq1 Heq2]; subst.
    - injection Hnm as <-.
      destruct Hnames as [H|[H|[H|H]]]; try discriminate H.
      apply StrFacts.includes_spec in H. vm_compute in H. discriminate H.
    - discriminate Hty. }
  destruct Hcase as [[_ H] | [Hty _]]; [by apply Hno | discriminate Hty].
Qed.

End ResponseDataFacts.

(** ** The duplicate-definition detector *)
Module ComponentFacts.
Import JS Host AstHelpers OneComponentPerFile JSFacts.

(** What one node contributes when its listener runs: the definitions
    it pushes and the names it adds to the set of compound children. *)
Definition definedBy (n : value) : list ComponentInfo :=
  components (visit initial n).

Definition assignedBy (n : value) : list value :=
  compoundChildren (visit initial n).

(** The definitions of a file, in order, and the names that some node of
    the file attaches as a property. *)
Definition definitions (nodes : list value) : list ComponentInfo :=
  flat_map definedBy nodes.

Definition isAssigned (nodes : list value) (nm : value) : bool :=
  existsb (fun n => has (assignedBy n) nm) nodes.

(** The definitions that remain once the compound children are
    excluded. *)
Definition remaining (nodes : list value) : list ComponentInfo :=
  List.filter (fun c => negb (isAssigned nodes (name c))) (definitions nodes).

Definition multipleComponents (second : ComponentInfo)
    (rest : list ComponentInfo) : Diagnostic :=
  {| node := cnode second; messageId := "multipleComponents";
     data := [("count", VNum (Z.of_nat (length rest)));
              ("componentNames", VStr (join ", " (map name rest)))];
     fix_ := None |}.

Lemma strictEq_eq a b : strictEq a b = true → a = b.
Proof.
  destruct a, b; simpl; try done.
  - intros H. by apply Bool.eqb_prop in H; subst.
  - intros H. by apply Z.eqb_eq in H; subst.
  - intros H. by apply String.eqb_eq in H; subst.
Qed.

Lemma has_app s1 s2 v : has (s1 ++ s2) v = has s1 v || has s2 v.
Proof. unfold has. apply existsb_app. Qed.

Lemma has_add s x v : has (add s x) v = has s v || strictEq v x.
Proof.
  unfold add. destruct (has s x) eqn:Hx.
  - destruct (strictEq v x) eqn:Hv; [|by rewrite orb_false_r].
    apply strictEq_eq in Hv. subst. by rewrite Hx.
  - rewrite has_app. simpl. by rewrite orb_false_r.
Qed.

(** A listener only appends: its effect on any state is its effect on
    the initial state, added to what was there. *)
Lemma visit_frame st n :
  components (visit st n) = components st ++ definedBy n
  ∧ ∀ v, has (compoundChildren (visit st n)) v
         = has (compoundChildren st) v || has (assignedBy n) v.
Proof.
  unfold definedBy, assignedBy, visit.
  destruct (String.eqb (nodeType n) "AssignmentExpression").
  { unfold AssignmentExpression, AssignmentExpression_try.
    destruct (_ &&& _ &&& _) as [[|]|]; cbn;
      try (split; [by rewrite app_nil_r | intros v; by rewrite orb_false_r]).
    destruct (get n "right") as [right|]; cbn;
      try (split; [by rewrite app_nil_r | intros v; by rewrite orb_false_r]).
    destruct (get right "type") as [rty|]; cbn;
      try (split; [by rewrite app_nil_r | intros v; by rewrite orb_false_r]).
    destruct (isStr rty "Identifier"); cbn;
      try (split; [by rewrite app_nil_r | intros v; by rewrite orb_false_r]).
    destruct (get right "name") as [rname|]; cbn;
      try (split; [by rewrite app_nil_r | intros v; by rewrite orb_false_r]).
    split; [by rewrite app_nil_r|]. intros v.
    change (existsb (strictEq v) (add (compoundChildren st) rname))
      with (has (add (compoundChildren st) rname) v).
    by rewrite has_add, orb_false_r. }
  destruct (String.eqb (nodeType n) "FunctionDeclaration").
  { unfold FunctionDeclaration, FunctionDeclaration_try.
    destruct (isReactComponent n); cbn;
      try (split; [by rewrite app_nil_r | intros v; by rewrite orb_false_r]).
    destruct (idNameOrAnonymous n) as [nm|]; cbn;
      split; try done; try (by rewrite app_nil_r);
      intros v; by rewrite orb_false_r. }
  destruct (String.eqb (nodeType n) "VariableDeclarator").
  { unfold VariableDeclarator, VariableDeclarator_try.
    destruct (isReactComponent n); cbn;
      try (split; [by rewrite app_nil_r | intros v; by rewrite orb_false_r]).
    destruct (get n "id") as [id|]; cbn;
      try (split; [by rewrite app_nil_r | intros v; by rewrite orb_false_r]).
    destruct (get id "type") as [ity|]; cbn;
      try (split; [by rewrite app_nil_r | intros v; by rewrite orb_false_r]).
    destruct (if isStr ity "Identifier" then get id "name"
              else Some (VStr "anonymous")) as [nm|]; cbn;
      split; try done; try (by rewrite app_nil_r);
      intros v; by rewrite orb_false_r. }
  destruct (String.eqb (nodeType n) "ClassDeclaration").
  { unfold ClassDeclaration, ClassDeclaration_try.
    destruct (isReactComponent n); cbn;
      try (split; [by rewrite app_nil_r | intros v; by rewrite orb_false_r]).
    destruct (idNameOrAnonymous n) as [nm|]; cbn;
      split; try done; try (by rewrite app_nil_r);
      intros v; by rewrite orb_false_r. }
  split; [by rewrite app_nil_r | intros v; by rewrite orb_false_r].
Qed.

(** The state at the end of the file does not depend on where the
    assignments stand among the definitions. *)
Lemma fold_visit nodes st :
  components (fold_left visit nodes st) = components st ++ definitions nodes
  ∧ ∀ v, has (compoundChildren (fold_left visit nodes st)) v
         = has (compoundChildren st) v || isAssigned nodes v.
Proof.
  revert st. induction nodes as [|n nodes IH]; intros st; cbn.
  - split; [by rewrite app_nil_r | intros v; by rewrite orb_false_r].
  - destruct (IH (visit st n)) as [Hc Hs]. destruct (visit_frame st n) as [Hc1 Hs1].
    split.
    + by rewrite Hc, Hc1, <- app_assoc.
    + intros v. by rewrite Hs, Hs1, orb_assoc.
Qed.

(** Every definition is pushed with the flag [isCompoundChild] off, by
    the node that defines it, which the classifier takes for a
    component. *)
Lemma definedBy_spec n :
  Forall (fun c => isCompoundChild c = false ∧ cnode c = n
                   ∧ isReactComponent n = true) (definedBy n).
Proof.
  unfold definedBy, visit.
  destruct (String.eqb (nodeType n) "AssignmentExpression").
  { unfold AssignmentExpression.
    destruct (AssignmentExpression_try n initial) as [st|] eqn:H; cbn; [|done].
    unfold AssignmentExpression_try in H.
    destruct (_ &&& _ &&& _) as [[|]|]; cbn in H; try (injection H as <-; done);
      try done.
    destruct (get n "right") as [right|]; cbn in H; [|done].
    destruct (get right "type") as [rty|]; cbn in H; [|done].
    destruct (isStr rty "Identifier"); cbn in H; [|by injection H as <-].
    destruct (get right "name"); cbn in H; [|done]. by injection H as <-. }
  destruct (String.eqb (nodeType n) "FunctionDeclaration").
  { unfold FunctionDeclaration, FunctionDeclaration_try.
    destruct (isReactComponent n); cbn; [|done].
    destruct (idNameOrAnonymous n); cbn; [|done]. by repeat constructor. }
  destruct (String.eqb (nodeType n) "VariableDeclarator").
  { unfold VariableDeclarator, VariableDeclarator_try.
    destruct (isReactComponent n); cbn; [|done].
    destruct (get n "id") as [id|]; cbn; [|done].
    destruct (get id "type") as [ity|]; cbn; [|done].
    destruct (if isStr ity "Identifier" then get id "name"
              else Some (VStr "anonymous")); cbn; [|done].
    by repeat constructor. }
  destruct (String.eqb (nodeType n) "ClassDeclaration").
  { unfold ClassDeclaration, ClassDeclaration_try.
    destruct (isReactComponent n); cbn; [|done].
    destruct (idNameOrAnonymous n); cbn; [|done]. by repeat constructor. }
  done.
Qed.

Lemma definitions_spec nodes :
  Forall (fun c => isCompoundChild c = false ∧ In (cnode c) nodes
                   ∧ isReactComponent (cnode c) = true) (definitions nodes).
Proof.
  induction nodes as [|n nodes IH]; cbn; [done|].
  apply Forall_app. split.
  - eapply Forall_impl; [apply definedBy_spec|].
    intros c (? & -> & ?). auto.
  - eapply Forall_impl; [exact IH|]. intros c (? & ? & ?). auto.
Qed.

(** Marking and then filtering on the mark is filtering on membership. *)
Lemma filter_mark children cs :
  Forall (fun c => isCompoundChild c = false) cs →
  List.filter (fun c => negb (isCompoundChild c)) (map (mark children) cs)
  = List.filter (fun c => negb (has children (name c))) cs.
Proof.
  induction 1 as [|c cs Hc _ IH]; cbn; [done|].
  assert (Hm : mark children c
               = if has children (name c)
                 then {| name := name c; cnode := cnode c; isCompoundChild := true |}
                 else c) by reflexivity.
  rewrite Hm. destruct (has children (name c)); cbn.
  - exact IH.
  - rewrite Hc. cbn. by rewrite IH.
Qed.

(** The assignments the listener takes for the compound-component
    pattern, [obj.prop = rname]: the left side is a member access whose
    object and property are identifier nodes, and the right side is the
    identifier [rname]. *)
Definition identifierPropertyAssignment (n : value) (rname : value) : Prop :=
  nodeType n = "AssignmentExpression" ∧
  ∃ left obj prop right,
    get n "left" = Some left ∧ typeIs left "MemberExpression" ∧
    get left "object" = Some obj ∧ typeIs obj "Identifier" ∧
    get left "property" = Some prop ∧ typeIs prop "Identifier" ∧
    get n "right" = Some right ∧ typeIs right "Identifier" ∧
    get right "name" = Some rname.

Lemma assignedBy_spec n nm :
  has (assignedBy n) nm = true
  ↔ ∃ rname, identifierPropertyAssignment n rname ∧ strictEq nm rname = true.
Proof.
  unfold assignedBy, visit, identifierPropertyAssignment.
  destruct (String.eqb_spec (nodeType n) "AssignmentExpression") as [Hty|Hty].
  - unfold AssignmentExpression, AssignmentExpression_try, typeIs. split.
    + intros H.
      destruct (get n "left") as [left|] eqn:E1; [|done]. cbn in H.
      destruct (get left "type") as [lty|] eqn:E2; [|done]. cbn in H.
      destruct (isStr lty "MemberExpression") eqn:Hl; [|done]. cbn in H.
      destruct (get left "object") as [obj|] eqn:E3; [|done]. cbn in H.
      destruct (get obj "type") as [oty|] eqn:E4; [|done]. cbn in H.
      destruct (isStr oty "Identifier") eqn:Ho; [|done]. cbn in H.
      destruct (get left "property") as [prop|] eqn:E5; [|done]. cbn in H.
      destruct (get prop "type") as [pty|] eqn:E6; [|done]. cbn in H.
      destruct (isStr pty "Identifier") eqn:Hp; [|done]. cbn in H.
      destruct (get n "right") as [right|] eqn:E7; [|done]. cbn in H.
      destruct (get right "type") as [rty|] eqn:E8; [|done]. cbn in H.
      destruct (isStr rty "Identifier") eqn:Hr; [|done]. cbn in H.
      destruct (get right "name") as [rname|] eqn:E9; [|done]. cbn in H.
      apply isStr_true in Hl, Ho, Hp, Hr. subst.
      rewrite orb_false_r in H.
      exists rname. split; [|done]. split; [done|].
      exists left, obj, prop, right. by repeat split.
    + intros (rname & (_ & left & obj & prop & right & Hl & Hlt & Ho & Hot & Hp
                       & Hpt & Hr & Hrt & Hn) & Heq).
      rewrite Hl. cbn. rewrite Hlt. cbn. rewrite Ho. cbn. rewrite Hot. cbn.
      rewrite Hp. cbn. rewrite Hpt. cbn. rewrite Hr. cbn. rewrite Hrt. cbn.
      rewrite Hn, ?String.eqb_refl. cbn. unfold has. cbn. by rewrite Heq.
  - split; [|by intros (? & (? & _) & _)].
    destruct (String.eqb (nodeType n) "FunctionDeclaration").
    { unfold FunctionDeclaration, FunctionDeclaration_try.
      destruct (isReactComponent n); cbn; [|done].
      by destruct (idNameOrAnonymous n). }
    destruct (String.eqb (nodeType n) "VariableDeclarator").
    { unfold VariableDeclarator, VariableDeclarator_try.
      destruct (isReactComponent n); cbn; [|done].
      destruct (get n "id") as [id|]; cbn; [|done].
      destruct (get id "type") as [ity|]; cbn; [|done].
      by destruct (if isStr ity "Identifier" then get id "name"
                   else Some (VStr "anonymous")). }
    destruct (String.eqb (nodeType n) "ClassDeclaration").
    { unfold ClassDeclaration, ClassDeclaration_try.
      destruct (isReactComponent n); cbn; [|done].
      by destruct (idNameOrAnonymous n). }
    done.
Qed.

Lemma isAssigned_spec nodes nm :
  isAssigned nodes nm = true
  ↔ ∃ n rname, In n nodes ∧ identifierPropertyAssignment n rname ∧ strictEq nm rname = true.
Proof.
  unfold isAssigned. rewrite existsb_exists. split.
  - intros (n & Hin & Hhas). apply assignedBy_spec in Hhas as (rname & ? & ?).
    by exists n, rname.
  - intros (n & rname & Hin & Hpa & Heq). exists n. split; [done|].
    apply assignedBy_spec. by exists rname.
Qed.

Lemma lint_spec nodes :
  lint nodes = match remaining nodes with
               | _ :: second :: _ => [multipleComponents second (remaining nodes)]
               | _ => []
               end.
Proof.
  unfold lint, ProgramExit.
  destruct (fold_visit nodes initial) as [Hc Hs]. cbn in Hc, Hs.
  rewrite Hc, filter_mark.
  2:{ eapply Forall_impl; [apply definitions_spec|]. by intros c (? & _). }
  rewrite (List.filter_ext _ (fun c => negb (isAssigned nodes (name c)))).
  2:{ intros c. by rewrite Hs. }
  fold (remaining nodes).
  destruct (remaining nodes) as [|c1 [|c2 rest]]; done.
Qed.

(** What a node contributes as a definition: the node is classified
    as a component, and it is recorded with the flag off under the name
    of its [id].  For a function or class declaration the name is
    ['anonymous'] when the [id] is missing or its name is falsy; for a
    variable declarator it is ['anonymous'] when the [id] is no
    identifier (a pattern). *)
Definition collected (n : value) (c : ComponentInfo) : Prop :=
  cnode c = n ∧ isCompoundChild c = false ∧ isReactComponent n = true
  ∧ (((nodeType n = "FunctionDeclaration" ∨ nodeType n = "ClassDeclaration")
      ∧ ∃ id, get n "id" = Some id
              ∧ (((id = VNull ∨ id = VUndef) ∧ name c = VStr "anonymous")
                 ∨ ∃ x, get id "name" = Some x
                        ∧ name c = if truthy x then x else VStr "anonymous"))
     ∨ (nodeType n = "VariableDeclarator"
        ∧ ∃ id ity, get n "id" = Some id ∧ get id "type" = Some ity
                    ∧ ((ity = VStr "Identifier" ∧ get id "name" = Some (name c))
                       ∨ (ity ≠ VStr "Identifier" ∧ name c = VStr "anonymous")))).

Lemma idNameOrAnonymous_spec n id :
  get n "id" = Some id →
  ∃ nm, idNameOrAnonymous n = Some nm ∧ truthy nm = true
        ∧ ((id = VNull ∨ id = VUndef) → nm = VStr "anonymous")
        ∧ (∀ x, get id "name" = Some x →
                nm = if truthy x then x else VStr "anonymous").
Proof.
  intros Hid. unfold idNameOrAnonymous. rewrite Hid. cbn [mbind option_bind].
  destruct id as [| |b|z|s|items|r fs];
    try (eexists; split; [reflexivity|]; split; [reflexivity|];
         split; [by intros [?|?] | by intros x [= <-]]).
  cbn. destruct (truthy (lookup "name" fs)) eqn:Hnm;
      (eexists; split; [reflexivity|]; split; [done|]; split; [by intros [?|?]|]);
      intros x [= <-]; by rewrite Hnm.
Qed.

(** A node that defines a component is recorded once, as [collected]
    says. *)
Lemma definedBy_collected n c : collected n c → definedBy n = [c].
Proof.
  destruct c as [nm n' flag]. unfold collected. cbn.
  intros (-> & -> & Hcomp & [[Hty (id & Hid & Hname)]
                             | [Hty (id & ity & Hid & Hity & Hname)]]).
  - destruct (idNameOrAnonymous_spec n id Hid) as (nm' & Hnm' & _ & Hnull & Hread).
    assert (nm' = nm) as ->.
    { destruct Hname as [[Hu ->] | (x & Hx & ->)]; [by apply Hnull | by apply Hread]. }
    unfold definedBy, visit.
    destruct Hty as [-> | ->]; cbn [String.eqb Ascii.eqb Bool.eqb].
    + unfold FunctionDeclaration, FunctionDeclaration_try. by rewrite Hcomp, Hnm'.
    + unfold ClassDeclaration, ClassDeclaration_try. by rewrite Hcomp, Hnm'.
  - unfold definedBy, visit. rewrite Hty. cbn [String.eqb Ascii.eqb Bool.eqb].
    unfold VariableDeclarator, VariableDeclarator_try.
    rewrite Hcomp, Hid. cbn. rewrite Hity. cbn.
    destruct Hname as [[-> Hname] | [Hne ->]].
    + cbn. by rewrite Hname.
    + destruct (isStr ity "Identifier") eqn:H; [|done].
      apply isStr_true in H. done.
Qed.

(** A node contributes at most one definition, and only as [collected]
    says. *)
Lemma definedBy_cases n :
  definedBy n = [] ∨ ∃ c, definedBy n = [c] ∧ collected n c.
Proof.
  unfold definedBy, visit, collected.
  destruct (String.eqb_spec (nodeType n) "AssignmentExpression") as [Hty|_].
  { left. pose proof (definedBy_spec n) as H. unfold definedBy, visit in H.
    rewrite Hty in H. cbn [String.eqb Ascii.eqb Bool.eqb] in H.
    destruct (components (AssignmentExpression n initial)) as [|c cs]; [done|].
    apply Forall_cons in H as [(_ & _ & Hcomp) _].
    unfold isReactComponent, isReactComponent_try, nodeType in *.
    destruct n as [| | | | | |r fs]; try done. cbn in Hcomp, Hty.
    destruct (lookup "type" fs) as [| | | |ty| |]; try done. subst ty. done. }
  destruct (String.eqb_spec (nodeType n) "FunctionDeclaration") as [Hty|_].
  { unfold FunctionDeclaration, FunctionDeclaration_try.
    destruct (isReactComponent n) eqn:Hcomp; [|by left].
    assert (Hid : ∃ id, get n "id" = Some id).
    { destruct n; try done; by eexists. }
    destruct Hid as [id Hid].
    destruct (idNameOrAnonymous_spec n id Hid) as (nm & Hnm & _ & Hnull & Hread).
    rewrite Hnm. cbn. right. eexists. split; [reflexivity|]. cbn.
    repeat split; try done. left. split; [by left|]. exists id. split; [done|].
    destruct id as [| |b|z|s|items|r fs];
      try (by left; split; [auto | apply Hnull; auto]);
      right; eexists; (split; [reflexivity|]); by apply Hread. }
  destruct (String.eqb_spec (nodeType n) "VariableDeclarator") as [Hty|_].
  { unfold VariableDeclarator, VariableDeclarator_try.
    destruct (isReactComponent n) eqn:Hcomp; [|by left].
    destruct (get n "id") as [id|] eqn:Hid; cbn; [|by left].
    destruct (get id "type") as [ity|] eqn:Hity; cbn; [|by left].
    destruct (isStr ity "Identifier") eqn:Hident.
    - apply isStr_true in Hident as ->.
      destruct (get id "name") as [nm|] eqn:Hnm; cbn; [|by left].
      right. eexists. split; [reflexivity|]. cbn. repeat split; try done.
      right. split; [done|]. exists id, (VStr "Identifier"). auto.
    - cbn. right. eexists. split; [reflexivity|]. cbn. repeat split; try done.
      right. split; [done|]. exists id, ity. repeat split; try done.
      right. split; [|done]. intros ->. done. }
  destruct (String.eqb_spec (nodeType n) "ClassDeclaration") as [Hty|_].
  { unfold ClassDeclaration, ClassDeclaration_try.
    destruct (isReactComponent n) eqn:Hcomp; [|by left].
    assert (Hid : ∃ id, get n "id" = Some id).
    { destruct n; try done; by eexists. }
    destruct Hid as [id Hid].
    destruct (idNameOrAnonymous_spec n id Hid) as (nm & Hnm & _ & Hnull & Hread).
    rewrite Hnm. cbn. right. eexists. split; [reflexivity|]. cbn.
    repeat split; try done. left. split; [by right|]. exists id. split; [done|].
    destruct id as [| |b|z|s|items|r fs];
      try (by left; split; [auto | apply Hnull; auto]);
      right; eexists; (split; [reflexivity|]); by apply Hread. }
  by left.
Qed.

(** The files of the example: [Card] and [CardHeader], with or without
    [Card.Header = CardHeader]. *)
Definition attachHeader : value :=
  Ast.AssignmentExpression
    (Ast.MemberExpression (Ast.Identifier "Card") (Ast.Identifier "Header"))
    (Ast.Identifier "CardHeader").

(** [Card['Header'] = CardHeader]: the property is a string literal. *)
Definition attachHeaderByKey : value :=
  Ast.AssignmentExpression
    (Ast.Node "MemberExpression" None
       [("object", Ast.Identifier "Card");
        ("property", Ast.Literal (VStr "Header") "'Header'");
        ("computed", VBool true); ("optional", VBool false)])
    (Ast.Identifier "CardHeader").

(** [const name = () => <div />] *)
Definition ArrowComponent (name : string) : value :=
  Ast.VariableDeclarator name (Ast.ArrowFunctionExpression [] Ast.JSXElement).

(** An assignment to a property, with the identifier [rname] on its
    right-hand side: the exclusion as the claim words it. *)
Definition assignsProperty (n : value) (rname : value) : Prop :=
  nodeType n = "AssignmentExpression" ∧
  ∃ left right,
    get n "left" = Some left ∧ typeIs left "MemberExpression" ∧
    get n "right" = Some right ∧ typeIs right "Identifier" ∧
    get right "name" = Some rname.

(** In [Card], [CardHeader], [Card['Header'] = CardHeader] the name
    [CardHeader] is the right-hand side of a property assignment, so
    that only [Card] should remain; the detector reports two
    components all the same. *)
Lemma computed_property_is_not_exempted :
  let nodes := [Ast.Component "Card"; Ast.Component "CardHeader"; attachHeaderByKey] in
  assignsProperty attachHeaderByKey (VStr "CardHeader")
  ∧ definitions nodes
    = [ {| name := VStr "Card"; cnode := Ast.Component "Card";
           isCompoundChild := false |};
        {| name := VStr "CardHeader"; cnode := Ast.Component "CardHeader";
           isCompoundChild := false |} ]
  ∧ lint nodes
    = [ {| node := Ast.Component "CardHeader";
           messageId := "multipleComponents";
           data := [("count", VNum 2);
                    ("componentNames", VStr "Card, CardHeader")];
           fix_ := None |} ].
Proof.
  split; [|split; reflexivity].
  split; [reflexivity|]. eexists _, _. repeat split; reflexivity.
Qed.

(** C3, as amended.  At the end of the file the detector excludes every
    collected definition whose name some assignment of the file, before
    or after it, attaches as a property: an assignment whose left side
    is a member access with an identifier as object and an identifier
    as property, and whose right side is an identifier.  When more than
    one definition remains it reports once, on the second of them, with
    the number of remaining definitions and their names joined by a
    comma; otherwise it reports nothing.  The definitions are those of
    the function declarations, class declarations and variable
    declarators that the classifier takes for a component, one for each
    such node, in the order of the nodes. *)
Theorem duplicate_definitions_reported :
  (∀ nodes,
     lint nodes = match remaining nodes with
                  | _ :: second :: _ =>
                      [multipleComponents second (remaining nodes)]
                  | _ => []
                  end)
  ∧ (∀ nodes c,
       In c (remaining nodes) ↔
       In c (definitions nodes)
       ∧ ¬ ∃ n rname, In n nodes ∧ identifierPropertyAssignment n rname
                      ∧ strictEq (name c) rname = true)
  ∧ (∀ nodes c,
       In c (definitions nodes) →
       In (cnode c) nodes ∧ isReactComponent (cnode c) = true)
  ∧ (∀ n nodes, definitions (n :: nodes) = definedBy n ++ definitions nodes)
  ∧ (∀ n c, collected n c → definedBy n = [c])
  ∧ (∀ n, (¬ ∃ c, collected n c) → definedBy n = [])
  ∧ lint [Ast.Component "Card"; Ast.Component "CardHeader"; attachHeader] = []
  ∧ lint [attachHeader; Ast.Component "Card"; Ast.Component "CardHeader"] = []
  ∧ lint [Ast.Component "Card"; Ast.Component "CardHeader"]
    = [ {| node := Ast.Component "CardHeader";
           messageId := "multipleComponents";
           data := [("count", VNum 2);
                    ("componentNames", VStr "Card, CardHeader")];
           fix_ := None |} ]
  ∧ lint [ArrowComponent "List"; Ast.Component "Item"; ArrowComponent "Row"]
    = [ {| node := Ast.Component "Item";
           messageId := "multipleComponents";
           data := [("count", VNum 3);
                    ("componentNames", VStr "List, Item, Row")];
           fix_ := None |} ].
Proof.
  split; [exact lint_spec|]. split; [|split; [|split; [|split; [|split]]]].
  - intros nodes c. unfold remaining. rewrite filter_In, negb_true_iff.
    rewrite <- isAssigned_spec. by destruct (isAssigned nodes (name c)); intuition.
  - intros nodes c Hin.
    pose proof (definitions_spec nodes) as H. rewrite Forall_forall in H.
    apply list_elem_of_In, H in Hin. tauto.
  - reflexivity.
  - exact definedBy_collected.
  - intros n Hnone. destruct (definedBy_cases n) as [H | (c & _ & Hc)]; [done|].
    exfalso. apply Hnone. by exists c.
  - repeat split; vm_compute; reflexivity.
Qed.

End ComponentFacts.

(** ** The strategy selector and the import edit *)
Module ImportFacts.
Import JS Host Imports JSFacts.

Definition reactMemoNoUpdate : MemoStrategy :=
  {| memoReference := "React.memo"; needsMemoImport := false;
     importUpdateStrategy := NO_UPDATE |}.

Definition appendMemo (insertPosition : Z) : ImportUpdateResult :=
  {| fixes := [insertAt insertPosition ", memo"]; updatedImports := ["memo"] |}.

(** [import React from 'react'] is analysed as a default-only import;
    the selector answers [NO_UPDATE] and no import edit is made. *)
Lemma default_import_gets_no_edit :
  let analysis := analyzeReactImport Ast.defaultImportProgram in
  style analysis = DEFAULT_ONLY
  ∧ hasMemoImport analysis = false
  ∧ selectMemoStrategy analysis = reactMemoNoUpdate
  ∧ updateImports (selectMemoStrategy analysis) (importNode analysis)
      Ast.defaultImportProgram = noUpdate.
Proof. repeat split; vm_compute; reflexivity. Qed.

(** C4, as amended.  The selector is a total decision table on
    [hasMemoImport] and [style].  When [memo] is not imported yet: a
    named-only import gets the strategy [ADD_TO_NAMED], whose edit
    appends [", memo"] after the last named specifier; a default-only
    import gets [NO_UPDATE] with the reference [React.memo] and no
    import edit. *)
Theorem memo_strategy_by_import_style analysis programNode :
  hasMemoImport analysis = false →
  (importUpdateStrategy (selectMemoStrategy analysis) =
     match style analysis with
     | NAMESPACE | DEFAULT_ONLY => NO_UPDATE
     | NAMED_ONLY | MIXED => ADD_TO_NAMED
     | NONE => CREATE_NEW_IMPORT
     end)
  ∧ (style analysis = DEFAULT_ONLY →
     selectMemoStrategy analysis = reactMemoNoUpdate
     ∧ updateImports (selectMemoStrategy analysis) (importNode analysis)
         programNode = noUpdate)
  ∧ (style analysis = NAMED_ONLY →
     ∀ r fs specifiers named s e fs',
       importNode analysis = VObj (Some r) fs →
       lookup "specifiers" fs = VArr specifiers →
       AstHelpers.filterM isImportSpecifier specifiers = Some named →
       List.last named VUndef = VObj (Some (s, e)) fs' →
       memoReference (selectMemoStrategy analysis) = "memo"
       ∧ updateImports (selectMemoStrategy analysis) (importNode analysis)
           programNode = appendMemo e).
Proof.
  intros Hmemo. unfold selectMemoStrategy. rewrite Hmemo.
  split; [by destruct (style analysis)|]. split.
  - by intros ->.
  - intros -> r fs specifiers named s e fs' Hnode Hspecs Hnamed Hlast.
    split; [done|].
    unfold updateImports, updateImports_try. cbn. rewrite Hnode. cbn.
    rewrite Hspecs. cbn. rewrite Hnamed. cbn.
    destruct named as [|x named]; [done|]. cbn [length Nat.eqb when seq].
    by rewrite Hlast.
Qed.

Lemma memo_strategy_by_import_style_witness :
  let analysis := analyzeReactImport Ast.namedImportProgram in
  hasMemoImport analysis = false
  ∧ style analysis = NAMED_ONLY
  ∧ updateImports (selectMemoStrategy analysis) (importNode analysis)
      Ast.namedImportProgram = appendMemo 17.
Proof.
  split; [reflexivity|]. split; [reflexivity|].
  eapply (memo_strategy_by_import_style
            (analyzeReactImport Ast.namedImportProgram) Ast.namedImportProgram);
    reflexivity.
Defined.

End ImportFacts.

(** ** The type-annotation fix *)
Module TypeAnnotationFacts.
Import JS Host TypeAnnotation JSFacts.

(** [function Icon({ size }: Props) { return <div />; }] in a file
    without an import of [react-native-svg]. *)
Definition destructuredIcon : value :=
  Ast.FunctionDeclaration "Icon" [Ast.ObjectPatternParam (Some (14, 29))]
    [Ast.ReturnStatement Ast.JSXElement].

(** The first parameter is a pattern that carries a type annotation,
    and the synthesizer still returns an edit: the import line. *)
Lemma annotated_pattern_param_gets_an_edit :
  let strategy := getTypeAnnotationStrategy REACT_NATIVE Imports.NONE in
  let program := Ast.Program (Some (0, 60)) [destructuredIcon] in
  (∃ params firstParam ta,
      get destructuredIcon "params" = Some params
      ∧ first params = Some firstParam
      ∧ get firstParam "typeAnnotation" = Some ta ∧ truthy ta = true)
  ∧ addTypeAnnotation destructuredIcon strategy program
    = {| fixes := [Imports.insertAt 0
                     ("import { SvgProps, Svg } from 'react-native-svg';"
                      +:+ String "010" "")];
         success := true |}.
Proof.
  split; [|vm_compute; reflexivity].
  eexists _, _, _. repeat split; vm_compute; reflexivity.
Qed.

Lemma gtZero_length (x : value) (l : list value) :
  gtZero (VNum (Z.of_nat (length (x :: l)))) = true.
Proof. cbn [gtZero]. apply Z.ltb_lt. cbn [length]. lia. Qed.

(** The shared block returns "no fix" on an annotated identifier. *)
Lemma annotateFirstParam_annotated fn strategy fixes firstParam rest ta :
  get fn "params" = Some (VArr (firstParam :: rest)) →
  typeIs firstParam "Identifier" →
  get firstParam "typeAnnotation" = Some ta → truthy ta = true →
  annotateFirstParam fn strategy fixes = Returned noFix.
Proof.
  intros Hparams Hty Hta Htruthy. unfold annotateFirstParam.
  rewrite Hparams. cbn. rewrite Hty. cbn. rewrite Hta. cbn.
  by rewrite ?String.eqb_refl, Htruthy.
Qed.

(** C9, as amended.  When the first parameter of the component, a
    function declaration or a variable bound to an arrow function, is
    an identifier that carries a type annotation, the synthesizer
    returns no edit and [success = false], for every strategy and
    program. *)
Theorem annotated_identifier_param_gets_no_fix
    componentNode fn strategy programNode firstParam rest ta :
  (typeIs componentNode "FunctionDeclaration" ∧ fn = componentNode)
  ∨ (typeIs componentNode "VariableDeclarator"
     ∧ get componentNode "init" = Some fn
     ∧ typeIs fn "ArrowFunctionExpression") →
  get fn "params" = Some (VArr (firstParam :: rest)) →
  typeIs firstParam "Identifier" →
  get firstParam "typeAnnotation" = Some ta → truthy ta = true →
  addTypeAnnotation componentNode strategy programNode
  = {| fixes := []; success := false |}.
Proof.
  intros Hshape Hparams Hty Hta Htruthy.
  unfold addTypeAnnotation, addTypeAnnotation_try.
  destruct Hshape as [[Hfd ->] | (Hvd & Hinit & Harrow)].
  - unfold annotateFunctionDeclaration. rewrite Hfd. cbn.
    rewrite Hparams. cbn [mbind option_bind evalS get String.eqb Ascii.eqb Bool.eqb].
    rewrite gtZero_length.
    by rewrite (annotateFirstParam_annotated _ _ _ _ _ _ Hparams Hty Hta Htruthy).
  - unfold annotateFunctionDeclaration, annotateVariableDeclarator.
    rewrite Hvd. cbn. rewrite Hinit. cbn.
    rewrite (typeIs_truthy _ _ Harrow), Harrow. cbn.
    rewrite Hparams. cbn [mbind option_bind evalS get String.eqb Ascii.eqb Bool.eqb].
    rewrite gtZero_length.
    rewrite (annotateFirstParam_annotated _ _ _ _ _ _ Hparams Hty Hta Htruthy).
    by rewrite Hvd.
Qed.

(** [const Icon = (props: Props) => <div />] *)
Lemma annotated_identifier_param_gets_no_fix_witness :
  let arrow := Ast.ArrowFunctionExpression
                 [Ast.Param (Some (14, 19)) "props" true] Ast.JSXElement in
  addTypeAnnotation (Ast.VariableDeclarator "Icon" arrow)
    (getTypeAnnotationStrategy REACT_NATIVE Imports.NONE)
    (Ast.Program (Some (0, 40)) [])
  = {| fixes := []; success := false |}.
Proof.
  intros arrow.
  apply (annotated_identifier_param_gets_no_fix
           (Ast.VariableDeclarator "Icon" arrow) arrow _ _
           (Ast.Param (Some (14, 19)) "props" true) []
           (Ast.Node "TSTypeAnnotation" None []));
    [right; repeat split | ..]; reflexivity.
Defined.

End TypeAnnotationFacts.

(** ** The empty-handler detector *)
Module CatchFacts.
Import JS Host AstHelpers NoEmptyCatch JSFacts.

(** What the search does with the value of one property. *)
Definition visit (paramName value : value) : bool :=
  match value with
  | VArr items =>
      existsb (fun item => isNodeLike item && traverse paramName item) items
  | VObj _ _ => isNodeLike value && traverse paramName value
  | _ => false
  end.

Lemma traverse_obj paramName r fs :
  traverse paramName (VObj r fs) =
  (isStr (lookup "type" fs) "Identifier" && strictEq (lookup "name" fs) paramName)
  || existsb (fun kv => negb (skippedKey kv.1) && visit paramName kv.2) fs.
Proof. reflexivity. Qed.

Lemma traverse_arr paramName items :
  traverse paramName (VArr items) = existsb (visit paramName) items.
Proof. reflexivity. Qed.

(** The nodes the search moves to from a node: the node-like values of
    its properties, and the node-like elements of its array-valued
    properties, except under the keys [parent], [range] and [loc].  An
    array that is searched itself counts as an object whose properties
    are its elements. *)
Inductive child : value → value → Prop :=
  | child_field r fs k c :
      In (k, c) fs → skippedKey k = false → isNodeLike c = true →
      child (VObj r fs) c
  | child_item r fs k items c :
      In (k, VArr items) fs → skippedKey k = false →
      In c items → isNodeLike c = true →
      child (VObj r fs) c
  | child_element items c :
      In c items → isNodeLike c = true → child (VArr items) c
  | child_nested items items' c :
      In (VArr items') items → In c items' → isNodeLike c = true →
      child (VArr items) c.

(** An [Identifier] node whose name is [paramName]. *)
Definition isIdentifierNamed (paramName n : value) : Prop :=
  ∃ r fs, n = VObj r fs ∧ lookup "type" fs = VStr "Identifier"
          ∧ strictEq (lookup "name" fs) paramName = true.

(** Such an identifier occurs somewhere below (or at) [block]. *)
Definition occursIn (paramName block : value) : Prop :=
  ∃ n, rtc child block n ∧ isIdentifierNamed paramName n.


Lemma isNodeLike_obj v : isNodeLike v = true → ∃ r fs, v = VObj r fs.
Proof. destruct v; try done. eauto. Qed.

Lemma traverse_identifier paramName n :
  isIdentifierNamed paramName n → traverse paramName n = true.
Proof.
  intros (r & fs & -> & Hty & Hname). rewrite traverse_obj, Hty, Hname. done.
Qed.

Lemma traverse_child paramName a c :
  child a c → traverse paramName c = true → traverse paramName a = true.
Proof.
  intros Hchild Hc. destruct Hchild as
    [r fs k c Hin Hk Hnode | r fs k items c Hin Hk Hitem Hnode
    | items c Hin Hnode | items items' c Hin Hitem Hnode].
  - rewrite traverse_obj. apply orb_true_iff. right.
    apply existsb_exists. exists (k, c). split; [done|]. cbn. rewrite Hk. cbn.
    destruct (isNodeLike_obj _ Hnode) as (r' & fs' & ->). cbn [visit].
    by rewrite Hnode, Hc.
  - rewrite traverse_obj. apply orb_true_iff. right.
    apply existsb_exists. exists (k, VArr items). split; [done|]. cbn. rewrite Hk. cbn.
    apply existsb_exists. exists c. by rewrite Hnode, Hc.
  - rewrite traverse_arr. apply existsb_exists. exists c. split; [done|].
    destruct (isNodeLike_obj _ Hnode) as (r' & fs' & ->). cbn [visit].
    by rewrite Hnode, Hc.
  - rewrite traverse_arr. apply existsb_exists. exists (VArr items').
    split; [done|]. cbn [visit]. apply existsb_exists. exists c.
    by rewrite Hnode, Hc.
Qed.

Lemma occursIn_child paramName a c :
  child a c → occursIn paramName c → occursIn paramName a.
Proof. intros Hchild (n & Hrtc & Hid). exists n. split; [by eapply rtc_l | done]. Qed.

(** The search finds exactly the identifiers that occur in the block. *)
Lemma traverse_spec paramName block :
  traverse paramName block = true ↔ occursIn paramName block.
Proof.
  split.
  - set (P := fun v => traverse paramName v = true → occursIn paramName v).
    enough (HQ : P block ∧ match block with
                            | VArr items => Forall P items
                            | _ => True
                            end) by apply HQ.
    induction block as [| |b|n|s|items IH|r fs IH] using value_ind';
      try (split; [done|exact I]).
    + assert (HP : Forall P items).
      { eapply Forall_impl; [exact IH|]. by intros x [? _]. }
      split; [|done]. intros H. rewrite traverse_arr in H.
      apply existsb_exists in H as (item & Hin & Hvisit).
      rewrite Forall_forall in IH, HP.
      destruct item as [| | | | |items'|r fs]; try done; cbn [visit] in Hvisit.
      * apply existsb_exists in Hvisit as (c & Hc & Hcv).
        apply andb_true_iff in Hcv as [Hnode Htr].
        destruct (IH (VArr items')) as [_ Hitems']; [by apply list_elem_of_In|].
        rewrite Forall_forall in Hitems'.
        eapply occursIn_child; [by eapply child_nested|].
        apply Hitems'; [by apply list_elem_of_In | done].
      * apply andb_true_iff in Hvisit as [Hnode Htr].
        eapply occursIn_child; [by eapply child_element|].
        apply HP; [by apply list_elem_of_In | done].
    + split; [|done]. intros H. rewrite traverse_obj in H.
      apply orb_true_iff in H as [H|H].
      * apply andb_true_iff in H as [Hty Hname]. apply isStr_true in Hty.
        exists (VObj r fs). split; [done|]. by exists r, fs.
      * apply existsb_exists in H as ([k v] & Hin & Hkv). cbn in Hkv.
        apply andb_true_iff in Hkv as [Hk Hvisit]. apply negb_true_iff in Hk.
        rewrite Forall_forall in IH.
        destruct (IH (k, v)) as [HPv HQv]; [by apply list_elem_of_In|]. cbn in HPv, HQv.
        destruct v as [| | | | |items|r' fs']; try done; cbn [visit] in Hvisit.
        -- apply existsb_exists in Hvisit as (c & Hc & Hcv).
           apply andb_true_iff in Hcv as [Hnode Htr].
           rewrite Forall_forall in HQv.
           eapply occursIn_child; [by eapply child_item|].
           apply HQv; [by apply list_elem_of_In | done].
        -- apply andb_true_iff in Hvisit as [Hnode Htr].
           eapply occursIn_child; [by eapply child_field|]. by apply HPv.
  - intros (n & Hrtc & Hid). induction Hrtc as [n | a c n Hchild _ IH].
    + by apply traverse_identifier.
    + eapply traverse_child; [done | by apply IH].
Qed.

Lemma isZero_length (x : value) (l : list value) :
  isZero (VNum (Z.of_nat (length (x :: l)))) = false.
Proof. cbn [isZero]. apply Z.eqb_neq. cbn [length]. lia. Qed.

(** A clause with a block of at least one statement is not empty. *)
Lemma nonempty_block_not_empty clause body stmt stmts :
  get clause "body" = Some body → typeIs body "BlockStatement" →
  get body "body" = Some (VArr (stmt :: stmts)) →
  isEffectivelyEmpty clause = false.
Proof.
  intros Hbody Hty Hstmts. unfold isEffectivelyEmpty, isEffectivelyEmpty_try.
  rewrite Hbody. cbn. rewrite (typeIs_truthy _ _ Hty), Hty. cbn.
  rewrite Hstmts. cbn [eval get String.eqb Ascii.eqb Bool.eqb].
  by rewrite isZero_length.
Qed.

Definition unusedParam (param paramName : value) : Diagnostic :=
  {| node := param; messageId := "unusedParam";
     data := [("paramName", paramName)]; fix_ := None |}.

(** The [emptyCatch] report; the fix is absent when the callback
    returns [null]. *)
Definition emptyCatch (sourceCode : SourceCode) (clause : value) : Diagnostic :=
  {| node := clause; messageId := "emptyCatch"; data := [];
     fix_ := default None (emptyCatchFix sourceCode clause) |}.

(** C5.  On a catch clause whose block has at least one statement, that
    has no ignore-intent comment, and in whose block no identifier with
    the name of the bound parameter occurs, the detector reports exactly
    once: the unused-parameter diagnostic, on the parameter, with the
    parameter's name as data and without a fix. *)
Theorem unused_param_reported_alone
    sourceCode clause param p body stmt stmts :
  get clause "param" = Some param →
  typeIs param "Identifier" → get param "name" = Some (VStr p) →
  get clause "body" = Some body →
  typeIs body "BlockStatement" → get body "body" = Some (VArr (stmt :: stmts)) →
  hasIntentionalIgnoreComment clause sourceCode = false →
  ¬ occursIn (VStr p) body →
  CatchClause sourceCode clause = [unusedParam param (VStr p)].
Proof.
  intros Hparam Hpty Hname Hbody Hbty Hstmts Hignore Hunused.
  unfold CatchClause.
  rewrite (nonempty_block_not_empty _ _ _ _ Hbody Hbty Hstmts), Hignore.
  unfold reportEmptyCatch, reportUnusedParam_try. cbn.
  rewrite Hparam. cbn. rewrite (typeIs_truthy _ _ Hpty). cbn.
  rewrite Hpty. cbn. rewrite Hname. cbn. rewrite Hbody. cbn.
  destruct (checkIfParamUsed body (VStr p)) eqn:Hused; [|done].
  exfalso. apply Hunused. by apply traverse_spec.
Qed.

(** [catch (error) { console.log('x'); }] *)
Lemma unused_param_reported_alone_witness :
  CatchClause Ast.noComments Ast.logCatchClause
  = [unusedParam (Ast.Identifier "error") (VStr "error")].
Proof.
  eapply (unused_param_reported_alone Ast.noComments Ast.logCatchClause);
    try reflexivity.
  intros H. apply traverse_spec in H. vm_compute in H. discriminate H.
Defined.


(** The valid and invalid cases of the rule's test file. *)
Example rule_tester_cases :
  CatchClause Ast.noComments Ast.handledClause = []
  ∧ CatchClause (Ast.withComment " intentionally ignored")
      (Ast.commentedClause VNull) = []
  ∧ CatchClause (Ast.withComment " no-op") (Ast.commentedClause VNull) = []
  ∧ CatchClause (Ast.withComment " deliberately ignored")
      (Ast.commentedClause (Ast.Identifier "e")) = []
  ∧ CatchClause Ast.noComments Ast.errorOccurredClause
    = [unusedParam (Ast.Identifier "error") (VStr "error")]
  ∧ CatchClause (Ast.withComment " TODO") (Ast.commentedClause VNull)
    = [emptyCatch (Ast.withComment " TODO") (Ast.commentedClause VNull)].
Proof. repeat split; vm_compute; reflexivity. Qed.

(** C1.  On [catch (e) {}] the detector reports [emptyCatch] with a fix
    that inserts [" // intentionally ignored"] at offset 5, right after
    the [catch] keyword.  The fixed text is
    [catch // intentionally ignored (e) {}]: the line comment that
    starts at offset 6 runs to the end of the text and takes the
    parameter and the block with it. *)
Theorem empty_catch_fix_output :
  let edit := {| edit_range := (5, 5); edit_text := " // intentionally ignored" |} in
  let fixed := applyEdit Ast.emptyCatchText edit in
  CatchClause Ast.emptyCatchSource Ast.emptyCatchClause
  = [ {| node := Ast.emptyCatchClause; messageId := "emptyCatch"; data := [];
         fix_ := Some edit |} ]
  ∧ fixed = "catch // intentionally ignored (e) {}"
  ∧ fixed ≠ "catch (e) { /* intentional ignore marker */ }"
  ∧ Str.drop 6 fixed = "// intentionally ignored (e) {}"
  ∧ Str.lineRest (Str.drop 6 fixed) = Str.drop 6 fixed.
Proof. repeat split; try reflexivity. intros H. discriminate H. Qed.

End CatchFacts.

(** ** Failures at the boundary of classifiers and listeners *)
Module BoundaryFacts.
Import JS Host AstHelpers JSFacts.

Lemma get_some_get v k x k' : get v k = Some x → is_Some (get v k').
Proof. destruct v; try done; by eexists. Qed.

Lemma truthy_get v k : truthy v = true → is_Some (get v k).
Proof. destruct v; try done; by eexists. Qed.

(** When the clause is not empty its [body] was read, so the clause is
    an object. *)
Lemma not_empty_readable v k :
  isEffectivelyEmpty v = false → is_Some (get v k).
Proof.
  unfold isEffectivelyEmpty, isEffectivelyEmpty_try.
  destruct (get v "body") as [body|] eqn:Hbody; [|done].
  intros _. by eapply get_some_get.
Qed.

(** The block of the [CatchClause] listener that reports an unused
    parameter cannot throw. *)
Lemma reportUnusedParam_total v ignored :
  is_Some (NoEmptyCatch.reportUnusedParam_try v (isEffectivelyEmpty v) ignored).
Proof.
  unfold NoEmptyCatch.reportUnusedParam_try.
  destruct (isEffectivelyEmpty v) eqn:Hempty; cbn; [by eexists|].
  destruct ignored; cbn; [by eexists|].
  destruct (not_empty_readable v "param" Hempty) as [param Hparam].
  rewrite Hparam. cbn. destruct (truthy param) eqn:Htruthy; [|by eexists].
  destruct (truthy_get param "type" Htruthy) as [pty Hpty].
  destruct (truthy_get param "name" Htruthy) as [pn Hpn].
  destruct (not_empty_readable v "body" Hempty) as [body Hbody].
  rewrite Hpty. cbn. destruct (isStr pty "Identifier"); [|by eexists].
  rewrite Hpn. cbn. rewrite Hbody. cbn.
  destruct (negb _); by eexists.
Qed.

(** A node that cannot be read at all. *)
Definition unreadable (v : value) : Prop := v = VNull ∨ v = VUndef.

(** A child that is not there: the property is absent or [null]. *)
Definition missing (child : option value) : Prop :=
  child = Some VUndef ∨ child = Some VNull.

(** The clauses that do not count as empty: the body is a block
    statement with a statement list of a length other than 0. *)
Lemma isEffectivelyEmpty_spec clause :
  isEffectivelyEmpty clause = false ↔
  ∃ body stmts len,
    get clause "body" = Some body ∧ typeIs body "BlockStatement"
    ∧ get body "body" = Some stmts ∧ get stmts "length" = Some len
    ∧ isZero len = false.
Proof.
  unfold isEffectivelyEmpty, isEffectivelyEmpty_try, typeIs. split.
  - intros H.
    destruct (get clause "body") as [body|] eqn:Hbody; [|done]. cbn in H.
    destruct (truthy body) eqn:Htruthy; [|done]. cbn in H.
    destruct (get body "type") as [ty|] eqn:Hty; [|done]. cbn in H.
    destruct (isStr ty "BlockStatement") eqn:Hblock; [|done]. cbn in H.
    apply isStr_true in Hblock as ->.
    destruct (get body "body") as [stmts|] eqn:Hstmts; [|done]. cbn in H.
    destruct (get stmts "length") as [len|] eqn:Hlen; [|done]. cbn in H.
    by exists body, stmts, len.
  - intros (body & stmts & len & Hbody & Hty & Hstmts & Hlen & Hzero).
    rewrite Hbody. cbn. rewrite (typeIs_truthy _ _ Hty), Hty. cbn.
    rewrite Hstmts. cbn. rewrite Hlen. cbn. done.
Qed.

(** A clause that counts as empty gets the [emptyCatch] report, unless
    an ignore comment is found or the fix callback throws, and nothing
    else. *)
Lemma CatchClause_empty sourceCode v :
  isEffectivelyEmpty v = true →
  NoEmptyCatch.CatchClause sourceCode v =
  if hasIntentionalIgnoreComment v sourceCode then []
  else match NoEmptyCatch.emptyCatchFix sourceCode v with
       | Some edit => [ {| node := v; messageId := "emptyCatch"; data := [];
                           fix_ := edit |} ]
       | None => []
       end.
Proof.
  intros Hempty. unfold NoEmptyCatch.CatchClause. rewrite Hempty.
  unfold NoEmptyCatch.reportEmptyCatch, NoEmptyCatch.reportUnusedParam_try.
  destruct (hasIntentionalIgnoreComment v sourceCode); cbn; [done|].
  by destruct (NoEmptyCatch.emptyCatchFix sourceCode v).
Qed.

(** A clause without a body, or with a body that is no block statement,
    is taken by the guards of both helpers. *)
Lemma no_block_body clause body sourceCode :
  get clause "body" = Some body → ¬ typeIs body "BlockStatement" →
  isEffectivelyEmpty_try clause = Return true
  ∧ hasIntentionalIgnoreComment_try clause sourceCode = Return false.
Proof.
  intros Hbody Hty.
  unfold isEffectivelyEmpty_try, hasIntentionalIgnoreComment_try, typeIs in *.
  rewrite Hbody. cbn. destruct (truthy body) eqn:Htruthy; cbn; [|done].
  destruct (truthy_get body "type" Htruthy) as [ty Hget]. rewrite Hget in *. cbn.
  destruct (isStr ty "BlockStatement") eqn:Hblock; [|done].
  apply isStr_true in Hblock as ->. done.
Qed.

(** A block statement without a statement list: reading the length of
    the list fails. *)
Lemma no_statement_list clause body :
  get clause "body" = Some body → typeIs body "BlockStatement" →
  missing (get body "body") →
  isEffectivelyEmpty_try clause = Throw.
Proof.
  intros Hbody Hty Hmissing. unfold isEffectivelyEmpty_try.
  rewrite Hbody. cbn. rewrite (typeIs_truthy _ _ Hty), Hty. cbn.
  by destruct Hmissing as [-> | ->].
Qed.

(** [catch (e) {}] whose block lost its statement list:
    [isEffectivelyEmpty] fails inside and answers [true], and the
    detector reports the clause, with its fix.  The type guards have no
    [try] block: they throw on a node, or a child, that cannot be
    read. *)
Lemma malformed_clause_is_reported :
  isEffectivelyEmpty_try Ast.malformedClause = Throw
  ∧ isEffectivelyEmpty Ast.malformedClause = true
  ∧ NoEmptyCatch.CatchClause Ast.emptyCatchSource Ast.malformedClause
    = [ {| node := Ast.malformedClause; messageId := "emptyCatch"; data := [];
           fix_ := Some {| edit_range := (5, 5);
                           edit_text := " // intentionally ignored" |} |} ]
  ∧ AstGuards.isJSXElement VNull = None
  ∧ AstGuards.isValidJSXAttribute (Ast.Node "JSXAttribute" None []) = None
  ∧ AstGuards.getJSXElementName (Ast.Node "JSXElement" None []) = None.
Proof. repeat split; reflexivity. Qed.

(** C8, as amended.  The functions with a [try] block contain their
    failures.  [isEffectivelyEmpty] answers [false] only for a block
    with a statement list that is not empty: it answers [true] on a
    missing body and on a body that is no block (its guard), and on a
    block without a statement list (its [catch]).  A clause that counts
    as empty is reported unless an ignore comment is found; the report
    is dropped when the fix callback throws, which it does on a clause
    without a range.  The block that reports an unused parameter never
    fails.  On a node that cannot be read, and on a node that lacks the
    child a classifier reads, the classifiers answer [false], the
    analyses give their neutral result, and the listeners report
    nothing and leave their state as it was.  The type guards, which
    have no [try] block, throw on such nodes. *)
Theorem failures_are_contained :
  (∀ clause,
      isEffectivelyEmpty clause = false ↔
      ∃ body stmts len,
        get clause "body" = Some body ∧ typeIs body "BlockStatement"
        ∧ get body "body" = Some stmts ∧ get stmts "length" = Some len
        ∧ isZero len = false)
  ∧ (∀ clause body sc,
      get clause "body" = Some body → ¬ typeIs body "BlockStatement" →
      isEffectivelyEmpty_try clause = Return true
      ∧ isEffectivelyEmpty clause = true
      ∧ hasIntentionalIgnoreComment clause sc = false)
  ∧ (∀ clause body,
      get clause "body" = Some body → typeIs body "BlockStatement" →
      missing (get body "body") →
      isEffectivelyEmpty_try clause = Throw ∧ isEffectivelyEmpty clause = true)
  ∧ (∀ sc clause,
      isEffectivelyEmpty clause = true →
      NoEmptyCatch.CatchClause sc clause =
      if hasIntentionalIgnoreComment clause sc then []
      else match rangeOf clause with
           | Some (Some (start, end_)) =>
               [ {| node := clause; messageId := "emptyCatch"; data := [];
                    fix_ := option_map
                              (λ catchKeyword,
                                 insertTextAfter catchKeyword
                                   " // intentionally ignored")
                              (List.find
                                 (λ t, (start <=? (token_range t).1)
                                       && ((token_range t).1 <? end_))
                                 (tokens sc)) |} ]
           | _ => []
           end)
  ∧ (∀ sc clause,
      is_Some (NoEmptyCatch.reportUnusedParam_try clause
                 (isEffectivelyEmpty clause)
                 (hasIntentionalIgnoreComment clause sc)))
  ∧ (∀ v, unreadable v →
      isEffectivelyEmpty v = true
      ∧ (∀ sc, hasIntentionalIgnoreComment v sc = false
               ∧ NoEmptyCatch.CatchClause sc v = [])
      ∧ returnsJSX v = false ∧ isReactComponent v = false
      ∧ AstGuards.isFormHook v = false
      ∧ NoResponseDataReturn.isResponseDataAccess v = false
      ∧ NoResponseDataReturn.isDirectResponseDataReturn v = false
      ∧ NoResponseDataReturn.ReturnStatement v = []
      ∧ (∀ st, OneComponentPerFile.AssignmentExpression v st = st
               ∧ OneComponentPerFile.FunctionDeclaration v st = st
               ∧ OneComponentPerFile.VariableDeclarator v st = st
               ∧ OneComponentPerFile.ClassDeclaration v st = st)
      ∧ Imports.analyzeReactImport v = Imports.noReactImport
      ∧ (∀ strategy importNode,
           Imports.importUpdateStrategy strategy = Imports.CREATE_NEW_IMPORT →
           Imports.updateImports strategy importNode v = Imports.noUpdate)
      ∧ (∀ strategy programNode,
           Imports.importUpdateStrategy strategy ≠ Imports.CREATE_NEW_IMPORT →
           Imports.updateImports strategy v programNode = Imports.noUpdate)
      ∧ (∀ strategy programNode,
           TypeAnnotation.addTypeAnnotation v strategy programNode
           = TypeAnnotation.noFix))
  ∧ (∀ node superClass,
      typeIs node "ClassDeclaration" →
      get node "superClass" = Some superClass →
      typeIs superClass "MemberExpression" →
      missing (get superClass "object") →
      isReactComponent_try node = Throw ∧ isReactComponent node = false)
  ∧ (∀ node body,
      get node "body" = Some body → typeIs body "BlockStatement" →
      missing (get body "body") →
      returnsJSX_try node = Throw ∧ returnsJSX node = false)
  ∧ (∀ node,
      missing (get node "property") →
      NoResponseDataReturn.isResponseDataAccess_try node = Throw
      ∧ NoResponseDataReturn.isResponseDataAccess node = false)
  ∧ (∀ node arg,
      get node "argument" = Some arg → typeIs arg "ChainExpression" →
      missing (get arg "expression") →
      NoResponseDataReturn.isDirectResponseDataReturn_try node = Throw
      ∧ NoResponseDataReturn.ReturnStatement node = [])
  ∧ (∀ node st,
      missing (get node "left") →
      OneComponentPerFile.AssignmentExpression_try node st = None
      ∧ OneComponentPerFile.AssignmentExpression node st = st)
  ∧ (∀ node st,
      isReactComponent node = true → missing (get node "id") →
      OneComponentPerFile.VariableDeclarator_try node st = None
      ∧ OneComponentPerFile.VariableDeclarator node st = st)
  ∧ (∀ programNode,
      missing (get programNode "body") →
      Imports.analyzeReactImport_try programNode = Throw
      ∧ Imports.analyzeReactImport programNode = Imports.noReactImport)
  ∧ (∀ componentNode strategy programNode,
      typeIs componentNode "FunctionDeclaration" →
      missing (get componentNode "params") →
      TypeAnnotation.addTypeAnnotation_try componentNode strategy programNode
      = TypeAnnotation.Threw
      ∧ TypeAnnotation.addTypeAnnotation componentNode strategy programNode
        = TypeAnnotation.noFix)
  ∧ (∀ v, unreadable v →
      AstGuards.isJSXElement v = None
      ∧ AstGuards.isValidJSXAttribute v = None
      ∧ AstGuards.validateJSXElement v = None
      ∧ AstGuards.validateJSXAttribute v = None
      ∧ AstGuards.getJSXElementName v = None)
  ∧ (∀ node,
      typeIs node "JSXAttribute" → missing (get node "name") →
      AstGuards.isValidJSXAttribute node = None)
  ∧ (∀ node,
      missing (get node "openingElement") →
      AstGuards.getJSXElementName node = None).
Proof.
  split; [exact isEffectivelyEmpty_spec|].
  split.
  { intros clause body sc Hbody Hty.
    destruct (no_block_body clause body sc Hbody Hty) as [Hempty Hignore].
    unfold isEffectivelyEmpty, hasIntentionalIgnoreComment.
    by rewrite Hempty, Hignore. }
  split.
  { intros clause body Hbody Hty Hmissing.
    pose proof (no_statement_list clause body Hbody Hty Hmissing) as H.
    unfold isEffectivelyEmpty. by rewrite H. }
  split.
  { intros sc clause Hempty. rewrite (CatchClause_empty _ _ Hempty).
    destruct (hasIntentionalIgnoreComment clause sc); [done|].
    unfold NoEmptyCatch.emptyCatchFix, getFirstToken.
    by destruct (rangeOf clause) as [[[start end_]|]|]. }
  split; [intros sc clause; apply reportUnusedParam_total|].
  split.
  { intros v [-> | ->]; repeat split; try reflexivity;
      try (intros strategy importNode ->; reflexivity);
      intros strategy programNode Hne;
      by destruct (Imports.importUpdateStrategy strategy) eqn:Hs;
        unfold Imports.updateImports, Imports.updateImports_try; rewrite Hs. }
  split.
  { intros node superClass Hty Hsuper Hsty Hmissing.
    assert (H : isReactComponent_try node = Throw).
    { unfold isReactComponent_try. rewrite Hty. cbn. rewrite Hsuper. cbn.
      rewrite (typeIs_truthy _ _ Hsty), Hsty. cbn.
      destruct (get_some_get superClass "type" _ "property" Hsty) as [prop ->].
      by destruct Hmissing as [-> | ->]. }
    unfold isReactComponent. by rewrite H. }
  split.
  { intros node body Hbody Hty Hmissing.
    assert (H : returnsJSX_try node = Throw).
    { unfold returnsJSX_try. rewrite Hbody.
      destruct (get_some_get node "body" body "type" Hbody) as [ty Hnty].
      destruct (get_some_get node "body" body "expression" Hbody) as [e He].
      rewrite Hnty, He. cbn. rewrite (typeIs_truthy _ _ Hty), Hty. cbn.
      destruct (isStr ty "ArrowFunctionExpression"), (truthy e); cbn;
        by destruct Hmissing as [-> | ->]. }
    unfold returnsJSX. by rewrite H. }
  split.
  { intros node Hmissing.
    assert (H : NoResponseDataReturn.isResponseDataAccess_try node = Throw).
    { unfold NoResponseDataReturn.isResponseDataAccess_try.
      by destruct Hmissing as [-> | ->]. }
    unfold NoResponseDataReturn.isResponseDataAccess. by rewrite H. }
  split.
  { intros node arg Harg Hty Hmissing.
    assert (H : NoResponseDataReturn.isDirectResponseDataReturn_try node = Throw).
    { unfold NoResponseDataReturn.isDirectResponseDataReturn_try.
      rewrite Harg. cbn. rewrite (typeIs_truthy _ _ Hty), Hty. cbn.
      by destruct Hmissing as [-> | ->]. }
    unfold NoResponseDataReturn.ReturnStatement,
      NoResponseDataReturn.isDirectResponseDataReturn. by rewrite H. }
  split.
  { intros node st Hmissing.
    assert (H : OneComponentPerFile.AssignmentExpression_try node st = None).
    { unfold OneComponentPerFile.AssignmentExpression_try.
      by destruct Hmissing as [-> | ->]. }
    unfold OneComponentPerFile.AssignmentExpression. by rewrite H. }
  split.
  { intros node st Hcomp Hmissing.
    assert (H : OneComponentPerFile.VariableDeclarator_try node st = None).
    { unfold OneComponentPerFile.VariableDeclarator_try. rewrite Hcomp.
      by destruct Hmissing as [-> | ->]. }
    unfold OneComponentPerFile.VariableDeclarator. by rewrite H. }
  split.
  { intros programNode Hmissing.
    assert (H : Imports.analyzeReactImport_try programNode = Throw).
    { unfold Imports.analyzeReactImport_try. by destruct Hmissing as [-> | ->]. }
    unfold Imports.analyzeReactImport. by rewrite H. }
  split.
  { intros componentNode strategy programNode Hty Hmissing.
    assert (H : TypeAnnotation.addTypeAnnotation_try componentNode strategy programNode
                = TypeAnnotation.Threw).
    { unfold TypeAnnotation.addTypeAnnotation_try,
        TypeAnnotation.annotateFunctionDeclaration.
      rewrite Hty. cbn. by destruct Hmissing as [-> | ->]. }
    unfold TypeAnnotation.addTypeAnnotation. by rewrite H. }
  split.
  { intros v [-> | ->]; repeat split; reflexivity. }
  split.
  { intros node Hty Hmissing. unfold AstGuards.isValidJSXAttribute.
    rewrite Hty. cbn. by destruct Hmissing as [-> | ->]. }
  intros node Hmissing. unfold AstGuards.getJSXElementName.
  by destruct Hmissing as [-> | ->].
Qed.

(** [catch (e) {}] without its statement list, and a missing node. *)
Lemma failures_are_contained_witness :
  isEffectivelyEmpty Ast.malformedClause = true
  ∧ NoEmptyCatch.CatchClause Ast.emptyCatchSource Ast.malformedClause
    = [ {| node := Ast.malformedClause; messageId := "emptyCatch"; data := [];
           fix_ := Some {| edit_range := (5, 5);
                           edit_text := " // intentionally ignored" |} |} ]
  ∧ isReactComponent VUndef = false.
Proof.
  destruct failures_are_contained
    as (_ & _ & Hfail & Hcatch & _ & Hunreadable & _).
  assert (Hempty : isEffectivelyEmpty Ast.malformedClause = true).
  { eapply Hfail; [reflexivity | reflexivity | by left]. }
  split; [exact Hempty|]. split.
  - exact (Hcatch Ast.emptyCatchSource Ast.malformedClause Hempty).
  - destruct (Hunreadable VUndef) as (_ & _ & _ & H & _); [by right | exact H].
Defined.

End BoundaryFacts.

(** ** The tree walker *)
Module WalkerFacts.
Import Walker.
Local Open Scope nat_scope.

(** [b] is a node that [traverse] is called on from node [a]. *)
Definition edge (h : heap) (a b : addr) : Prop := b ∈ children h a.

(** The visitor called on the nodes of [order], first to last, until a
    call throws. *)
Fixpoint visitAll {St} (visitor : addr → St → outcome St)
    (order : list addr) (s : St) : outcome St :=
  match order with
  | [] => Returns s
  | a :: tl =>
      match visitor a s with
      | Returns s' => visitAll visitor tl s'
      | Throws s' => Throws s'
      end
  end.

(** What [traverse] answers when the visitor was called on [order]. *)
Definition ending {St} (vis' : gset addr) (o : outcome St) : run St :=
  match o with
  | Returns s' => Finished vis' s'
  | Throws s' => Aborted s'
  end.

(** The visitor that records the nodes it is called on. *)
Definition record (a : addr) (log : list addr) : outcome (list addr) :=
  Returns (log ++ [a]).

(** A visitor that records its calls and throws on node [bad]. *)
Definition recordUntil (bad : addr) (a : addr) (log : list addr)
    : outcome (list addr) :=
  if Nat.eqb a bad then Throws (log ++ [a]) else Returns (log ++ [a]).

Lemma visitAll_app {St} (visitor : addr → St → outcome St) l1 l2 s :
  visitAll visitor (l1 ++ l2) s =
  match visitAll visitor l1 s with
  | Returns s' => visitAll visitor l2 s'
  | Throws s' => Throws s'
  end.
Proof.
  revert s. induction l1 as [|a l1 IH]; intros s; cbn; [done|].
  by destruct (visitor a s).
Qed.

Section Invariants.
Variable h : heap.

(** What a traversal started on the nodes [from] with the set [vis]
    achieves when it ends with the set [vis'], having visited [l]:
    the visited nodes are new, distinct, reachable from [from], and
    all their children are marked; the nodes of [from] are
    marked. *)
Definition explores (from : list addr) (vis vis' : gset addr) (l : list addr) : Prop :=
  vis' = vis ∪ list_to_set l
  ∧ NoDup l
  ∧ (∀ a, a ∈ l → a ∉ vis)
  ∧ (∀ a, a ∈ from → a ∈ vis')
  ∧ (∀ a, a ∈ l → ∃ c, c ∈ from ∧ rtc (edge h) c a)
  ∧ (∀ a b, a ∈ l → edge h a b → b ∈ vis').

Lemma explores_nil vis : explores [] vis vis [].
Proof.
  repeat split; try set_solver. constructor.
Qed.

Lemma explores_app c cs vis vis1 vis' la lb :
  explores [c] vis vis1 la → explores cs vis1 vis' lb →
  explores (c :: cs) vis vis' (la ++ lb).
Proof.
  intros (-> & Hnd1 & Hnew1 & Hfrom1 & Hreach1 & Hcl1)
         (-> & Hnd2 & Hnew2 & Hfrom2 & Hreach2 & Hcl2).
  repeat split.
  - set_solver.
  - apply NoDup_app. repeat split; [done| |done].
    intros x Hx Hx'. apply (Hnew2 x Hx'). set_solver.
  - intros a Ha. apply elem_of_app in Ha as [Ha|Ha]; [by apply Hnew1|].
    intros Hv. apply (Hnew2 a Ha). set_solver.
  - intros a Ha. apply elem_of_cons in Ha as [->|Ha].
    + specialize (Hfrom1 c). set_solver.
    + by apply Hfrom2.
  - intros a Ha. apply elem_of_app in Ha as [Ha|Ha].
    + destruct (Hreach1 a Ha) as (c' & Hc' & Hrtc). exists c'. set_solver.
    + destruct (Hreach2 a Ha) as (c' & Hc' & Hrtc). exists c'. set_solver.
  - intros a b Ha Hedge. apply elem_of_app in Ha as [Ha|Ha].
    + specialize (Hcl1 a b Ha Hedge). set_solver.
    + by apply (Hcl2 a b).
Qed.

Lemma explores_node cur vis vis' l :
  cur ∉ vis → explores (children h cur) ({[cur]} ∪ vis) vis' l →
  explores [cur] vis vis' (cur :: l).
Proof.
  intros Hcur (-> & Hnd & Hnew & Hfrom & Hreach & Hcl).
  repeat split.
  - set_solver.
  - apply NoDup_cons. split; [|done]. intros Hin. apply (Hnew cur Hin). set_solver.
  - intros a Ha. apply elem_of_cons in Ha as [->|Ha]; [done|].
    intros Hv. apply (Hnew a Ha). set_solver.
  - set_solver.
  - intros a Ha. exists cur. split; [set_solver|].
    apply elem_of_cons in Ha as [->|Ha]; [done|].
    destruct (Hreach a Ha) as (c & Hc & Hrtc). by eapply rtc_l.
  - intros a b Ha Hedge. apply elem_of_cons in Ha as [->|Ha].
    + by apply Hfrom.
    + by apply (Hcl a b).
Qed.

(** The loop over the children, given the property of the recursive
    calls. *)
Lemma forEach_inv fuel :
  (∀ cur vis l0 vis' l1,
      traverse record h fuel cur vis l0 = Finished vis' l1 →
      ∃ l, l1 = l0 ++ l ∧ explores [cur] vis vis' l
           ∧ ∀ St (visitor : addr → St → outcome St) s,
               traverse visitor h fuel cur vis s
               = ending vis' (visitAll visitor l s)) →
  ∀ cs vis l0 vis' l1,
    forEach (traverse record h fuel) cs vis l0 = Finished vis' l1 →
    ∃ l, l1 = l0 ++ l ∧ explores cs vis vis' l
         ∧ ∀ St (visitor : addr → St → outcome St) s,
             forEach (traverse visitor h fuel) cs vis s
             = ending vis' (visitAll visitor l s).
Proof.
  intros IH cs. induction cs as [|c cs IHcs]; intros vis l0 vis' l1 H.
  - injection H as <- <-. exists []. rewrite app_nil_r.
    split; [done|]. split; [apply explores_nil | done].
  - cbn [forEach] in H.
    destruct (traverse record h fuel c vis l0) as [vis1 l1'| |] eqn:Hc; try done.
    destruct (IH _ _ _ _ _ Hc) as (la & -> & Hexp1 & Hgen1).
    destruct (IHcs _ _ _ _ H) as (lb & -> & Hexp2 & Hgen2).
    exists (la ++ lb). rewrite app_assoc. split; [done|].
    split; [by eapply explores_app|].
    intros St visitor s. cbn [forEach]. rewrite Hgen1, visitAll_app.
    destruct (visitAll visitor la s) as [s1|s1]; cbn [ending]; [apply Hgen2 | done].
Qed.

(** One call of [traverse]: the nodes it visits do not depend on the
    visitor, and the visitor is called on them in order until it
    throws. *)
Lemma traverse_inv fuel cur vis l0 vis' l1 :
  traverse record h fuel cur vis l0 = Finished vis' l1 →
  ∃ l, l1 = l0 ++ l ∧ explores [cur] vis vis' l
       ∧ ∀ St (visitor : addr → St → outcome St) s,
           traverse visitor h fuel cur vis s
           = ending vis' (visitAll visitor l s).
Proof.
  revert cur vis l0 vis' l1.
  induction fuel as [|fuel IH]; intros cur vis l0 vis' l1 H; [done|].
  cbn [traverse] in H. destruct (decide (cur ∈ vis)) as [Hin|Hnotin].
  - injection H as <- <-. exists []. rewrite app_nil_r. split; [done|]. split.
    + repeat split; try set_solver. constructor.
    + intros St visitor s. cbn [traverse]. by rewrite decide_True.
  - cbn [record] in H.
    destruct (forEach_inv fuel IH _ _ _ _ _ H) as (l & -> & Hexp & Hgen).
    exists (cur :: l). split; [by rewrite <- app_assoc|].
    split; [by apply explores_node|].
    intros St visitor s. cbn [traverse visitAll]. rewrite decide_False by done.
    destruct (visitor cur s) as [s'|s']; [apply Hgen | done].
Qed.

(** The calls made from a node: through a property other than
    [parent] that holds a node, or an array with that node among its
    elements; a node is an object with a [type]. *)
Lemma edge_spec a b :
  edge h a b ↔
  ∃ k v, (k, v) ∈ fieldsOf h a ∧ k ≠ "parent" ∧ hasType h b = true
         ∧ (v = HRef b ∨ ∃ items, v = HArr items ∧ HRef b ∈ items).
Proof.
  unfold edge, children. rewrite list_elem_of_In, in_flat_map. split.
  - intros ([k v] & Hin & Hb). cbn in Hb.
    destruct (String.eqb_spec k "parent") as [->|Hk]; [done|].
    exists k, v. split; [by apply list_elem_of_In|]. split; [done|].
    destruct v as [|b'|items]; cbn in Hb; [done| |].
    + destruct (hasType h b') eqn:Hty; [|done].
      destruct Hb as [<-|[]]. auto.
    + apply in_flat_map in Hb as (item & Hitem & Hb).
      destruct item as [|b'|]; cbn in Hb; try done.
      destruct (hasType h b') eqn:Hty; [|done].
      destruct Hb as [<-|[]]. split; [done|]. right.
      exists items. split; [done | by apply list_elem_of_In].
  - intros (k & v & Hin & Hk & Hty & Hv). exists (k, v).
    split; [by apply list_elem_of_In|]. cbn.
    destruct (String.eqb_spec k "parent") as [->|_]; [done|].
    destruct Hv as [->|(items & -> & Hitem)]; cbn.
    + rewrite Hty. by left.
    + apply in_flat_map. exists (HRef b). split; [by apply list_elem_of_In|].
      cbn. rewrite Hty. by left.
Qed.

Lemma edge_dom a b : edge h a b → b ∈ dom h.
Proof.
  intros (k & v & _ & _ & Hty & _)%edge_spec.
  apply elem_of_dom. unfold hasType, fieldsOf in Hty.
  destruct (h !! b) as [o|]; [by exists o | done].
Qed.

(** Termination: every call that does not return at once marks a
    node of the finite set [U] that was not marked before. *)
Section Termination.
Variable U : gset addr.
Hypothesis edge_closed : ∀ a b, edge h a b → b ∈ U.

Lemma forEach_terminates fuel :
  (∀ cur vis l0, cur ∈ U → size (U ∖ vis) < fuel →
                 ∃ vis' l1, traverse record h fuel cur vis l0 = Finished vis' l1) →
  ∀ cs vis l0, (∀ c, c ∈ cs → c ∈ U) → size (U ∖ vis) < fuel →
               ∃ vis' l1, forEach (traverse record h fuel) cs vis l0
                          = Finished vis' l1.
Proof using edge_closed.
  intros IH cs. induction cs as [|c cs IHcs]; intros vis l0 Hcs Hsize.
  - by eexists _, _.
  - cbn [forEach].
    destruct (IH c vis l0) as (vis1 & l1 & Hc); [set_solver | done |].
    rewrite Hc. apply IHcs; [set_solver|].
    apply traverse_inv in Hc as (l & _ & (-> & _) & _).
    eapply Nat.le_lt_trans; [|exact Hsize].
    apply subseteq_size. set_solver.
Qed.

Lemma traverse_terminates fuel cur vis l0 :
  cur ∈ U → size (U ∖ vis) < fuel →
  ∃ vis' l1, traverse record h fuel cur vis l0 = Finished vis' l1.
Proof using edge_closed.
  revert cur vis l0. induction fuel as [|fuel IH]; intros cur vis l0 Hcur Hsize;
    [lia|].
  cbn [traverse record]. destruct (decide (cur ∈ vis)) as [Hin|Hnotin];
    [by eexists _, _|].
  apply (forEach_terminates fuel IH).
  - intros c Hc. by apply (edge_closed cur).
  - assert (size (U ∖ ({[cur]} ∪ vis)) < size (U ∖ vis)); [|lia].
    apply subset_size. split; [set_solver|].
    intros Hsub. assert (cur ∈ U ∖ ({[cur]} ∪ vis)) by set_solver. set_solver.
Qed.

End Termination.

(** With the fuel of [traverseNode] the traversal of any root ends. *)
Lemma traverseNode_terminates root :
  ∃ vis' l1, traverse record h (S (S (size h))) root ∅ [] = Finished vis' l1.
Proof.
  apply (traverse_terminates ({[root]} ∪ dom h)).
  - intros a b Hedge. apply edge_dom in Hedge. set_solver.
  - set_solver.
  - eapply Nat.le_lt_trans; [apply subseteq_size|].
    { apply subseteq_difference_l. reflexivity. }
    rewrite size_union_alt, size_singleton.
    assert (size (dom h ∖ {[root]}) ≤ size (dom h)).
    { apply subseteq_size. set_solver. }
    rewrite size_dom in *. lia.
Qed.


End Invariants.


(** On the graph with sharing and a cycle: from node 0 the nodes 0, 1
    and 2 are visited once each, in this order, and again by a second
    call; from node 2 only node 2 is visited, since [parent] and the
    untyped [loc] object are not followed; a visitor that throws on
    node 1 is not called on node 2. *)
Example walker_on_shared_graph :
  traverseNode record sharedGraph 0 [] = Some (Returns [0; 1; 2])
  ∧ traverseNode record sharedGraph 0 [0; 1; 2] = Some (Returns [0; 1; 2; 0; 1; 2])
  ∧ traverseNode record sharedGraph 2 [] = Some (Returns [2])
  ∧ traverseNode (recordUntil 1) sharedGraph 0 [] = Some (Throws [0; 1]).
Proof. repeat split; vm_compute; reflexivity. Qed.

End WalkerFacts.

(** * Further properties *)

(** ** The order of the walk *)
Module WalkerOrder.
Import Walker WalkerFacts.
Local Open Scope nat_scope.

(** Every node of [l] is one of [from] or a child of a node that stands
    earlier in [l]. *)
Definition introduced (h : heap) (from : list addr) (l : list addr) : Prop :=
  ∀ i a, l !! i = Some a →
         a ∈ from ∨ ∃ j p, j < i ∧ l !! j = Some p ∧ edge h p a.

Lemma introduced_app h c cs la lb :
  introduced h [c] la → introduced h cs lb → introduced h (c :: cs) (la ++ lb).
Proof.
  intros Ha Hb i a Hi. destruct (decide (i < length la)) as [Hlt|Hge].
  - rewrite lookup_app_l in Hi by done.
    destruct (Ha i a Hi) as [Hin|(j & p & Hj & Hp & He)].
    + left. set_solver.
    + right. exists j, p. split; [done|]. split; [|done].
      rewrite lookup_app_l by lia. done.
  - rewrite lookup_app_r in Hi by lia.
    destruct (Hb _ a Hi) as [Hin|(j & p & Hj & Hp & He)].
    + left. set_solver.
    + right. exists (length la + j), p. split; [lia|]. split; [|done].
      rewrite lookup_app_r by lia. by replace (length la + j - length la) with j by lia.
Qed.

Lemma introduced_node h cur l :
  introduced h (children h cur) l → introduced h [cur] (cur :: l).
Proof.
  intros Hl [|i] a Hi; cbn in Hi.
  - injection Hi as <-. left. set_solver.
  - right. destruct (Hl i a Hi) as [Hin|(j & p & Hj & Hp & He)].
    + exists 0, cur. split; [lia|]. by split.
    + exists (S j), p. split; [lia|]. by split.
Qed.

Lemma forEach_order h fuel :
  (∀ cur vis l0 vis' l1,
      traverse record h fuel cur vis l0 = Finished vis' l1 →
      ∃ l, l1 = l0 ++ l ∧ introduced h [cur] l
           ∧ (cur ∉ vis → ∃ l', l = cur :: l')) →
  ∀ cs vis l0 vis' l1,
    forEach (traverse record h fuel) cs vis l0 = Finished vis' l1 →
    ∃ l, l1 = l0 ++ l ∧ introduced h cs l.
Proof.
  intros IH cs. induction cs as [|c cs IHcs]; intros vis l0 vis' l1 H.
  - injection H as <- <-. exists []. rewrite app_nil_r. split; [done|].
    intros i a Hi. done.
  - cbn [forEach] in H.
    destruct (traverse record h fuel c vis l0) as [vis1 l1'| |] eqn:Hc; try done.
    destruct (IH _ _ _ _ _ Hc) as (la & -> & Ha & _).
    destruct (IHcs _ _ _ _ H) as (lb & -> & Hb).
    exists (la ++ lb). rewrite app_assoc. split; [done|].
    by apply introduced_app.
Qed.

(** One call of [traverse] visits the node first, unless it was visited
    before, and every further node after a node that holds it. *)
Lemma traverse_order h fuel cur vis l0 vis' l1 :
  traverse record h fuel cur vis l0 = Finished vis' l1 →
  ∃ l, l1 = l0 ++ l ∧ introduced h [cur] l ∧ (cur ∉ vis → ∃ l', l = cur :: l').
Proof.
  revert cur vis l0 vis' l1.
  induction fuel as [|fuel IH]; intros cur vis l0 vis' l1 H; [done|].
  cbn [traverse] in H. destruct (decide (cur ∈ vis)) as [Hin|Hnotin].
  - injection H as <- <-. exists []. rewrite app_nil_r. split; [done|].
    split; [by intros i a Hi | done].
  - cbn [record] in H.
    destruct (forEach_order h fuel IH _ _ _ _ _ H) as (l & -> & Hl).
    exists (cur :: l). split; [by rewrite <- app_assoc|].
    split; [by apply introduced_node | by eexists].
Qed.

(** The run of [traverseNode]: the nodes the visitor is called on, the
    same for every visitor. *)
Lemma walk_order h root :
  ∃ vis' order,
    (∀ St (visitor : addr → St → outcome St) s,
        traverseNode visitor h root s = Some (visitAll visitor order s))
    ∧ explores h [root] ∅ vis' order
    ∧ introduced h [root] order
    ∧ ∃ rest, order = root :: rest.
Proof.
  destruct (traverseNode_terminates h root) as (vis' & order & Hrun).
  exists vis', order.
  destruct (traverse_inv h _ _ _ _ _ _ Hrun) as (l & Heq & Hexp & Hgen).
  destruct (traverse_order h _ _ _ _ _ _ Hrun) as (l' & Heq' & Hintro & Hhead).
  cbn in Heq, Heq'. subst. split; [|split; [done|split; [done|]]].
  - intros St visitor s. unfold traverseNode. rewrite Hgen.
    by destruct (visitAll visitor l' s).
  - apply Hhead. set_solver.
Qed.

(** X1.  [traverseNode] visits in pre-order: whatever the visitor, it is
    called first on the root, and on every other node after a node that
    holds it in a property other than [parent]. *)
Theorem walker_visits_holder_first (h : heap) (root : addr) :
  ∃ order,
    (∀ St (visitor : addr → St → outcome St) s,
        traverseNode visitor h root s = Some (visitAll visitor order s))
    ∧ order !! 0 = Some root
    ∧ ∀ i n, 0 < i → order !! i = Some n →
             ∃ j p, j < i ∧ order !! j = Some p ∧ edge h p n.
Proof.
  destruct (walk_order h root) as (vis' & order & Hcall & Hexp & Hintro & rest & ->).
  exists (root :: rest). split; [done|]. split; [done|].
  intros i n Hi Hn. destruct (Hintro i n Hn) as [Hin|Hpred]; [|done].
  apply list_elem_of_singleton in Hin as ->.
  destruct Hexp as (_ & Hnd & _). apply NoDup_cons in Hnd as [Hnotin _].
  destruct i as [|i]; [lia|]. cbn in Hn.
  exfalso. apply Hnotin. by eapply list_elem_of_lookup_2.
Qed.

(** Object [p] holds [n] itself: in a property other than [parent],
    as the value of the property or as an element of the array that is
    its value. *)
Definition holds (h : heap) (p n : addr) : Prop :=
  ∃ k v, (k, v) ∈ fieldsOf h p ∧ k ≠ "parent"
         ∧ (v = HRef n ∨ ∃ items, v = HArr items ∧ HRef n ∈ items).

(** X2.  Apart from the root, the visitor is only called on objects that
    have a [type] property and that a visited node holds itself.  An
    object without [type] is neither visited nor descended into: a node
    that only such objects hold is never visited. *)
Theorem walker_visits_typed_objects_only (h : heap) (root : addr) :
  ∃ order,
    (∀ St (visitor : addr → St → outcome St) s,
        traverseNode visitor h root s = Some (visitAll visitor order s))
    ∧ (∀ n, n ∈ order →
            n = root ∨ (hasType h n = true ∧ ∃ p, p ∈ order ∧ holds h p n))
    ∧ (∀ n, n ≠ root →
            (∀ p, holds h p n → p ≠ root ∧ hasType h p = false) →
            n ∉ order).
Proof.
  destruct (walk_order h root) as (vis' & order & Hcall & _ & Hintro & _).
  exists order. split; [done|].
  assert (Hvisited : ∀ n, n ∈ order →
            n = root ∨ (hasType h n = true ∧ ∃ p, p ∈ order ∧ holds h p n)).
  { intros n (i & Hi)%list_elem_of_lookup_1.
    destruct (Hintro i n Hi) as [Hin|(j & p & _ & Hp & Hedge)].
    - left. by apply list_elem_of_singleton in Hin.
    - right. apply edge_spec in Hedge as (k & v & Hkv & Hk & Hty & Hv).
      split; [done|]. exists p. split; [by eapply list_elem_of_lookup_2|].
      by exists k, v. }
  split; [exact Hvisited|].
  intros n Hroot Hholders Hn.
  destruct (Hvisited n Hn) as [->|(_ & p & Hp & Hholds)]; [done|].
  destruct (Hholders p Hholds) as [Hproot Hptype].
  destruct (Hvisited p Hp) as [->|(Hty & _)]; [done | congruence].
Qed.

(** The properties of an object other than [parent]. *)
Definition structural (fields : object) : object :=
  List.filter (fun kv => negb (String.eqb kv.1 "parent")) fields.

Lemma hasType_structural h a :
  hasType h a = existsb (fun kv => String.eqb kv.1 "type") (structural (fieldsOf h a)).
Proof.
  unfold hasType, structural.
  induction (fieldsOf h a) as [|[k v] fs IH]; [done|]. cbn.
  destruct (String.eqb_spec k "parent") as [->|Hk]; cbn; by rewrite IH.
Qed.

Lemma children_structural h a :
  children h a = flat_map (fun kv => childTargets h kv.2) (structural (fieldsOf h a)).
Proof.
  unfold children, structural.
  induction (fieldsOf h a) as [|[k v] fs IH]; [done|]. cbn.
  destruct (String.eqb k "parent"); cbn; by rewrite IH.
Qed.

Lemma childTargets_ext h1 h2 v :
  (∀ a, hasType h1 a = hasType h2 a) → childTargets h1 v = childTargets h2 v.
Proof.
  intros Hty. destruct v as [|b|items]; cbn; [done|by rewrite Hty|].
  induction items as [|item items IH]; [done|]. cbn. rewrite IH. f_equal.
  destruct item; cbn; try done. by rewrite Hty.
Qed.

Lemma children_ext h1 h2 :
  (∀ a, structural (fieldsOf h1 a) = structural (fieldsOf h2 a)) →
  ∀ a, children h1 a = children h2 a.
Proof.
  intros Hs a. rewrite !children_structural, Hs.
  assert (Hty : ∀ b, hasType h1 b = hasType h2 b).
  { intros b. by rewrite !hasType_structural, Hs. }
  induction (structural (fieldsOf h2 a)) as [|kv fs IH]; [done|]. cbn.
  by rewrite IH, (childTargets_ext h1 h2 _ Hty).
Qed.

Lemma forEach_ext {St} (f g : addr → gset addr → St → run St) l vis s :
  (∀ a vis s, f a vis s = g a vis s) → forEach f l vis s = forEach g l vis s.
Proof.
  intros Hfg. revert vis s. induction l as [|x l IH]; intros vis s; [done|].
  cbn. rewrite Hfg. destruct (g x vis s); auto.
Qed.

(** [traverse] sees a graph only through the children of its nodes. *)
Lemma traverse_ext {St} (visitor : addr → St → outcome St) h1 h2 fuel cur vis s :
  (∀ a, children h1 a = children h2 a) →
  traverse visitor h1 fuel cur vis s = traverse visitor h2 fuel cur vis s.
Proof.
  intros Hch. revert cur vis s. induction fuel as [|fuel IH]; intros cur vis s; [done|].
  cbn. destruct (decide (cur ∈ vis)); [done|].
  destruct (visitor cur s) as [s'|s']; [|done].
  rewrite Hch. by apply forEach_ext.
Qed.

(** X3.  The [parent] properties have no influence on the walk: two
    graphs with the same objects that agree on all other properties
    give the same calls of the visitor. *)
Theorem walker_ignores_parent {St} (visitor : addr → St → outcome St)
    (h1 h2 : heap) (root : addr) (s : St) :
  dom h1 = dom h2 →
  (∀ a, structural (fieldsOf h1 a) = structural (fieldsOf h2 a)) →
  traverseNode visitor h1 root s = traverseNode visitor h2 root s.
Proof.
  intros Hdom Hs. unfold traverseNode.
  assert (Hsize : size h1 = size h2) by (by rewrite <- !size_dom, Hdom).
  rewrite Hsize. by rewrite (traverse_ext visitor h1 h2 _ _ _ _ (children_ext h1 h2 Hs)).
Qed.

(** The graph [sharedGraph] with other [parent] properties. *)
Definition reparentedGraph : heap :=
  list_to_map
    [ (0, [("type", HPrim); ("left", HRef 1);
           ("items", HArr [HRef 2; HPrim; HRef 1; HArr [HRef 4]])]);
      (1, [("type", HPrim); ("back", HRef 0); ("parent", HRef 2)]);
      (2, [("parent", HPrim); ("type", HPrim); ("loc", HRef 3)]);
      (3, [("start", HPrim); ("inner", HRef 4); ("parent", HRef 4)]);
      (4, [("type", HPrim); ("body", HArr [HRef 0])]) ].

Lemma same_structure_as_sharedGraph a :
  structural (fieldsOf sharedGraph a) = structural (fieldsOf reparentedGraph a).
Proof.
  do 5 (destruct a as [|a]; [reflexivity|]).
  unfold fieldsOf, sharedGraph, reparentedGraph.
  rewrite !(not_elem_of_list_to_map_1 _ (S (S (S (S (S a)))))); [done| |];
    cbn; rewrite !elem_of_cons, elem_of_nil; lia.
Qed.

Lemma walker_ignores_parent_witness :
  traverseNode record sharedGraph 0 [] = traverseNode record reparentedGraph 0 [].
Proof.
  apply walker_ignores_parent.
  - unfold sharedGraph, reparentedGraph. by rewrite !dom_list_to_map_L.
  - exact same_structure_as_sharedGraph.
Defined.

End WalkerOrder.

(** ** Ignore-intent comments and the reports of the empty-handler
    detector *)
Module IgnoreCommentFacts.
Import JS Host AstHelpers NoEmptyCatch JSFacts RegexFacts.

(** The text contains a match of one of the ignore patterns. *)
Definition hasIgnorePhrase (text : string) : Prop :=
  ∃ pattern pre w post,
    In pattern ignorePatterns ∧ text = pre +:+ w +:+ post ∧ Matches pattern w.

(** The comment lies inside the range. *)
Definition inside (range : Z * Z) (c : Comment) : Prop :=
  range.1 ≤ (comment_range c).1 ∧ (comment_range c).2 ≤ range.2.

Lemma matchesIgnorePattern_spec c :
  matchesIgnorePattern c = true ↔ hasIgnorePhrase (comment_value c).
Proof.
  unfold matchesIgnorePattern, hasIgnorePhrase. rewrite existsb_exists. split.
  - intros (pattern & Hin & Htest).
    apply test_spec in Htest as (pre & w & post & Heq & Hm).
    by exists pattern, pre, w, post.
  - intros (pattern & pre & w & post & Hin & Heq & Hm).
    exists pattern. split; [done|]. apply test_spec. by exists pre, w, post.
Qed.

(** The callback of [allComments.filter] does not throw on a clause
    that is an object. *)
Lemma filterM_inCatchRange r fs comments :
  filterM (inCatchRange (VObj r fs)) comments =
  Some (List.filter
          (fun c => match r with
                    | None => false
                    | Some (start, end_) =>
                        ((comment_range c).1 >=? start)
                        && ((comment_range c).2 <=? end_)
                    end) comments).
Proof.
  induction comments as [|c comments IH]; [done|].
  cbn [filterM List.filter]. rewrite IH. unfold inCatchRange. cbn.
  destruct r as [[start end_]|]; cbn; [|done].
  by destruct (_ && _).
Qed.

(** X4.  [hasIntentionalIgnoreComment] answers [true] exactly when the
    clause is an object with a range whose body is a block statement,
    the source has the method [getAllComments], and one of its comments
    lies inside the range of the clause and contains a match of one of
    the five ignore patterns. *)
Theorem ignore_comment_found_iff (clause : value) (sourceCode : SourceCode) :
  hasIntentionalIgnoreComment clause sourceCode = true ↔
  ∃ range fs comments c,
    clause = VObj (Some range) fs
    ∧ typeIs (lookup "body" fs) "BlockStatement"
    ∧ getAllComments sourceCode = Some comments
    ∧ In c comments ∧ inside range c ∧ hasIgnorePhrase (comment_value c).
Proof.
  unfold hasIntentionalIgnoreComment, hasIntentionalIgnoreComment_try. split.
  - intros H. destruct clause as [| |b|n|s|items|r fs]; try discriminate H.
    cbn [get mbind option_bind] in H. set (body := lookup "body" fs) in *.
    destruct (truthy body) eqn:Htruthy; [|discriminate H].
    destruct (BoundaryFacts.truthy_get body "type" Htruthy) as [ty Hty].
    rewrite Hty in H. cbn in H.
    destruct (isStr ty "BlockStatement") eqn:Hblock; [|discriminate H].
    cbn in H. apply isStr_true in Hblock as ->.
    rewrite filterM_inCatchRange in H. cbn in H.
    apply existsb_exists in H as (c & Hin & Hmatch).
    apply filter_In in Hin as [Hin Hrange].
    destruct r as [[start end_]|]; [|discriminate Hrange].
    destruct (getAllComments sourceCode) as [comments|] eqn:Hall; [|destruct Hin].
    exists (start, end_), fs, comments, c. cbn in Hin.
    apply andb_true_iff in Hrange as [Hs He].
    repeat split; try done; cbn; try lia.
    by apply matchesIgnorePattern_spec.
  - intros ([start end_] & fs & comments & c & -> & Hbody & Hall & Hin & [Hs He] & Hphrase).
    cbn [get mbind option_bind]. rewrite (typeIs_truthy _ _ Hbody).
    unfold typeIs in Hbody. rewrite Hbody. cbn.
    rewrite filterM_inCatchRange, Hall. cbn.
    apply existsb_exists. exists c. split; [|by apply matchesIgnorePattern_spec].
    apply filter_In. split; [done|]. cbn in Hs, He.
    apply andb_true_iff. split; lia.
Qed.

(** The diagnostics of the listener, by cases. *)
Lemma CatchClause_cases sourceCode clause :
  CatchClause sourceCode clause = []
  ∨ (isEffectivelyEmpty clause = true
     ∧ hasIntentionalIgnoreComment clause sourceCode = false
     ∧ CatchClause sourceCode clause = [CatchFacts.emptyCatch sourceCode clause])
  ∨ (isEffectivelyEmpty clause = false
     ∧ hasIntentionalIgnoreComment clause sourceCode = false
     ∧ ∃ param paramName,
         CatchClause sourceCode clause = [CatchFacts.unusedParam param paramName]).
Proof.
  unfold CatchClause, reportEmptyCatch, reportUnusedParam_try, CatchFacts.emptyCatch.
  destruct (isEffectivelyEmpty clause), (hasIntentionalIgnoreComment clause sourceCode);
    cbn; auto.
  { destruct (emptyCatchFix sourceCode clause) as [edit|]; cbn; auto. }
  destruct (get clause "param") as [param|]; cbn; [|auto].
  destruct (truthy param); cbn; [|auto].
  destruct (get param "type") as [pty|]; cbn; [|auto].
  destruct (isStr pty "Identifier"); cbn; [|auto].
  destruct (get param "name") as [paramName|]; cbn; [|auto].
  destruct (get clause "body") as [body|]; cbn; [|auto].
  destruct (checkIfParamUsed body paramName); cbn; [auto|].
  right. right. repeat split. by exists param, paramName.
Qed.

(** X5.  The listener reports at most once on a clause, never both
    diagnostics, and not at all when an ignore-intent comment is
    found, whether the block is empty or not. *)
Theorem catch_clause_reports_at_most_once (sourceCode : SourceCode) (clause : value) :
  (length (CatchClause sourceCode clause) ≤ 1)%nat
  ∧ (hasIntentionalIgnoreComment clause sourceCode = true →
     CatchClause sourceCode clause = []).
Proof.
  destruct (CatchClause_cases sourceCode clause)
    as [H | [(_ & Hno & H) | (_ & Hno & param & paramName & H)]];
    rewrite H; cbn; split; try lia; try done; intros Hyes; congruence.
Qed.

End IgnoreCommentFacts.

(** ** The fix of the empty-handler detector *)
Module CatchFixFacts.
Import JS Host AstHelpers NoEmptyCatch JSFacts.

Lemma take_app (n : nat) (s rest : string) :
  (n ≤ String.length s)%nat →
  Str.take n (Str.take n s +:+ rest) = Str.take n s.
Proof.
  revert s. induction n as [|n IH]; intros s Hn; [done|].
  destruct s as [|c s]; cbn in Hn; [lia|].
  cbn [Str.take]. rewrite RegexFacts.append_cons. cbn [Str.take].
  rewrite IH; [done | lia].
Qed.

Lemma drop_app (n : nat) (s inserted rest : string) :
  (n ≤ String.length s)%nat →
  Str.drop (n + String.length inserted) (Str.take n s +:+ inserted +:+ rest) = rest.
Proof.
  revert s. induction n as [|n IH]; intros s Hn.
  - cbn [Str.take Nat.add]. rewrite RegexFacts.append_nil_l.
    induction inserted as [|c inserted IHi]; [by destruct rest|].
    rewrite RegexFacts.append_cons. exact IHi.
  - destruct s as [|c s]; cbn in Hn; [lia|].
    cbn [Str.take Nat.add]. rewrite RegexFacts.append_cons. cbn [Str.drop].
    apply IH. lia.
Qed.

(** Applying an insertion keeps the text on both sides of the offset. *)
Lemma applyEdit_insertion (src : string) (pos : Z) (inserted : string) :
  let e := {| edit_range := (pos, pos); edit_text := inserted |} in
  let n := Z.to_nat pos in
  (n ≤ String.length src)%nat →
  Str.take n (applyEdit src e) = Str.take n src
  ∧ Str.drop (n + String.length inserted) (applyEdit src e) = Str.drop n src.
Proof.
  intros e n Hn. unfold applyEdit. cbn. fold n.
  split; [by apply take_app | by apply drop_app].
Qed.

(** [find] returns the first element that passes the test. *)
Lemma find_first {A} (p : A → bool) (l : list A) (x : A) :
  List.find p l = Some x →
  ∃ before after, l = before ++ x :: after
                  ∧ Forall (λ y, p y = false) before ∧ p x = true.
Proof.
  induction l as [|y l IH]; cbn; [done|].
  destruct (p y) eqn:Hy.
  - intros [= ->]. by exists [], l.
  - intros H. destruct (IH H) as (before & after & -> & Hbefore & Hx).
    exists (y :: before), after. split; [done|]. split; [by constructor | done].
Qed.

(** X6.  Only the [emptyCatch] report carries a fix.  The fix inserts
    the text [" // intentionally ignored"] at the end of the first
    token that starts inside the clause, and replaces nothing: applied
    to a source text, it leaves the text before and the text after the
    offset as they were. *)
Theorem empty_catch_fix_only_inserts
    (sourceCode : SourceCode) (clause : value) (d : Diagnostic) (e : Edit) :
  In d (CatchClause sourceCode clause) → fix_ d = Some e →
  messageId d = "emptyCatch" ∧ node d = clause
  ∧ edit_text e = " // intentionally ignored"
  ∧ (∃ start end_ before catchKeyword after,
        rangeOf clause = Some (Some (start, end_))
        ∧ tokens sourceCode = before ++ catchKeyword :: after
        ∧ Forall (λ t, ¬ (start ≤ (token_range t).1 < end_)) before
        ∧ In catchKeyword (tokens sourceCode)
        ∧ start ≤ (token_range catchKeyword).1 < end_
        ∧ edit_range e = ((token_range catchKeyword).2, (token_range catchKeyword).2))
  ∧ ∀ src, let n := Z.to_nat (edit_range e).1 in
      (n ≤ String.length src)%nat →
      Str.take n (applyEdit src e) = Str.take n src
      ∧ Str.drop (n + String.length (edit_text e)) (applyEdit src e)
        = Str.drop n src.
Proof.
  intros Hin Hfix.
  destruct (IgnoreCommentFacts.CatchClause_cases sourceCode clause)
    as [H | [(_ & _ & H) | (_ & _ & param & paramName & H)]];
    rewrite H in Hin; [destruct Hin | |];
    destruct Hin as [<-|[]]; [|discriminate Hfix].
  cbn in Hfix. unfold emptyCatchFix, getFirstToken in Hfix.
  destruct (rangeOf clause) as [[[start end_]|]|] eqn:Hrange; try discriminate Hfix.
  cbn in Hfix.
  destruct (List.find _ (tokens sourceCode)) as [catchKeyword|] eqn:Hfind;
    [|discriminate Hfix].
  injection Hfix as <-.
  apply find_first in Hfind as (before & after & Htokens & Hbefore & Hstart).
  apply andb_true_iff in Hstart as [Hs He].
  split; [done|]. split; [done|]. split; [done|]. split.
  - exists start, end_, before, catchKeyword, after.
    split; [done|]. split; [done|]. split.
    { eapply Forall_impl; [exact Hbefore|]. cbn. intros t Ht [Hs' He'].
      apply andb_false_iff in Ht as [Ht|Ht]; lia. }
    split; [rewrite Htokens; apply in_app_iff; right; by left|].
    split; [lia | done].
  - intros src. apply applyEdit_insertion.
Qed.

(** [catch (e) {}]: the insertion is made at offset 5. *)
Lemma empty_catch_fix_only_inserts_witness :
  let e := {| edit_range := (5, 5); edit_text := " // intentionally ignored" |} in
  Str.take 5 (applyEdit Ast.emptyCatchText e) = "catch"
  ∧ Str.drop (5 + 25) (applyEdit Ast.emptyCatchText e) = " (e) {}".
Proof.
  intros e.
  refine ((λ H, proj2 (proj2 (proj2 (proj2 H))) Ast.emptyCatchText _)
            (empty_catch_fix_only_inserts Ast.emptyCatchSource Ast.emptyCatchClause
               (CatchFacts.emptyCatch Ast.emptyCatchSource Ast.emptyCatchClause) e
               _ _)).
  - vm_compute. lia.
  - left. reflexivity.
  - reflexivity.
Defined.

End CatchFixFacts.

(** ** Letter case in ignore-intent comments *)
Module CaseFacts.
Import Regex Host AstHelpers.

(** The text with its letters [a]-[z] in upper case. *)
Fixpoint foldString (s : string) : string :=
  match s with
  | EmptyString => EmptyString
  | String c tl => String (foldCase c) (foldString tl)
  end.

Lemma isSpace_foldCase c : isSpace (foldCase c) = isSpace c.
Proof. destruct c as [[] [] [] [] [] [] [] []]; reflexivity. Qed.

Lemma foldCase_idemp c : foldCase (foldCase c) = foldCase c.
Proof. destruct c as [[] [] [] [] [] [] [] []]; reflexivity. Qed.

Lemma deriv_foldCase c r : deriv (foldCase c) r = deriv c r.
Proof.
  induction r as [| |c'| |r1 IH1 r2 IH2|r1 IH1 r2 IH2|r IH]; cbn; try done.
  - by rewrite foldCase_idemp.
  - by rewrite isSpace_foldCase.
  - by rewrite IH1, IH2.
  - by rewrite IH1, IH2.
  - by rewrite IH.
Qed.

Lemma matchPrefix_foldString r s : matchPrefix r (foldString s) = matchPrefix r s.
Proof.
  revert r. induction s as [|c s IH]; intros r; [done|].
  cbn [foldString matchPrefix]. by rewrite deriv_foldCase, IH.
Qed.

Lemma test_foldString r s : test r (foldString s) = test r s.
Proof.
  induction s as [|c s IH]; [done|].
  change (foldString (String c s)) with (String (foldCase c) (foldString s)).
  cbn [test]. rewrite IH.
  change (String (foldCase c) (foldString s)) with (foldString (String c s)).
  by rewrite matchPrefix_foldString.
Qed.

(** X7.  The ignore patterns do not see the case of the letters [a]-[z]:
    two comments whose texts differ only in letter case are both ignore
    comments, or neither is. *)
Theorem ignore_phrase_ignores_letter_case (c c' : Comment) :
  foldString (comment_value c) = foldString (comment_value c') →
  matchesIgnorePattern c = matchesIgnorePattern c'.
Proof.
  intros Heq. unfold matchesIgnorePattern.
  induction ignorePatterns as [|pattern patterns IH]; [done|].
  cbn [existsb]. rewrite IH. f_equal.
  by rewrite <- (test_foldString pattern (comment_value c)), Heq, test_foldString.
Qed.

Lemma ignore_phrase_ignores_letter_case_witness :
  matchesIgnorePattern {| comment_range := (8, 38); comment_value := " Intentionally  IGNORED" |}
  = matchesIgnorePattern {| comment_range := (0, 9); comment_value := " intentionally  ignored" |}.
Proof. apply ignore_phrase_ignores_letter_case. reflexivity. Defined.

End CaseFacts.

(** ** The component classifiers *)
Module ClassifierFacts.
Import JS Host AstHelpers JSFacts.

(** A JSX element or fragment. *)
Definition isJSX (v : value) : Prop :=
  typeIs v "JSXElement" ∨ typeIs v "JSXFragment".

(** A [return] statement whose argument is a JSX element or fragment. *)
Definition jsxReturn (statement : value) : Prop :=
  typeIs statement "ReturnStatement"
  ∧ ∃ arg, get statement "argument" = Some arg ∧ isJSX arg.

(** A value whose properties can be read. *)
Definition readable (v : value) : Prop := v ≠ VUndef ∧ v ≠ VNull.

Lemma isJSXNode_spec n : isJSXNode n = Some true ↔ isJSX n.
Proof.
  unfold isJSXNode, isJSX, typeIs.
  destruct (get n "type") as [ty|]; cbn; [|split; [done|intros [|]; done]].
  split.
  - intros [= H]. apply orb_true_iff in H as [H|H]; apply isStr_true in H; subst; auto.
  - intros [[= ->]|[= ->]]; done.
Qed.

Lemma isJSXNode_false n : isJSXNode n = Some false → ¬ isJSX n.
Proof. intros H Hj. apply isJSXNode_spec in Hj. congruence. Qed.

(** The body of the loop of [returnsJSX] over the statements of a
    block. *)
Definition statementStep (statement : value) : stmt bool :=
  c ⇐ (ty ← get statement "type"; Some (isStr ty "ReturnStatement"))
      &&& (arg ← get statement "argument"; Some (truthy arg));
  when c
    (arg ⇐ get statement "argument";
     j ⇐ isJSXNode arg;
     when j (ret true)).

Lemma statementStep_cases statement :
  (¬ readable statement ∧ statementStep statement = Throw)
  ∨ (readable statement ∧ jsxReturn statement ∧ statementStep statement = Return true)
  ∨ (readable statement ∧ ¬ jsxReturn statement ∧ statementStep statement = Normal).
Proof.
  unfold statementStep, readable, jsxReturn.
  destruct statement as [| |b|n|s|items|r fs];
    try (left; split; [intros [? ?]; done | done]);
    try (right; right; split; [done|]; split; [by intros [H _]|reflexivity]).
  right. unfold typeIs. cbn [get mbind option_bind and_ eval].
  destruct (isStr (lookup "type" fs) "ReturnStatement") eqn:Hty.
  2:{ right. split; [done|]. split; [|done]. intros [[= H] _].
      rewrite H in Hty. discriminate Hty. }
  apply isStr_true in Hty. cbn.
  destruct (truthy (lookup "argument" fs)) eqn:Harg; cbn.
  2:{ right. split; [done|]. split; [|done]. intros [_ (arg & [= <-] & Hj)].
      destruct Hj as [Hj|Hj]; apply typeIs_truthy in Hj; congruence. }
  destruct (BoundaryFacts.truthy_get _ "type" Harg) as [aty Haty].
  assert (Hnode : isJSXNode (lookup "argument" fs)
                  = Some (isStr aty "JSXElement" || isStr aty "JSXFragment")).
  { unfold isJSXNode. by rewrite Haty. }
  rewrite Hnode. cbn.
  destruct (isStr aty "JSXElement" || isStr aty "JSXFragment") eqn:Hj; cbn.
  - left. split; [done|]. split; [|done]. split; [by rewrite Hty|].
    eexists. split; [done|]. by apply isJSXNode_spec.
  - right. split; [done|]. split; [|done]. intros [_ (arg & [= <-] & Hjsx)].
    apply isJSXNode_spec in Hjsx. congruence.
Qed.

Lemma forOf_statements items :
  (forOf items statementStep = Return true
   ↔ ∃ pre s post, items = pre ++ s :: post ∧ Forall readable pre ∧ jsxReturn s)
  ∧ forOf items statementStep ≠ Return false.
Proof.
  induction items as [|x items [IH IHf]]; cbn [forOf].
  - split; [|done]. split; [done|]. intros (pre & s & post & Heq & _). by destruct pre.
  - destruct (statementStep_cases x) as [[Hx ->] | [(Hx & Hj & ->) | (Hx & Hj & ->)]]; cbn.
    + split; [|done]. split; [done|]. intros (pre & s & post & Heq & Hpre & Hs).
      exfalso. destruct pre as [|p pre]; injection Heq as -> ->.
      * destruct Hs as [Hs _]. apply typeIs_truthy in Hs. apply Hx.
        split; intros ->; done.
      * apply Forall_cons in Hpre as [Hp _]. done.
    + split; [|done]. split; [|done]. intros _. by exists [], x, items.
    + split; [|done]. rewrite IH. split.
      * intros (pre & s & post & -> & Hpre & Hs). exists (x :: pre), s, post.
        split; [done|]. split; [by constructor | done].
      * intros (pre & s & post & Heq & Hpre & Hs).
        destruct pre as [|p pre]; injection Heq as -> ->; [done|].
        apply Forall_cons in Hpre as [_ Hpre]. by exists pre, s, post.
Qed.


(** The loop over the statements of a block body. *)
Definition blockReturn (body : value) : stmt bool :=
  stmts ⇐ get body "body";
  items ⇐ iterate stmts;
  forOf items statementStep.

Lemma returnsJSX_obj r fs :
  let ty := lookup "type" fs in
  let e := lookup "expression" fs in
  let body := lookup "body" fs in
  returnsJSX (VObj r fs) =
  tryCatch
    ((c ⇐ Some (isStr ty "ArrowFunctionExpression") &&& Some (truthy e)
          &&& (bty ← get body "type"; Some (negb (isStr bty "BlockStatement")));
      when c (b ⇐ isJSXNode body; ret b)) ;;;
     (c ⇐ Some (truthy body)
          &&& (bty ← get body "type"; Some (isStr bty "BlockStatement"));
      when c (blockReturn body)) ;;;
     ret false) false false.
Proof. reflexivity. Qed.

Lemma blockReturn_spec body :
  tryCatch (blockReturn body ;;; ret false) false false = true
  ↔ ∃ pre s post,
      get body "body" = Some (VArr (pre ++ s :: post))
      ∧ Forall readable pre ∧ jsxReturn s.
Proof.
  unfold blockReturn.
  destruct (get body "body") as [stmts|]; cbn;
    [|split; [done | by intros (? & ? & ? & ? & _)]].
  destruct stmts as [| |b|n|str|items|r fs]; cbn;
    try (split; [done | by intros (? & ? & ? & ? & _)]).
  - destruct (forOf_statements
                (map (λ c, VStr (String c EmptyString)) (list_ascii_of_string str)))
      as [Hiff Hnf].
    split; [|by intros (? & ? & ? & ? & _)]. intros H. exfalso.
    destruct (forOf _ statementStep) as [| |[|]] eqn:Hloop; try done.
    destruct Hiff as [Hiff _].
    destruct (Hiff eq_refl) as (pre & s & post & Heq & _ & Hs & _).
    assert (Hin : In s (map (λ c, VStr (String c EmptyString))
                            (list_ascii_of_string str))).
    { rewrite Heq. apply in_app_iff. right. by left. }
    apply in_map_iff in Hin as (c & <- & _). discriminate Hs.
  - destruct (forOf_statements items) as [Hiff Hnf].
    destruct (forOf items statementStep) as [| |[|]] eqn:Hloop; cbn; try done.
    + split; [done|]. intros (pre & s & post & [= ->] & Hpre & Hs).
      destruct Hiff as [_ Hiff]. by specialize (Hiff (ex_intro _ pre (ex_intro _ s (ex_intro _ post (conj eq_refl (conj Hpre Hs)))))).
    + split; [done|]. intros (pre & s & post & [= ->] & Hpre & Hs).
      destruct Hiff as [_ Hiff]. by specialize (Hiff (ex_intro _ pre (ex_intro _ s (ex_intro _ post (conj eq_refl (conj Hpre Hs)))))).
    + split; [|done]. intros _. destruct Hiff as [Hiff _].
      destruct (Hiff eq_refl) as (pre & s & post & -> & Hpre & Hs).
      by exists pre, s, post.
Qed.

(** X8.  [returnsJSX] answers [true] in two cases only: the node is an
    arrow function with the [expression] flag whose body is a JSX
    element or fragment; or the body of the node is a block statement
    and one of the statements of the block itself is a [return] of a
    JSX element or fragment, all statements before it being readable.
    A [return] nested in another statement is not seen. *)
Theorem returnsJSX_iff (node : value) :
  returnsJSX node = true ↔
  ∃ body, get node "body" = Some body ∧
    ((typeIs node "ArrowFunctionExpression"
      ∧ (∃ e, get node "expression" = Some e ∧ truthy e = true)
      ∧ isJSX body)
     ∨ (typeIs body "BlockStatement"
        ∧ ∃ pre s post,
            get body "body" = Some (VArr (pre ++ s :: post))
            ∧ Forall readable pre ∧ jsxReturn s)).
Proof.
  destruct node as [| |b|n|s|items|r fs]; try (split; [done|]);
    try (intros (body & [= <-] & [(Hty & _)|(Hty & _)]); discriminate Hty);
    try (intros (body & Hb & _); discriminate Hb).
  rewrite returnsJSX_obj. unfold typeIs. cbn [get].
  set (ty := lookup "type" fs). set (e := lookup "expression" fs).
  set (body := lookup "body" fs).
  assert (Hrhs : ∀ P : value → Prop, (∃ body0, Some body = Some body0 ∧ P body0) ↔ P body).
  { intros P. split; [by intros (? & [= <-] & ?) | by exists body]. }
  rewrite Hrhs. clear Hrhs.
  assert (He : (∃ e0, Some e = Some e0 ∧ truthy e0 = true) ↔ truthy e = true).
  { split; [by intros (? & [= <-] & ?) | by exists e]. }
  rewrite He. clear He.
  pose proof (blockReturn_spec body) as Hblock.
  pose proof (isJSXNode_spec body) as Hjsx. unfold isJSXNode in Hjsx |- *.
  unfold isJSX, typeIs in *.
  destruct (get body "type") as [bty|] eqn:Hbty; cbn [mbind option_bind] in *.
  - destruct (isStr bty "BlockStatement") eqn:Hb; cbn [negb].
    + apply isStr_true in Hb as ->.
      assert (Htruthy : truthy body = true) by by eapply typeIs_truthy.
      rewrite Htruthy.
      assert (Hfirst : Some (isStr ty "ArrowFunctionExpression") &&& Some (truthy e)
                       &&& Some false = Some false).
      { by destruct (isStr ty "ArrowFunctionExpression"), (truthy e). }
      rewrite Hfirst. cbn [eval when seq skip and_]. rewrite Hblock.
      split; [by right|]. intros [(_ & _ & [[= H]|[= H]])|[_ H]]; done.
    + destruct (isStr ty "ArrowFunctionExpression") eqn:Hty;
        destruct (truthy e) eqn:Hte; cbn.
      * apply isStr_true in Hty.
        destruct (isStr bty "JSXElement" || isStr bty "JSXFragment") eqn:Hj; cbn.
        -- split; [|done]. intros _. left. rewrite Hty. repeat split; try done.
           by apply Hjsx.
        -- split; [done|]. intros [(_ & _ & H)|[[= ->] _]]; [|done].
           apply Hjsx in H. congruence.
      * destruct (truthy body); cbn; (split; [done|]);
          intros [(_ & ? & _)|[[= ->] _]]; done.
      * destruct (truthy body); cbn; (split; [done|]);
          (intros [([= H] & _ & _)|[[= ->] _]]; [|done]);
          rewrite H in Hty; done.
      * destruct (truthy body); cbn; (split; [done|]);
          intros [(_ & ? & _)|[[= ->] _]]; done.
  - assert (Htruthy : truthy body = false) by by destruct body.
    rewrite Htruthy.
    destruct (isStr ty "ArrowFunctionExpression"), (truthy e); cbn;
      (split; [done|]); intros [(_ & _ & [H|H])|[H _]]; done.
Qed.

(** The class names the classifier takes for a React base class. *)
Definition componentName (name : value) : Prop :=
  name = VStr "Component" ∨ name = VStr "PureComponent".

(** [React.Component], [React.PureComponent], [Component] or
    [PureComponent]. *)
Definition extendsComponent (superClass : value) : Prop :=
  (typeIs superClass "MemberExpression"
   ∧ ∃ obj prop pn,
       get superClass "object" = Some obj ∧ get superClass "property" = Some prop
       ∧ typeIs obj "Identifier" ∧ get obj "name" = Some (VStr "React")
       ∧ typeIs prop "Identifier" ∧ get prop "name" = Some pn ∧ componentName pn)
  ∨ (typeIs superClass "Identifier"
     ∧ ∃ nm, get superClass "name" = Some nm ∧ componentName nm).

Lemma componentName_spec v :
  isStr v "Component" || isStr v "PureComponent" = true ↔ componentName v.
Proof.
  unfold componentName. rewrite orb_true_iff, !isStr_true. done.
Qed.

(** The block of [isReactComponent] for a class with a superclass. *)
Definition superClassStep (superClass : value) : stmt bool :=
  (sty ⇐ get superClass "type";
   when (isStr sty "MemberExpression")
     (obj ⇐ get superClass "object";
      prop ⇐ get superClass "property";
      c ⇐ (oty ← get obj "type"; Some (isStr oty "Identifier"))
          &&& (on ← get obj "name"; Some (isStr on "React"))
          &&& (pty ← get prop "type"; Some (isStr pty "Identifier"))
          &&& (pn ← get prop "name";
               Some (isStr pn "Component" || isStr pn "PureComponent"));
      when c (ret true))) ;;;
  (sty ⇐ get superClass "type";
   when (isStr sty "Identifier")
     (name ⇐ get superClass "name";
      when (isStr name "Component" || isStr name "PureComponent")
        (ret true))).

Lemma superClassStep_spec superClass :
  tryCatch (superClassStep superClass ;;; ret false) false false = true
  ↔ extendsComponent superClass.
Proof.
  unfold superClassStep, extendsComponent, typeIs.
  destruct (get superClass "type") as [sty|] eqn:Hsty; cbn;
    [|split; [done | by intros [[? _]|[? _]]]].
  destruct (isStr sty "MemberExpression") eqn:Hme; cbn.
  - apply isStr_true in Hme as ->. cbn.
    destruct (get superClass "object") as [obj|] eqn:Hobj; cbn;
      [|split; [done | intros [(_ & ? & ? & ? & ? & _)|[? _]]; done]].
    destruct (get superClass "property") as [prop|] eqn:Hprop; cbn;
      [|split; [done | intros [(_ & ? & ? & ? & ? & ? & _)|[? _]]; done]].
    destruct (get obj "type") as [oty|] eqn:Hoty; cbn;
      [|split; [done | intros [(_ & ? & ? & ? & [= <-] & _ & ? & _)|[? _]]; congruence]].
    destruct (isStr oty "Identifier") eqn:Hoi; cbn.
    2:{ split; [done|]. intros [(_ & ? & ? & ? & [= <-] & _ & ? & _)|[? _]]; [|done].
        assert (oty = VStr "Identifier") by congruence. subst. done. }
    apply isStr_true in Hoi as ->.
    destruct (get obj "name") as [on|] eqn:Hon; cbn;
      [|split; [done | intros [(_ & ? & ? & ? & [= <-] & _ & _ & ? & _)|[? _]]; congruence]].
    destruct (isStr on "React") eqn:Hreact; cbn.
    2:{ split; [done|]. intros [(_ & ? & ? & ? & [= <-] & _ & _ & ? & _)|[? _]]; [|done].
        assert (on = VStr "React") by congruence. subst. done. }
    apply isStr_true in Hreact as ->.
    destruct (get prop "type") as [pty|] eqn:Hpty; cbn;
      [|split; [done | intros [(_ & ? & ? & ? & _ & [= <-] & _ & _ & ? & _)|[? _]]; congruence]].
    destruct (isStr pty "Identifier") eqn:Hpi; cbn.
    2:{ split; [done|]. intros [(_ & ? & ? & ? & _ & [= <-] & _ & _ & ? & _)|[? _]]; [|done].
        assert (pty = VStr "Identifier") by congruence. subst. done. }
    apply isStr_true in Hpi as ->.
    destruct (get prop "name") as [pn|] eqn:Hpn; cbn;
      [|split; [done | intros [(_ & ? & ? & ? & _ & [= <-] & _ & _ & _ & ? & _)|[? _]]; congruence]].
    destruct (isStr pn "Component" || isStr pn "PureComponent") eqn:Hc; cbn.
    + split; [|done]. intros _. left. split; [done|]. exists obj, prop, pn.
      repeat split; try done. by apply componentName_spec.
    + split; [done|]. intros [(_ & ? & ? & pn' & _ & [= <-] & _ & _ & _ & Hpn' & Hcn)|[? _]]; [|done].
      apply componentName_spec in Hcn. congruence.
  - destruct (isStr sty "Identifier") eqn:Hid; cbn.
    + apply isStr_true in Hid as ->.
      destruct (get superClass "name") as [nm|] eqn:Hnm; cbn;
        [|split; [done | intros [[? _]|(_ & ? & ? & _)]; done]].
      destruct (isStr nm "Component" || isStr nm "PureComponent") eqn:Hc; cbn.
      * split; [|done]. intros _. right. split; [done|]. exists nm.
        split; [done|]. by apply componentName_spec.
      * split; [done|]. intros [[? _]|(_ & nm' & Hnm' & Hcn)]; [done|].
        apply componentName_spec in Hcn. congruence.
    + split; [done|]. intros [[[= ->] _]|[[= ->] _]]; done.
Qed.

Lemma isReactComponent_obj r fs :
  let node := VObj r fs in
  let ty := lookup "type" fs in
  let init := lookup "init" fs in
  let superClass := lookup "superClass" fs in
  isReactComponent node =
  tryCatch
    (when (isStr ty "FunctionDeclaration") (ret (returnsJSX node)) ;;;
     (c ⇐ Some (isStr ty "VariableDeclarator") &&& Some (truthy init);
      when c
        (ity ⇐ get init "type";
         when (isStr ity "ArrowFunctionExpression" || isStr ity "FunctionExpression")
           (ret (returnsJSX init)))) ;;;
     when (isStr ty "ClassDeclaration")
       (when (truthy superClass) (superClassStep superClass)) ;;;
     ret false) false false.
Proof. reflexivity. Qed.

Lemma typeIs_obj r fs ty : typeIs (VObj r fs) ty ↔ lookup "type" fs = VStr ty.
Proof. unfold typeIs. cbn. split; congruence. Qed.

(** X9.  [isReactComponent] answers [true] exactly for: a function
    declaration that returns JSX; a variable declarator whose
    initialiser is an arrow function or a function expression that
    returns JSX; a class declaration whose superclass is
    [React.Component], [React.PureComponent], [Component] or
    [PureComponent]. *)
Theorem isReactComponent_iff (node : value) :
  isReactComponent node = true ↔
  (typeIs node "FunctionDeclaration" ∧ returnsJSX node = true)
  ∨ (typeIs node "VariableDeclarator"
     ∧ ∃ init, get node "init" = Some init
               ∧ (typeIs init "ArrowFunctionExpression"
                  ∨ typeIs init "FunctionExpression")
               ∧ returnsJSX init = true)
  ∨ (typeIs node "ClassDeclaration"
     ∧ ∃ superClass, get node "superClass" = Some superClass
                     ∧ extendsComponent superClass).
Proof.
  destruct node as [| |b|n|s|items|r fs]; try (split; [done|]);
    try (intros [[H _]|[[H _]|[H _]]]; discriminate H).
  rewrite isReactComponent_obj, !typeIs_obj. cbn [get].
  set (ty := lookup "type" fs). set (init := lookup "init" fs).
  set (superClass := lookup "superClass" fs).
  destruct (isStr ty "FunctionDeclaration") eqn:Hfd.
  { apply isStr_true in Hfd. rewrite Hfd. cbn. split; [by left|].
    intros [[_ H]|[[H _]|[H _]]]; done. }
  destruct (isStr ty "VariableDeclarator") eqn:Hvd.
  { apply isStr_true in Hvd. rewrite Hvd. cbn.
    destruct (truthy init) eqn:Hinit; cbn.
    - destruct (BoundaryFacts.truthy_get init "type" Hinit) as [ity Hity].
      rewrite Hity. cbn.
      destruct (isStr ity "ArrowFunctionExpression" || isStr ity "FunctionExpression")
        eqn:Hfn; cbn.
      + apply orb_true_iff in Hfn. rewrite !isStr_true in Hfn. split.
        * intros H. right. left. split; [done|]. exists init. split; [done|].
          split; [|done]. unfold typeIs. rewrite Hity. destruct Hfn as [->| ->]; auto.
        * intros [[H _]|[(_ & init' & [= <-] & _ & H)|[H _]]]; done.
      + split; [done|].
        intros [[H _]|[(_ & init' & [= <-] & Hty & _)|[H _]]]; try done.
        unfold typeIs in Hty. rewrite Hity in Hty.
        apply orb_false_iff in Hfn as [H1 H2].
        destruct Hty as [[= ->]|[= ->]]; done.
    - split; [done|].
      intros [[H _]|[(_ & init' & [= <-] & Hty & _)|[H _]]]; try done.
      destruct Hty as [Hty|Hty]; apply typeIs_truthy in Hty; congruence. }
  cbn [and_ eval when seq skip].
  destruct (isStr ty "ClassDeclaration") eqn:Hcd.
  - apply isStr_true in Hcd. rewrite Hcd. cbn [when].
    destruct (truthy superClass) eqn:Hsup; cbn [when].
    + rewrite superClassStep_spec. split.
      * intros H. right. right. split; [done|]. by exists superClass.
      * intros [[H _]|[[H _]|(_ & sup & [= <-] & H)]]; done.
    + cbn. split; [done|].
      intros [[H _]|[[H _]|(_ & sup & [= <-] & [[H _]|[H _]])]]; try done;
        apply typeIs_truthy in H; congruence.
  - cbn. split; [done|].
    intros [[H _]|[[H _]|[H _]]]; rewrite H in *; done.
Qed.

End ClassifierFacts.

(** ** Definitions collected by the duplicate-definition detector *)
Module CollectionFacts.
Import JS Host AstHelpers OneComponentPerFile JSFacts ComponentFacts.

(** X10.  A function or class declaration that the classifier takes
    for a component is collected exactly once, under the name of its
    [id]; when the [id] is missing, or its name is empty or otherwise
    falsy, the name is ['anonymous'], so the name of such a definition
    is never empty. *)
Theorem named_component_is_collected (n : value) :
  nodeType n = "FunctionDeclaration" ∨ nodeType n = "ClassDeclaration" →
  isReactComponent n = true →
  ∃ id nm,
    get n "id" = Some id
    ∧ definedBy n = [{| name := nm; cnode := n; isCompoundChild := false |}]
    ∧ truthy nm = true
    ∧ (id = VNull ∨ id = VUndef → nm = VStr "anonymous")
    ∧ (∀ x, get id "name" = Some x →
            nm = if truthy x then x else VStr "anonymous").
Proof.
  intros Hty Hcomp.
  assert (Hid : ∃ id, get n "id" = Some id).
  { destruct n; try (destruct Hty as [Hty|Hty]; discriminate Hty); by eexists. }
  destruct Hid as [id Hid].
  destruct (idNameOrAnonymous_spec n id Hid) as (nm & Hnm & Htruthy & Hnull & Hread).
  exists id, nm. repeat split; try done.
  unfold definedBy, visit.
  destruct Hty as [-> | ->]; cbn [String.eqb Ascii.eqb Bool.eqb].
  - unfold FunctionDeclaration, FunctionDeclaration_try. by rewrite Hcomp, Hnm.
  - unfold ClassDeclaration, ClassDeclaration_try. by rewrite Hcomp, Hnm.
Qed.

(** [function Card() { return <div />; }], and the same function with
    an empty name. *)
Lemma named_component_is_collected_witness :
  (∃ nm, definedBy (Ast.Component "Card")
         = [{| name := nm; cnode := Ast.Component "Card"; isCompoundChild := false |}]
         ∧ nm = VStr "Card")
  ∧ (∃ nm, definedBy (Ast.Component "")
           = [{| name := nm; cnode := Ast.Component ""; isCompoundChild := false |}]
           ∧ nm = VStr "anonymous").
Proof.
  split.
  - destruct (named_component_is_collected (Ast.Component "Card"))
      as (id & nm & Hid & Hdef & _ & _ & Hname); [by left | reflexivity |].
    exists nm. split; [exact Hdef|].
    injection Hid as <-. exact (Hname (VStr "Card") eq_refl).
  - destruct (named_component_is_collected (Ast.Component ""))
      as (id & nm & Hid & Hdef & _ & _ & Hname); [by left | reflexivity |].
    exists nm. split; [exact Hdef|].
    injection Hid as <-. exact (Hname (VStr "") eq_refl).
Defined.

End CollectionFacts.

(** ** The passthrough detector on a whole file *)
Module ServiceFileFacts.
Import JS Host AstHelpers NoResponseDataReturn JSFacts ResponseDataFacts.

Lemma replaceBackslashes_app (a b : string) :
  Str.replaceBackslashes (a +:+ b)
  = Str.replaceBackslashes a +:+ Str.replaceBackslashes b.
Proof.
  induction a as [|c a IH]; [done|].
  rewrite RegexFacts.append_cons. cbn [Str.replaceBackslashes].
  by rewrite RegexFacts.append_cons, IH.
Qed.

(** A split of the normalised path comes from a split of the path. *)
Lemma replaceBackslashes_split (s a b : string) :
  Str.replaceBackslashes s = a +:+ b →
  ∃ a0 b0, s = a0 +:+ b0 ∧ Str.replaceBackslashes a0 = a
           ∧ Str.replaceBackslashes b0 = b.
Proof.
  revert s. induction a as [|c a IH]; intros s H.
  - exists EmptyString, s. by rewrite RegexFacts.append_nil_l in H.
  - destruct s as [|c0 s]; [discriminate H|].
    rewrite RegexFacts.append_cons in H. cbn [Str.replaceBackslashes] in H.
    injection H as Hc Hs. destruct (IH s Hs) as (a0 & b0 & -> & Ha & Hb).
    exists (String c0 a0), b0. split; [done|]. split; [|done].
    cbn [Str.replaceBackslashes]. by rewrite Hc, Ha.
Qed.

(** X11.  A file belongs to the service layer exactly when its path
    contains [src/services/] written with slashes or backslashes, in
    any mix, at any place of the path. *)
Theorem service_path_iff (filename : string) :
  matchesServicePath filename = true ↔
  ∃ pre marker post,
    filename = pre +:+ marker +:+ post
    ∧ Str.replaceBackslashes marker = "src/services/".
Proof.
  unfold matchesServicePath. rewrite StrFacts.includes_spec. split.
  - intros (pre & post & H).
    apply replaceBackslashes_split in H as (pre0 & rest & -> & _ & H).
    apply replaceBackslashes_split in H as (marker & post0 & -> & H & _).
    by exists pre0, marker, post0.
  - intros (pre & marker & post & -> & H).
    exists (Str.replaceBackslashes pre), (Str.replaceBackslashes post).
    by rewrite !replaceBackslashes_app, H.
Qed.

(** The nodes of a file the detector reports. *)
Definition flagged (n : value) : bool :=
  String.eqb "ReturnStatement" (nodeType n) && isDirectResponseDataReturn n.

Lemma dispatch_service filename n :
  matchesServicePath filename = true →
  dispatch (create filename) n = if flagged n then [diagnosticAt n] else [].
Proof.
  intros Hsvc. unfold dispatch, create, flagged. rewrite Hsvc. cbn.
  rewrite app_nil_r. unfold ReturnStatement.
  destruct (String.eqb "ReturnStatement" (nodeType n)); [|done].
  by destruct (isDirectResponseDataReturn n).
Qed.

(** X12.  On a service-layer file the detector makes one report for
    each [return] statement that hands on the [data] of a response, in
    the order of the nodes, and no other report. *)
Theorem service_file_reports_each_passthrough
    (filename : string) (nodes : list value) :
  matchesServicePath filename = true →
  lint filename nodes = map diagnosticAt (List.filter flagged nodes)
  ∧ ∀ n, In n (List.filter flagged nodes) ↔
         In n nodes ∧ nodeType n = "ReturnStatement"
         ∧ returnsDataOf responseLike n.
Proof.
  intros Hsvc. split.
  - unfold lint. induction nodes as [|n nodes IH]; [done|].
    cbn [flat_map List.filter]. rewrite IH, (dispatch_service _ _ Hsvc).
    by destruct (flagged n).
  - intros n. rewrite filter_In. unfold flagged.
    rewrite andb_true_iff, String.eqb_eq, isDirectResponseDataReturn_spec.
    split; intros (? & ? & ?); done.
Qed.

Lemma service_file_reports_each_passthrough_witness :
  let data := Ast.ReturnStatement
                (Ast.MemberExpression (Ast.Identifier "response") (Ast.Identifier "data")) in
  let other := Ast.ReturnStatement (Ast.Identifier "user") in
  lint "src\services\user.ts" [data; other; Ast.Identifier "response"; data]
  = [diagnosticAt data; diagnosticAt data].
Proof.
  intros data other.
  exact (proj1 (service_file_reports_each_passthrough "src\services\user.ts"
                  [data; other; Ast.Identifier "response"; data] eq_refl)).
Defined.

End ServiceFileFacts.

(** ** Import analysis and the import edit, composed *)
Module MemoImportFacts.
Import JS Host AstHelpers Imports JSFacts.

(** The statement the loop over the program body stops at. *)
Lemma findImport_spec source statements found :
  findImport source statements = Some found →
  found = VNull
  ∨ (In found statements ∧ typeIs found "ImportDeclaration"
     ∧ ∃ src, get found "source" = Some src
              ∧ get src "value" = Some (VStr source)).
Proof.
  induction statements as [|statement statements IH]; cbn [findImport].
  - intros [= <-]. by left.
  - destruct (get statement "type") as [ty|] eqn:Hty; cbn; [|done].
    destruct (isStr ty "ImportDeclaration") eqn:Himp; cbn.
    + destruct (get statement "source") as [src|] eqn:Hsrc; cbn; [|done].
      destruct (get src "value") as [v|] eqn:Hv; cbn; [|done].
      destruct (isStr v source) eqn:Hsource; cbn.
      * intros [= <-]. right. apply isStr_true in Himp, Hsource. subst.
        repeat split; [by left | done |]. by exists src.
      * intros H. destruct (IH H) as [->|(Hin & Hrest)]; [by left|].
        right. split; [by right | done].
    + intros H. destruct (IH H) as [->|(Hin & Hrest)]; [by left|].
      right. split; [by right | done].
Qed.

(** What the loop over the specifiers does to the flags: the named
    flag is raised exactly when a named specifier is met, and the memo
    flag only together with it. *)
Lemma scanSpecifiers_spec specifiers d n ns m d' n' ns' m' :
  scanSpecifiers specifiers (d, n, ns, m) = Some (d', n', ns', m') →
  ∃ named,
    filterM isImportSpecifier specifiers = Some named
    ∧ n' = n || (0 <? length named)%nat
    ∧ (m' = true → m = true ∨ n' = true).
Proof.
  revert d n ns m.
  induction specifiers as [|specifier specifiers IH]; intros d n ns m; cbn [scanSpecifiers].
  - intros [= <- <- <- <-]. exists []. cbn. rewrite orb_false_r. auto.
  - destruct (get specifier "type") as [ty|] eqn:Hty; cbn [mbind option_bind]; [|done].
    assert (Hp : isImportSpecifier specifier = Some (isStr ty "ImportSpecifier")).
    { unfold isImportSpecifier. by rewrite Hty. }
    cbn [filterM]. rewrite Hp. cbn [mbind option_bind].
    destruct (isStr ty "ImportDefaultSpecifier") eqn:Hd.
    { apply isStr_true in Hd as ->. cbn [isStr String.eqb Ascii.eqb Bool.eqb].
      intros H. destruct (IH _ _ _ _ H) as (named & -> & Hn & Hm).
      exists named. cbn. auto. }
    destruct (isStr ty "ImportNamespaceSpecifier") eqn:Hns.
    { apply isStr_true in Hns as ->. cbn [isStr String.eqb Ascii.eqb Bool.eqb].
      intros H. destruct (IH _ _ _ _ H) as (named & -> & Hn & Hm).
      exists named. cbn. auto. }
    destruct (isStr ty "ImportSpecifier") eqn:Hs.
    + destruct (get specifier "imported" ≫= _) as [isMemo|]; cbn [mbind option_bind]; [|done].
      intros H. destruct (IH _ _ _ _ H) as (named & -> & Hn & Hm).
      exists (specifier :: named). split; [done|].
      assert (Hn' : n' = true).
      { rewrite Hn. cbn. done. }
      split; [|auto]. rewrite Hn'. cbn. by rewrite orb_true_r.
    + intros H. destruct (IH _ _ _ _ H) as (named & -> & Hn & Hm).
      exists named. cbn. auto.
Qed.

(** The result of the analysis when a [react] import is found. *)
Lemma analyzeReactImport_cases programNode :
  analyzeReactImport programNode = noReactImport
  ∨ ∃ body statements reactImport specifiers items d n ns m named,
      get programNode "body" = Some body ∧ iterate body = Some statements
      ∧ In reactImport statements ∧ typeIs reactImport "ImportDeclaration"
      ∧ (∃ src, get reactImport "source" = Some src
                ∧ get src "value" = Some (VStr "react"))
      ∧ get reactImport "specifiers" = Some specifiers
      ∧ iterate specifiers = Some items
      ∧ filterM isImportSpecifier items = Some named
      ∧ n = (0 <? length named)%nat
      ∧ (m = true → n = true)
      ∧ analyzeReactImport programNode =
        {| style := if ns : bool then NAMESPACE
                    else if d && n then MIXED
                    else if d : bool then DEFAULT_ONLY
                    else if n : bool then NAMED_ONLY else NONE;
           hasDefaultImport := d; hasNamedImports := n; hasMemoImport := m;
           importNode := reactImport |}.
Proof.
  unfold analyzeReactImport, analyzeReactImport_try.
  destruct (get programNode "body") as [body|] eqn:Hbody; cbn; [|by left].
  destruct (iterate body) as [statements|] eqn:Hstatements; cbn; [|by left].
  destruct (findImport "react" statements) as [reactImport|] eqn:Hfind; cbn; [|by left].
  apply findImport_spec in Hfind as [->|(Hin & Hty & Hsrc)]; [by left|].
  rewrite (typeIs_truthy _ _ Hty). cbn.
  destruct (get reactImport "specifiers") as [specifiers|] eqn:Hspecs; cbn; [|by left].
  destruct (iterate specifiers) as [items|] eqn:Hitems; cbn; [|by left].
  destruct (scanSpecifiers items (false, false, false, false))
    as [[[[d n] ns] m]|] eqn:Hscan; cbn; [|by left].
  apply scanSpecifiers_spec in Hscan as (named & Hnamed & Hn & Hm). cbn in Hn.
  right. exists body, statements, reactImport, specifiers, items, d, n, ns, m, named.
  repeat split; try done. intros Hm'. by destruct (Hm Hm').
Qed.

(** X13.  The result of [analyzeReactImport] is consistent for every
    program: the memo flag implies the named flag, the style agrees
    with the default and named flags, a result without an import node
    is the neutral result, and an import node is an import declaration
    of [react] among the statements of the program. *)
Theorem analysis_is_consistent (programNode : value) :
  let a := analyzeReactImport programNode in
  (hasMemoImport a = true → hasNamedImports a = true)
  ∧ (style a = MIXED → hasDefaultImport a = true ∧ hasNamedImports a = true)
  ∧ (style a = DEFAULT_ONLY → hasDefaultImport a = true ∧ hasNamedImports a = false)
  ∧ (style a = NAMED_ONLY → hasDefaultImport a = false ∧ hasNamedImports a = true)
  ∧ (style a = NONE →
     hasDefaultImport a = false ∧ hasNamedImports a = false
     ∧ hasMemoImport a = false)
  ∧ (importNode a = VNull → a = noReactImport)
  ∧ (importNode a ≠ VNull →
     typeIs (importNode a) "ImportDeclaration"
     ∧ (∃ src, get (importNode a) "source" = Some src
               ∧ get src "value" = Some (VStr "react"))
     ∧ ∃ body statements,
         get programNode "body" = Some body ∧ iterate body = Some statements
         ∧ In (importNode a) statements).
Proof.
  intros a. subst a.
  destruct (analyzeReactImport_cases programNode)
    as [-> | (body & statements & reactImport & specifiers & items & d & n & ns & m
              & named & Hbody & Hstatements & Hin & Hty & Hsrc & Hspecs & Hitems
              & Hnamed & Hn & Hm & ->)]; cbn.
  - repeat split; done.
  - clear Hn. repeat split; try done.
    all: try (destruct ns, d, n, m; cbn; try done; intros; by auto).
    + destruct ns, d, n, m; try done. by discriminate Hm.
    + intros ->. discriminate Hty.
    + by exists body, statements.
Qed.


(** The text each strategy inserts. *)
Definition memoEditText (strategy : ImportUpdateStrategy) : string :=
  match strategy with
  | NO_UPDATE => EmptyString
  | ADD_TO_NAMED => ", memo"
  | ADD_NAMED_TO_DEFAULT => ", { memo }"
  | CREATE_NEW_IMPORT => "import { memo } from 'react';" +:+ String "010" ""
  end.

(** X14.  [updateImports] returns either nothing, or exactly one edit
    together with the name [memo]: the edit is an insertion that
    replaces nothing, and its text is fixed by the strategy.  The
    strategy [NO_UPDATE] never gives an edit. *)
Theorem update_imports_single_insertion
    (strategy : MemoStrategy) (importNode programNode : value) :
  let r := updateImports strategy importNode programNode in
  r = noUpdate
  ∨ (importUpdateStrategy strategy ≠ NO_UPDATE
     ∧ ∃ pos, r = {| fixes := [insertAt pos
                                 (memoEditText (importUpdateStrategy strategy))];
                     updatedImports := ["memo"] |}).
Proof.
  unfold updateImports, updateImports_try.
  destruct (importUpdateStrategy strategy); cbn [memoEditText].
  - by left.
  - destruct (truthy importNode); cbn; [|by left].
    destruct (rangeOf importNode) as [[r|]|]; cbn; try by left.
    destruct (get importNode "specifiers") as [specifiers|]; cbn; [|by left].
    destruct (arrayFilter specifiers isImportSpecifier) as [named|]; cbn; [|by left].
    destruct (length named =? 0)%nat; cbn; [by left|].
    destruct (rangeOf (List.last named VUndef)) as [[[s e]|]|]; cbn; try by left.
    right. split; [done|]. by exists e.
  - destruct (truthy importNode); cbn; [|by left].
    destruct (rangeOf importNode) as [[r|]|]; cbn; try by left.
    destruct (get importNode "specifiers") as [specifiers|]; cbn; [|by left].
    destruct specifiers as [| | | | |items|]; cbn; try by left.
    destruct (findM isImportDefaultSpecifier items) as [defaultSpecifier|]; cbn;
      [|by left].
    destruct (truthy defaultSpecifier); cbn; [|by left].
    destruct (rangeOf defaultSpecifier) as [[[s e]|]|]; cbn; try by left.
    right. split; [done|]. by exists e.
  - destruct (rangeOf programNode) as [rg|]; cbn; [|by left].
    right. split; [done|]. by eexists.
Qed.



End MemoImportFacts.

(** ** The edits of the type-annotation fix *)
Module AnnotationEditFacts.
Import JS Host TypeAnnotation JSFacts.

(** What a block of [addTypeAnnotation] can do with the edits collected
    so far: fail, return "no fix", leave them, or add one insertion. *)
Definition extends (fixes : list Edit) (s : step) : Prop :=
  s = Threw ∨ s = Returned noFix ∨ s = Continue fixes
  ∨ ∃ pos txt, s = Continue (fixes ++ [Imports.insertAt pos txt]).

Lemma annotateFirstParam_extends fn strategy fixes :
  extends fixes (annotateFirstParam fn strategy fixes).
Proof.
  unfold extends, annotateFirstParam.
  destruct (get fn "params") as [params|]; cbn; [|auto].
  destruct (first params) as [firstParam|]; cbn; [|auto].
  destruct (_ &&& _) as [[|]|]; cbn; [auto| |auto].
  destruct (get firstParam "type") as [ty|]; cbn; [|auto].
  destruct (rangeOf firstParam) as [r|]; cbn; [|auto].
  destruct (if isStr ty "Identifier" then r else None) as [[s e]|]; [|auto].
  right. right. right. by eexists _, _.
Qed.

Lemma annotateFunctionDeclaration_extends componentNode strategy fixes :
  extends fixes (annotateFunctionDeclaration componentNode strategy fixes).
Proof.
  unfold annotateFunctionDeclaration.
  destruct (get componentNode "type") as [ty|]; cbn; [|by left].
  destruct (isStr ty "FunctionDeclaration"); [|by right; right; left].
  destruct (get componentNode "params" ≫= _) as [len|]; cbn; [|by left].
  destruct (gtZero len); [apply annotateFirstParam_extends|].
  destruct (_ &&& _) as [[|]|]; cbn; [|by right; right; left|by left].
  destruct (get componentNode "id" ≫= _) as [[[s e]|]|]; cbn;
    [|by right; right; left|by left].
  right. right. right. by eexists _, _.
Qed.

Lemma annotateVariableDeclarator_extends componentNode strategy fixes :
  extends fixes (annotateVariableDeclarator componentNode strategy fixes).
Proof.
  unfold annotateVariableDeclarator.
  destruct (get componentNode "type") as [ty|]; cbn; [|by left].
  destruct (isStr ty "VariableDeclarator"); [|by right; right; left].
  destruct (get componentNode "init") as [init|]; cbn; [|by left].
  destruct (truthy init); cbn; [|by right; right; left].
  destruct (get init "type") as [ity|]; cbn; [|by left].
  destruct (isStr ity "ArrowFunctionExpression"); cbn; [|by right; right; left].
  destruct (get init "params" ≫= _) as [len|]; cbn; [|by left].
  destruct (gtZero len); [apply annotateFirstParam_extends|by right; right; left].
Qed.

(** The two annotation blocks exclude each other. *)
Lemma annotateVariableDeclarator_skip componentNode strategy fixes :
  typeIs componentNode "FunctionDeclaration" →
  annotateVariableDeclarator componentNode strategy fixes = Continue fixes.
Proof. intros Hty. unfold annotateVariableDeclarator. by rewrite Hty. Qed.

Lemma annotateFunctionDeclaration_skip componentNode strategy fixes :
  ¬ typeIs componentNode "FunctionDeclaration" →
  annotateFunctionDeclaration componentNode strategy fixes = Threw
  ∨ annotateFunctionDeclaration componentNode strategy fixes = Continue fixes.
Proof.
  intros Hty. unfold annotateFunctionDeclaration, typeIs in *.
  destruct (get componentNode "type") as [ty|]; cbn; [|by left].
  destruct (isStr ty "FunctionDeclaration") eqn:H; [|by right].
  apply isStr_true in H as ->. done.
Qed.

Lemma importPropsType_extends strategy programNode fixes :
  importPropsType strategy programNode fixes = Threw
  ∨ importPropsType strategy programNode fixes = Continue fixes
  ∨ ∃ pos txt, importPropsType strategy programNode fixes
               = Continue (fixes ++ [Imports.insertAt pos txt]).
Proof.
  unfold importPropsType.
  destruct (typeImportSource strategy) as [source|]; [|by right; left].
  destruct (needsTypeImport strategy && negb (String.eqb source "")); [|by right; left].
  destruct (get programNode "body" ≫= _) as [found|]; cbn; [|by left].
  destruct (truthy found).
  - destruct (get found "specifiers" ≫= _) as [[named names]|]; cbn; [|by left].
    destruct (negb (includesName names "SvgProps"));
      destruct (needsComponentImport strategy && negb (includesName names "Svg"));
      cbn; try (by right; left);
      (destruct named as [|x named]; [by right; left|]);
      (destruct (rangeOf (List.last (x :: named) VUndef)) as [[[s e]|]|]; cbn;
       [|by right; left|by left]);
      right; right; by eexists _, _.
  - destruct (rangeOf programNode) as [rg|]; cbn; [|by left].
    right. right. by eexists _, _.
Qed.

(** The edits of the two annotation blocks together. *)
Lemma annotation_blocks componentNode strategy :
  extends [] (andThen (annotateFunctionDeclaration componentNode strategy [])
                (annotateVariableDeclarator componentNode strategy)).
Proof.
  destruct (get componentNode "type") as [ty|] eqn:Hty.
  2:{ left. unfold annotateFunctionDeclaration. by rewrite Hty. }
  destruct (isStr ty "FunctionDeclaration") eqn:Hfd.
  - apply isStr_true in Hfd as ->.
    destruct (annotateFunctionDeclaration_extends componentNode strategy [])
      as [-> | [-> | [-> | (pos & txt & ->)]]]; cbn [andThen].
    + by left.
    + by right; left.
    + rewrite annotateVariableDeclarator_skip by done. by right; right; left.
    + rewrite annotateVariableDeclarator_skip by done.
      right. right. right. by exists pos, txt.
  - destruct (annotateFunctionDeclaration_skip componentNode strategy []) as [-> | ->].
    + unfold typeIs. rewrite Hty. intros [= ->]. done.
    + by left.
    + cbn [andThen]. apply annotateVariableDeclarator_extends.
Qed.

(** The result of the function is "no fix", or at most two insertions
    with the flag [success] set when there is one. *)
Lemma addTypeAnnotation_cases componentNode strategy programNode :
  let r := addTypeAnnotation componentNode strategy programNode in
  r = noFix
  ∨ (∃ pos txt, r = {| fixes := [Imports.insertAt pos txt]; success := true |})
  ∨ (∃ pos txt pos' txt',
        r = {| fixes := [Imports.insertAt pos txt; Imports.insertAt pos' txt'];
               success := true |}).
Proof.
  unfold addTypeAnnotation, addTypeAnnotation_try.
  destruct (annotation_blocks componentNode strategy)
    as [H | [H | [H | (pos & txt & H)]]];
    destruct (annotateFunctionDeclaration componentNode strategy []) as [|r|fixes];
    cbn [andThen] in *; try discriminate H; try (by left);
    try (injection H as ->; by left); rewrite H; cbn [andThen app]; try (by left).
  - destruct (importPropsType_extends strategy programNode [])
      as [-> | [-> | (pos & txt & ->)]]; cbn; try (by left).
    right. left. by exists pos, txt.
  - destruct (importPropsType_extends strategy programNode [Imports.insertAt pos txt])
      as [-> | [-> | (pos' & txt' & ->)]]; cbn; try (by left).
    + right. left. by exists pos, txt.
    + right. right. by exists pos, txt, pos', txt'.
Qed.

(** X16.  For every component, strategy and program, the edits of
    [addTypeAnnotation] are insertions that replace nothing, there are
    at most two of them (one annotation, one import), and [success] is
    set exactly when there is an edit. *)
Theorem type_annotation_edits_are_insertions
    (componentNode : value) (strategy : TypeAnnotationStrategy) (programNode : value) :
  let r := addTypeAnnotation componentNode strategy programNode in
  (success r = true ↔ fixes r ≠ [])
  ∧ (length (fixes r) ≤ 2)%nat
  ∧ Forall (λ e, (edit_range e).1 = (edit_range e).2) (fixes r).
Proof.
  destruct (addTypeAnnotation_cases componentNode strategy programNode)
    as [H | [(pos & txt & H) | (pos & txt & pos' & txt' & H)]];
    cbn zeta in *; rewrite H; cbn; (split; [split; [done|]|]).
  - intros Hne. by destruct Hne.
  - split; [lia|constructor].
  - done.
  - split; [lia|]. by repeat constructor.
  - done.
  - split; [lia|]. by repeat constructor.
Qed.


Lemma importPropsType_not_needed strategy programNode fixes :
  needsTypeImport strategy = false →
  importPropsType strategy programNode fixes = Continue fixes.
Proof.
  intros H. unfold importPropsType. rewrite H.
  by destruct (typeImportSource strategy).
Qed.

(** The shared block on a first parameter that is an identifier without
    a type annotation. *)
Lemma annotateFirstParam_unannotated fn strategy fixes firstParam rest ta rg :
  get fn "params" = Some (VArr (firstParam :: rest)) →
  typeIs firstParam "Identifier" →
  get firstParam "typeAnnotation" = Some ta → truthy ta = false →
  rangeOf firstParam = Some rg →
  annotateFirstParam fn strategy fixes =
  Continue match rg with
           | Some (_, e) =>
               fixes ++ [Imports.insertAt e (": " +:+ propsType strategy)]
           | None => fixes
           end.
Proof.
  intros Hparams Hty Hta Hfalsy Hrange. unfold annotateFirstParam.
  rewrite Hparams. cbn. rewrite Hty. cbn. rewrite Hta. cbn.
  rewrite ?String.eqb_refl, Hfalsy, Hrange. cbn. rewrite Hty. cbn.
  rewrite ?String.eqb_refl. by destruct rg as [[s e]|].
Qed.

(** X17.  When the first parameter of the component, a function
    declaration or a variable bound to an arrow function, is an
    identifier without a type annotation, and the strategy needs no
    type import, the only edit inserts [": "] and the props type at the
    end of the parameter. *)
Theorem unannotated_identifier_param_is_annotated
    componentNode fn strategy programNode firstParam rest ta start end_ :
  (typeIs componentNode "FunctionDeclaration" ∧ fn = componentNode)
  ∨ (typeIs componentNode "VariableDeclarator"
     ∧ get componentNode "init" = Some fn
     ∧ typeIs fn "ArrowFunctionExpression") →
  get fn "params" = Some (VArr (firstParam :: rest)) →
  typeIs firstParam "Identifier" →
  get firstParam "typeAnnotation" = Some ta → truthy ta = false →
  rangeOf firstParam = Some (Some (start, end_)) →
  needsTypeImport strategy = false →
  addTypeAnnotation componentNode strategy programNode
  = {| fixes := [Imports.insertAt end_ (": " +:+ propsType strategy)];
       success := true |}.
Proof.
  intros Hshape Hparams Hty Hta Hfalsy Hrange Himport.
  unfold addTypeAnnotation, addTypeAnnotation_try.
  destruct Hshape as [[Hfd ->] | (Hvd & Hinit & Harrow)].
  - unfold annotateFunctionDeclaration. rewrite Hfd. cbn.
    rewrite Hparams. cbn [mbind option_bind evalS get String.eqb Ascii.eqb Bool.eqb].
    rewrite TypeAnnotationFacts.gtZero_length.
    rewrite (annotateFirstParam_unannotated _ _ _ _ _ _ _ Hparams Hty Hta Hfalsy Hrange).
    cbn [andThen app]. rewrite annotateVariableDeclarator_skip by done.
    cbn [andThen]. by rewrite importPropsType_not_needed.
  - unfold annotateFunctionDeclaration, annotateVariableDeclarator.
    rewrite Hvd. cbn. rewrite Hinit. cbn.
    rewrite (typeIs_truthy _ _ Harrow), Harrow. cbn.
    rewrite Hparams. cbn [mbind option_bind evalS get String.eqb Ascii.eqb Bool.eqb].
    rewrite TypeAnnotationFacts.gtZero_length.
    rewrite (annotateFirstParam_unannotated _ _ _ _ _ _ _ Hparams Hty Hta Hfalsy Hrange).
    cbn [andThen app]. rewrite Hvd.
    cbn [evalS isStr String.eqb Ascii.eqb Bool.eqb andThen].
    by rewrite importPropsType_not_needed.
Qed.

(** [function Icon(props) { return <div />; }] in a web project. *)
Lemma unannotated_identifier_param_is_annotated_witness :
  let param := Ast.Param (Some (14, 19)) "props" false in
  let icon := Ast.FunctionDeclaration "Icon" [param] [Ast.ReturnStatement Ast.JSXElement] in
  addTypeAnnotation icon (getTypeAnnotationStrategy REACT_WEB Imports.NONE)
    (Ast.Program (Some (0, 50)) [icon])
  = {| fixes := [Imports.insertAt 19 ": React.SVGProps<SVGSVGElement>"];
       success := true |}.
Proof.
  intros param icon.
  refine (unannotated_identifier_param_is_annotated icon icon
            (getTypeAnnotationStrategy REACT_WEB Imports.NONE)
            (Ast.Program (Some (0, 50)) [icon]) param [] VUndef 14 19
            _ _ _ _ _ _ _);
    [left; split | ..]; reflexivity.
Defined.

(** X18.  For a function declaration without parameters, whose name
    and body have a range, the only edit inserts [props: ] and the
    props type one character after the end of the name, when the
    strategy needs no type import. *)
Theorem parameterless_function_gets_props
    componentNode strategy programNode id body start end_ bodyRange :
  typeIs componentNode "FunctionDeclaration" →
  get componentNode "params" = Some (VArr []) →
  get componentNode "id" = Some id → rangeOf id = Some (Some (start, end_)) →
  get componentNode "body" = Some body → rangeOf body = Some (Some bodyRange) →
  needsTypeImport strategy = false →
  addTypeAnnotation componentNode strategy programNode
  = {| fixes := [Imports.insertAt (end_ + 1) ("props: " +:+ propsType strategy)];
       success := true |}.
Proof.
  intros Hfd Hparams Hid Hidr Hbody Hbodyr Himport.
  assert (Htruthy : truthy id = true) by by destruct id.
  assert (Hblock : annotateFunctionDeclaration componentNode strategy []
                   = Continue [Imports.insertAt (end_ + 1)
                                 ("props: " +:+ propsType strategy)]).
  { unfold annotateFunctionDeclaration.
    rewrite Hfd. cbn. rewrite Hparams. cbn. rewrite Hid. cbn.
    rewrite Htruthy, Hidr. cbn. rewrite Hbody. cbn. by rewrite Hbodyr. }
  unfold addTypeAnnotation, addTypeAnnotation_try. rewrite Hblock.
  cbn [andThen]. rewrite annotateVariableDeclarator_skip by done.
  cbn [andThen]. by rewrite importPropsType_not_needed.
Qed.

(** [function Icon() {...}]: the name ends at offset 13. *)
Lemma parameterless_function_gets_props_witness :
  let icon :=
    Ast.Node "FunctionDeclaration" (Some (0, 40))
      [("id", Ast.Node "Identifier" (Some (9, 13)) [("name", VStr "Icon")]);
       ("params", VArr []);
       ("body", Ast.BlockStatement (Some (16, 40)) [Ast.ReturnStatement Ast.JSXElement])] in
  addTypeAnnotation icon (getTypeAnnotationStrategy REACT_WEB Imports.NONE)
    (Ast.Program (Some (0, 40)) [icon])
  = {| fixes := [Imports.insertAt 14 "props: React.SVGProps<SVGSVGElement>"];
       success := true |}.
Proof.
  intros icon.
  refine (parameterless_function_gets_props icon
            (getTypeAnnotationStrategy REACT_WEB Imports.NONE)
            (Ast.Program (Some (0, 40)) [icon])
            (Ast.Node "Identifier" (Some (9, 13)) [("name", VStr "Icon")])
            (Ast.BlockStatement (Some (16, 40)) [Ast.ReturnStatement Ast.JSXElement])
            9 13 (16, 40) _ _ _ _ _ _ _); reflexivity.
Defined.

(** X19.  A variable bound to a function expression, or to an arrow
    function without parameters, gets no annotation: when the strategy
    needs no type import the result is "no fix". *)
Theorem function_expression_is_not_annotated
    componentNode init strategy programNode :
  typeIs componentNode "VariableDeclarator" →
  get componentNode "init" = Some init →
  typeIs init "FunctionExpression"
  ∨ (typeIs init "ArrowFunctionExpression" ∧ get init "params" = Some (VArr [])) →
  needsTypeImport strategy = false →
  addTypeAnnotation componentNode strategy programNode = noFix.
Proof.
  intros Hvd Hinit Hshape Himport.
  assert (Hfirst : annotateFunctionDeclaration componentNode strategy [] = Continue []).
  { unfold annotateFunctionDeclaration. by rewrite Hvd. }
  assert (Hsecond : annotateVariableDeclarator componentNode strategy [] = Continue []).
  { unfold annotateVariableDeclarator. rewrite Hvd. cbn. rewrite Hinit. cbn.
    destruct Hshape as [Hfe | [Harrow Hparams]].
    - by rewrite (typeIs_truthy _ _ Hfe), Hfe.
    - rewrite (typeIs_truthy _ _ Harrow), Harrow. cbn. by rewrite Hparams. }
  unfold addTypeAnnotation, addTypeAnnotation_try.
  rewrite Hfirst. cbn [andThen]. rewrite Hsecond. cbn [andThen].
  by rewrite importPropsType_not_needed.
Qed.

(** [const Icon = function (props) { return <div />; }] *)
Lemma function_expression_is_not_annotated_witness :
  let fn := Ast.Node "FunctionExpression" None
              [("params", VArr [Ast.Param (Some (23, 28)) "props" false]);
               ("body", Ast.BlockStatement None [Ast.ReturnStatement Ast.JSXElement])] in
  AstHelpers.isReactComponent (Ast.VariableDeclarator "Icon" fn) = true
  ∧ addTypeAnnotation (Ast.VariableDeclarator "Icon" fn)
      (getTypeAnnotationStrategy REACT_WEB Imports.NONE)
      (Ast.Program (Some (0, 60)) [])
    = noFix.
Proof.
  intros fn. split; [reflexivity|].
  apply (function_expression_is_not_annotated (Ast.VariableDeclarator "Icon" fn) fn);
    [reflexivity | reflexivity | left; reflexivity | reflexivity].
Defined.

End AnnotationEditFacts.

(** ** Type guards and validators *)
Module GuardFacts.
Import JS AstGuards JSFacts.

(** X20.  [validateJSXElement] does not throw on a node that can be
    read; on a node it accepts, [getJSXElementName] does not throw
    either, and returns the name of a [JSXIdentifier] and [null] for
    any other kind of name. *)
Theorem validated_element_has_a_name :
  (∀ node, node ≠ VUndef → node ≠ VNull → is_Some (validateJSXElement node))
  ∧ (∀ node, validateJSXElement node = Some true →
       typeIs node "JSXElement"
       ∧ ∃ openingElement name result,
           get node "openingElement" = Some openingElement
           ∧ get openingElement "name" = Some name ∧ truthy name = true
           ∧ getJSXElementName node = Some result
           ∧ (typeIs name "JSXIdentifier" → get name "name" = Some result)
           ∧ (¬ typeIs name "JSXIdentifier" → result = VNull)).
Proof.
  split.
  - intros node Hu Hn. unfold validateJSXElement, isJSXElement.
    destruct node as [| |b|n|s|items|r fs]; try done; cbn; try by eexists.
    destruct (isStr (lookup "type" fs) "JSXElement"); cbn; [|by eexists].
    destruct (lookup "openingElement" fs); cbn; try (by eexists);
      by destruct (negb _); eexists.
  - intros node H. unfold validateJSXElement, isJSXElement, getJSXElementName in *.
    destruct (get node "type") as [ty|] eqn:Hty; [|done]. cbn in H.
    destruct (isStr ty "JSXElement") eqn:Hjsx; [|done]. cbn in H.
    apply isStr_true in Hjsx as ->. split; [done|].
    destruct (get node "openingElement") as [oe|] eqn:Hoe; [|done]. cbn in H.
    destruct (optGet oe "name") as [name|] eqn:Hname; [|done]. cbn in H.
    destruct (truthy name) eqn:Htruthy; [|done].
    assert (Hget : get oe "name" = Some name).
    { destruct oe; cbn in Hname; try done; injection Hname as <-; done. }
    destruct (BoundaryFacts.truthy_get name "type" Htruthy) as [nty Hnty].
    destruct (BoundaryFacts.truthy_get name "name" Htruthy) as [nm Hnm].
    exists oe, name, (if isStr nty "JSXIdentifier" then nm else VNull).
    cbn. rewrite Hget. cbn. rewrite Hnty. cbn.
    destruct (isStr nty "JSXIdentifier") eqn:Hid.
    + repeat split; try done. intros Hno. apply isStr_true in Hid as ->. by destruct Hno.
    + repeat split; try done. unfold typeIs. rewrite Hnty. intros [= ->]. done.
Qed.

(** X21.  [isValidJSXAttribute] accepts exactly the nodes that
    [validateJSXAttribute] accepts and whose [value] is not [null]. *)
Theorem strict_attribute_guard_iff (node : value) :
  isValidJSXAttribute node = Some true ↔
  validateJSXAttribute node = Some true
  ∧ ∃ v, get node "value" = Some v ∧ v ≠ VNull.
Proof.
  unfold isValidJSXAttribute, validateJSXAttribute.
  destruct (get node "type") as [ty|] eqn:Hty; cbn; [|split; [done | by intros [? _]]].
  destruct (isStr ty "JSXAttribute"); cbn; [|split; [done | by intros [? _]]].
  destruct (get node "name") as [name|] eqn:Hname; cbn;
    [|split; [done | by intros [? _]]].
  destruct (BoundaryFacts.get_some_get node "type" ty "value" Hty) as [v Hv].
  rewrite Hv. cbn.
  destruct name as [| |b|n|s|items|r fs]; cbn;
    try (split; [done | by intros [? _]]).
  destruct (isStr (lookup "type" fs) "JSXIdentifier"); cbn;
    [|split; [done | by intros [? _]]].
  destruct v; cbn; split; try done;
    try (intros _; split; [done|]; by eexists);
    by intros [_ (v & [= <-] & Hv')].
Qed.

(** The names of the form hooks. *)
Definition hookName (name : value) : Prop :=
  name = VStr "useForm" ∨ name = VStr "useFormik".

Lemma hookName_spec v :
  isStr v "useForm" || isStr v "useFormik" = true ↔ hookName v.
Proof. unfold hookName. by rewrite orb_true_iff, !isStr_true. Qed.

(** X22.  [isFormHook] answers [true] exactly when the callee is an
    identifier named [useForm] or [useFormik], or a member access whose
    property is such an identifier. *)
Theorem isFormHook_iff (node : value) :
  isFormHook node = true ↔
  ∃ callee, get node "callee" = Some callee ∧
    ((typeIs callee "Identifier"
      ∧ ∃ name, get callee "name" = Some name ∧ hookName name)
     ∨ (typeIs callee "MemberExpression"
        ∧ ∃ prop name,
            get callee "property" = Some prop ∧ typeIs prop "Identifier"
            ∧ get prop "name" = Some name ∧ hookName name)).
Proof.
  unfold isFormHook, isFormHook_try, typeIs.
  destruct (get node "callee") as [callee|] eqn:Hcallee; cbn;
    [|split; [done | by intros (? & ? & _)]].
  assert (Hrhs : ∀ P : value → Prop,
             (∃ callee0, Some callee = Some callee0 ∧ P callee0) ↔ P callee).
  { intros P. split; [by intros (? & [= <-] & ?) | by exists callee]. }
  rewrite Hrhs. clear Hrhs.
  destruct (get callee "type") as [cty|] eqn:Hcty; cbn;
    [|split; [done | by intros [[? _]|[? _]]]].
  destruct (isStr cty "Identifier") eqn:Hid; cbn.
  - apply isStr_true in Hid as ->.
    destruct (BoundaryFacts.get_some_get callee "type" _ "name" Hcty) as [nm Hnm].
    rewrite Hnm. cbn. rewrite hookName_spec. split.
    + intros H. left. split; [done|]. by exists nm.
    + intros [(_ & name & [= <-] & H)|[[= H] _]]; done.
  - destruct (isStr cty "MemberExpression") eqn:Hme; cbn.
    + apply isStr_true in Hme as ->.
      destruct (BoundaryFacts.get_some_get callee "type" _ "property" Hcty)
        as [prop Hprop].
      rewrite Hprop. cbn.
      destruct (get prop "type") as [pty|] eqn:Hpty; cbn;
        [|split; [done | intros [[[= H] _]|(_ & ? & ? & [= <-] & ? & _)]; congruence]].
      destruct (isStr pty "Identifier") eqn:Hpid; cbn.
      * apply isStr_true in Hpid as ->.
        destruct (BoundaryFacts.get_some_get prop "type" _ "name" Hpty) as [pn Hpn].
        rewrite Hpn. cbn. rewrite hookName_spec. split.
        -- intros H. right. split; [done|]. by exists prop, pn.
        -- intros [[[= H] _]|(_ & ? & name & [= <-] & _ & Hn & H)].
           rewrite Hpn in Hn. by injection Hn as <-.
      * split; [done|].
        intros [[[= H] _]|(_ & ? & name & [= <-] & Hp & _)].
        rewrite Hpty in Hp. injection Hp as ->. done.
    + split; [done|]. intros [[[= ->] _]|[[= ->] _]]; done.
Qed.

End GuardFacts.

(** ** The type import of the type-annotation fix *)
Module TypeImportFacts.
Import JS Host TypeAnnotation JSFacts.

(** An import declaration of module [source]. *)
Definition importOf (source : string) (statement : value) : Prop :=
  typeIs statement "ImportDeclaration"
  ∧ ∃ src, get statement "source" = Some src
           ∧ get src "value" = Some (VStr source).

(** A statement the search for the import of [source] passes by. *)
Definition passedBy (source : string) (statement : value) : Prop :=
  ∃ ty, get statement "type" = Some ty
        ∧ (ty = VStr "ImportDeclaration" →
           ∃ src v, get statement "source" = Some src
                    ∧ get src "value" = Some v ∧ v ≠ VStr source).

(** A named specifier that imports [name]. *)
Definition importsName (name : string) (specifier : value) : Prop :=
  typeIs specifier "ImportSpecifier"
  ∧ ∃ imported, get specifier "imported" = Some imported
                ∧ typeIs imported "Identifier"
                ∧ get imported "name" = Some (VStr name).

(** A specifier as the parser builds it: it has a type, and a named
    specifier has an imported name. *)
Definition wellFormed (specifier : value) : Prop :=
  ∃ ty, get specifier "type" = Some ty
        ∧ (ty = VStr "ImportSpecifier" →
           ∃ imported ity, get specifier "imported" = Some imported
                           ∧ get imported "type" = Some ity).

Lemma findImport_first source pre found post :
  Forall (passedBy source) pre → importOf source found →
  Imports.findImport source (pre ++ found :: post) = Some found.
Proof.
  intros Hpre (Hty & src & Hsrc & Hv).
  induction Hpre as [|statement pre (ty & Hsty & Hnot) _ IH]; cbn [app Imports.findImport].
  - unfold typeIs in Hty. rewrite Hty, Hsrc. cbn. rewrite Hv. cbn.
    by rewrite !String.eqb_refl.
  - rewrite Hsty. cbn. destruct (isStr ty "ImportDeclaration") eqn:Himp; cbn; [|exact IH].
    apply isStr_true in Himp. destruct (Hnot Himp) as (src' & v & Hs' & Hv' & Hne).
    rewrite Hs'. cbn. rewrite Hv'. cbn.
    destruct (isStr v source) eqn:Hvs; [|exact IH].
    apply isStr_true in Hvs. done.
Qed.

Lemma importedNames_spec items :
  Forall wellFormed items →
  ∃ named names,
    AstHelpers.filterM Imports.isImportSpecifier items = Some named
    ∧ mapM importedName named = Some names
    ∧ ∀ name specifier,
        In specifier items → importsName name specifier → In (VStr name) names.
Proof.
  induction 1 as [|specifier items (ty & Hty & Himported) _ (named & names & Hnamed & Hnames & Hin)].
  - exists [], []. repeat split; done.
  - assert (Hp : Imports.isImportSpecifier specifier
                 = Some (isStr ty "ImportSpecifier")).
    { unfold Imports.isImportSpecifier. by rewrite Hty. }
    cbn [AstHelpers.filterM]. rewrite Hp, Hnamed. cbn [mbind option_bind].
    destruct (isStr ty "ImportSpecifier") eqn:Hspec.
    + apply isStr_true in Hspec.
      destruct (Himported Hspec) as (imported & ity & Himp & Hity).
      assert (Hname : ∃ nm, importedName specifier = Some nm
                            ∧ ∀ name, importsName name specifier → nm = VStr name).
      { unfold importedName. rewrite Himp. cbn. rewrite Hity. cbn.
        destruct (isStr ity "Identifier") eqn:Hid.
        - destruct (BoundaryFacts.get_some_get imported "type" _ "name" Hity)
            as [nm Hnm].
          exists nm. split; [done|].
          intros name (_ & imported' & Himp' & _ & Hnm'). congruence.
        - exists VNull. split; [done|].
          intros name (_ & imported' & Himp' & Hity' & _).
          assert (imported' = imported) by congruence. subst.
          unfold typeIs in Hity'. rewrite Hity in Hity'. injection Hity' as ->. done. }
      destruct Hname as (nm & Hnm & Hnm').
      exists (specifier :: named), (nm :: names). split; [done|]. split.
      * cbn. rewrite Hnm. cbn. fold (mapM importedName named). by rewrite Hnames.
      * intros name spec [<-|Hspecin] Himports.
        -- left. by apply Hnm'.
        -- right. by eapply Hin.
    + exists named, names. split; [done|]. split; [done|].
      intros name spec [<-|Hspecin] Himports; [|by eapply Hin].
      destruct Himports as (Hsty & _). unfold typeIs in Hsty.
      rewrite Hty in Hsty. injection Hsty as ->. done.
Qed.

Lemma includesName_In names s :
  In (VStr s) names → includesName (List.filter isNotNull names) s = true.
Proof.
  intros Hin. unfold includesName. apply existsb_exists. exists (VStr s).
  split; [by apply filter_In | by apply isStr_true].
Qed.

(** X23.  When the program has an import of the type source whose
    named specifiers already import [SvgProps] and [Svg], the
    synthesizer adds no import edit. *)
Theorem imported_types_are_not_repeated
    strategy programNode fixes source pre found post items props svg :
  typeImportSource strategy = Some source →
  get programNode "body" = Some (VArr (pre ++ found :: post)) →
  Forall (passedBy source) pre → importOf source found →
  get found "specifiers" = Some (VArr items) → Forall wellFormed items →
  In props items → importsName "SvgProps" props →
  In svg items → importsName "Svg" svg →
  importPropsType strategy programNode fixes = Continue fixes.
Proof.
  intros Hsource Hbody Hpre Hfound Hspecs Hitems Hinp Hprops Hins Hsvg.
  destruct (importedNames_spec items Hitems) as (named & names & Hnamed & Hnames & Hin).
  unfold importPropsType. rewrite Hsource.
  destruct (needsTypeImport strategy && negb (String.eqb source "")); [|done].
  rewrite Hbody. cbn. rewrite (findImport_first _ _ _ _ Hpre Hfound). cbn.
  destruct Hfound as [Hty _]. rewrite (typeIs_truthy _ _ Hty), Hspecs. cbn.
  rewrite Hnamed. cbn. rewrite Hnames. cbn.
  rewrite (includesName_In _ _ (Hin _ _ Hinp Hprops)),
    (includesName_In _ _ (Hin _ _ Hins Hsvg)). cbn.
  by rewrite andb_false_r.
Qed.

(** [import React from 'react';
     import { Svg, SvgProps } from 'react-native-svg';] *)
Lemma imported_types_are_not_repeated_witness :
  let svg := Ast.ImportSpecifier (Some (36, 39)) "Svg" in
  let props := Ast.ImportSpecifier (Some (41, 49)) "SvgProps" in
  let react := Ast.ImportDeclaration (Some (0, 26)) "react"
                 [Ast.ImportDefaultSpecifier (Some (7, 12)) "React"] in
  let found := Ast.ImportDeclaration (Some (27, 75)) "react-native-svg" [svg; props] in
  importPropsType (getTypeAnnotationStrategy REACT_NATIVE Imports.NONE)
    (Ast.Program (Some (0, 75)) [react; found]) []
  = Continue [].
Proof.
  intros svg props react found.
  apply (imported_types_are_not_repeated
           (getTypeAnnotationStrategy REACT_NATIVE Imports.NONE)
           (Ast.Program (Some (0, 75)) [react; found]) [] "react-native-svg"
           [react] found [] [svg; props] props svg).
  - reflexivity.
  - reflexivity.
  - constructor; [|constructor]. eexists. split; [reflexivity|].
    intros _. eexists _, _. split; [reflexivity|]. split; [reflexivity|]. discriminate.
  - split; [reflexivity|]. eexists. split; reflexivity.
  - reflexivity.
  - repeat constructor; (eexists; split; [reflexivity|]);
      intros _; eexists _, _; split; reflexivity.
  - right. left. reflexivity.
  - split; [reflexivity|]. eexists. repeat split; reflexivity.
  - left. reflexivity.
  - split; [reflexivity|]. eexists. repeat split; reflexivity.
Defined.


Lemma findImport_none source statements :
  Forall (passedBy source) statements →
  Imports.findImport source statements = Some VNull.
Proof.
  induction 1 as [|statement statements (ty & Hsty & Hnot) _ IH];
    cbn [Imports.findImport]; [done|].
  rewrite Hsty. cbn. destruct (isStr ty "ImportDeclaration") eqn:Himp; cbn; [|exact IH].
  apply isStr_true in Himp. destruct (Hnot Himp) as (src' & v & Hs' & Hv' & Hne).
  rewrite Hs'. cbn. rewrite Hv'. cbn.
  destruct (isStr v source) eqn:Hvs; [|exact IH].
  apply isStr_true in Hvs. done.
Qed.

(** X24.  When the strategy needs a type import and no statement of
    the program imports the type source, a new import line for
    [SvgProps], and for [Svg] when the component import is needed, is
    inserted at the start of the program (offset 0 without a range). *)
Theorem missing_type_import_is_created
    strategy programNode fixes source statements range :
  needsTypeImport strategy = true →
  typeImportSource strategy = Some source → source ≠ EmptyString →
  get programNode "body" = Some (VArr statements) →
  Forall (passedBy source) statements →
  rangeOf programNode = Some range →
  importPropsType strategy programNode fixes =
  Continue
    (fixes ++
     [Imports.insertAt (match range with Some (start, _) => start | None => 0 end)
        ("import { "
         +:+ (if needsComponentImport strategy then "SvgProps, Svg" else "SvgProps")
         +:+ " } from '" +:+ source +:+ "';" +:+ String "010" "")]).
Proof.
  intros Hneeds Hsource Hne Hbody Hnone Hrange.
  unfold importPropsType. rewrite Hsource, Hneeds.
  destruct (String.eqb_spec source "") as [->|_]; [done|]. cbn [andb negb].
  rewrite Hbody. cbn. rewrite (findImport_none _ _ Hnone). cbn.
  rewrite Hrange. cbn. by destruct (needsComponentImport strategy).
Qed.

(** A program with an import of [react] only. *)
Lemma missing_type_import_is_created_witness :
  importPropsType (getTypeAnnotationStrategy REACT_NATIVE Imports.NONE)
    Ast.defaultImportProgram []
  = Continue [Imports.insertAt 0
                ("import { SvgProps, Svg } from 'react-native-svg';"
                 +:+ String "010" "")].
Proof.
  refine (missing_type_import_is_created
            (getTypeAnnotationStrategy REACT_NATIVE Imports.NONE)
            Ast.defaultImportProgram [] "react-native-svg"
            [Ast.ImportDeclaration (Some (0, 26)) "react"
               [Ast.ImportDefaultSpecifier (Some (7, 12)) "React"]]
            (Some (0, 26)) _ _ _ _ _ _); try reflexivity; [discriminate|].
  constructor; [|constructor]. eexists. split; [reflexivity|].
  intros _. eexists _, _. split; [reflexivity|]. split; [reflexivity|]. discriminate.
Defined.

End TypeImportFacts.
